(** * hablai-tts: the resumable batch driver of [generate_tts_azure_db.py]

    A shallow embedding of [synthesize_to_file] and [main] of
    [src/generate_tts_azure_db.py], and the properties of the batch
    synthesis driver: eligible-record selection, per-record outcome
    bookkeeping, transactional persistence, dry-run and the run counters;
    and of [main] of [src/dump_phrases_backup.py], the backup of the
    phrases as tab-separated text.

    What stands for what:
    - the [phrases] table is a [list Row]; the three SQL statements of the
      script are functions on it, the [WHERE] clause evaluated in SQL's
      three-valued logic ([NULL] is [None]);
    - the psycopg2 connection ([autocommit = False]) is a pair of tables,
      the committed one and the one the open transaction sees; [commit]
      copies the second onto the first and [close] drops what is not
      committed;
    - the output directory is a flag (does it exist) and a finite map from
      file names to sizes;
    - a text is the UTF-8 encoding of the Python [str]; a character
      begins at every byte that is not a continuation byte;
    - the Azure synthesizer is an unknown function: every theorem holds for
      all of them;
    - [time.sleep] is an unknown function too, which returns or raises
      ([OverflowError]) according to the number of seconds;
    - everything the run does in order (queries, updates, commits, provider
      calls, progress-bar ticks, sleeps) is also written to a log of
      events, so that statements about order can be made.

    Left out: the [.env] and credential checks at import time, the
    [[INFO]] lines, what the progress bar displays, the time a sleep
    takes, and [create_speech_config] (language, voice and MP3 format go
    to the provider as they are). Given a text, the provider always
    answers with a result object; a [NULL] phrase makes the preview of
    line 242 and the call of line 248 raise before anything is done for
    the record. The table has no [NULL] in [tts_ok], the attempt counts
    fit their column, and the only statement that can fail is the page
    query, with a [LIMIT] that is negative or not a [bigint]; no other
    process writes to the table or the directory during a run. *)

From Stdlib Require Import QArith Ascii.
From stdpp Require Import base numbers list sorting strings gmap pretty.

Local Open Scope string_scope.
Local Open Scope Z_scope.
Local Open Scope list_scope.

(** ** The [phrases] table *)

Module Db.

(** A row of [phrases(id, phrase, tts_ok, tts_attempts, tts_error)].
    [phrase], [tts_attempts] and [tts_error] may be [NULL]; the script
    reads the second with [row["tts_attempts"] or 0]. *)
Record Row := mkRow {
  id : Z;
  phrase : option string;
  tts_ok : bool;
  tts_attempts : option Z;
  tts_error : option string
}.

Definition Table := list Row.

Definition ids (t : Table) : list Z := id <$> t.

(** SQL comparison and conjunction over nullable values. *)
Definition sql_eq_bool (a : option bool) (b : bool) : option bool :=
  match a with
  | Some x => Some (Bool.eqb x b)
  | None => None
  end.

Definition sql_lt (a : option Z) (b : Z) : option bool :=
  match a with
  | Some x => Some (x <? b)
  | None => None
  end.

Definition sql_and (a b : option bool) : option bool :=
  match a, b with
  | Some false, _ | _, Some false => Some false
  | Some true, Some true => Some true
  | _, _ => None
  end.

(** A row is selected when the [WHERE] condition is true (not false, not
    unknown). *)
Definition sql_holds (c : option bool) : bool :=
  match c with
  | Some true => true
  | _ => false
  end.

(** [WHERE tts_ok = false AND tts_attempts < %s] (lines 171-172 and
    206-207). *)
Definition where_pending (max_attempts : Z) (r : Row) : bool :=
  sql_holds (sql_and (sql_eq_bool (Some (tts_ok r)) false)
                     (sql_lt (tts_attempts r) max_attempts)).

(** [SELECT COUNT( * ) FROM phrases WHERE ...] (lines 167-176). *)
Definition select_count (max_attempts : Z) (t : Table) : Z :=
  Z.of_nat (length (filter (λ r, where_pending max_attempts r) t)).

(** [ORDER BY id]. *)
Definition by_id : relation Row := λ r1 r2, id r1 ≤ id r2.

#[global] Instance by_id_dec : RelDecision by_id.
Proof. intros r1 r2. unfold by_id. apply _. Defined.

(** [SELECT id, phrase, tts_attempts FROM phrases WHERE ... ORDER BY id
    LIMIT %s] (lines 202-213). PostgreSQL refuses a negative [LIMIT]
    and one that is not a [bigint] ([None]: the statement raises). The
    rows are kept whole: the driver reads only the three selected
    columns. *)
Definition select_page (max_attempts batch_size : Z) (t : Table)
  : option (list Row) :=
  if (batch_size <? 0) || (2 ^ 63 <=? batch_size) then None
  else Some (take (Z.to_nat batch_size)
               (merge_sort by_id
                  (filter (λ r, where_pending max_attempts r) t))).

(** [UPDATE phrases SET ... WHERE id = %s]: every row with that id is
    rewritten by [set]. *)
Definition update_where_id (set : Row → Row) (pid : Z) (t : Table) : Table :=
  (λ r, if bool_decide (id r = pid) then set r else r) <$> t.

(** Line 232: [SET tts_ok = true, tts_error = NULL]. *)
Definition set_reconciled (r : Row) : Row :=
  {| id := id r; phrase := phrase r; tts_ok := true;
     tts_attempts := tts_attempts r; tts_error := None |}.

(** Lines 255-258: [SET tts_ok = true, tts_attempts = %s, tts_error = NULL]. *)
Definition set_success (attempts : Z) (r : Row) : Row :=
  {| id := id r; phrase := phrase r; tts_ok := true;
     tts_attempts := Some attempts; tts_error := None |}.

(** Lines 267-270: [SET tts_ok = false, tts_attempts = %s, tts_error = %s]. *)
Definition set_failure (attempts : Z) (err : option string) (r : Row) : Row :=
  {| id := id r; phrase := phrase r; tts_ok := false;
     tts_attempts := Some attempts; tts_error := err |}.

(** The connection of [get_conn] with [autocommit = False]: one
    transaction is open from the first statement on. [session] is what
    the statements of this connection see, [committed] is what is
    durable. *)
Record Conn := mkConn {
  committed : Table;
  session : Table
}.

Definition connect (t : Table) : Conn := {| committed := t; session := t |}.

Definition execute_update (set : Row → Row) (pid : Z) (c : Conn) : Conn :=
  {| committed := committed c;
     session := update_where_id set pid (session c) |}.

Definition commit (c : Conn) : Conn :=
  {| committed := session c; session := session c |}.

(** [conn.close()]: what was not committed is discarded. *)
Definition close (c : Conn) : Conn :=
  {| committed := committed c; session := committed c |}.

End Db.

(** ** The Azure synthesizer, as far as the script looks at its answer *)

Module Azure.

(** [speechsdk.ResultReason]: the two members the script names, and any
    other member by its name. *)
Inductive ResultReason :=
| SynthesizingAudioCompleted
| Canceled
| OtherReason (name : string).

(** [speechsdk.CancellationReason]. *)
Inductive CancellationReason :=
| Error
| EndOfStream
| CancelledByUser.

Record CancellationDetails := mkCancellation {
  cancel_reason : CancellationReason;
  error_details : string
}.

(** What [synthesizer.speak_text_async(text).get()] returns.
    [cancellation_details] is read only when [reason] is [Canceled]. *)
Record SpeechSynthesisResult := mkResult {
  reason : ResultReason;
  cancellation_details : CancellationDetails
}.

(** The answer of one call: the result object, and what the call did to
    the destination file ([None]: nothing; [Some n]: the file now has
    [n] bytes). *)
Record Reply := mkReply {
  result : SpeechSynthesisResult;
  written : option N
}.

(** The provider: the number of calls made before, the text, the
    destination file name. *)
Definition Provider := nat → string → string → Reply.

(** [str] of the two enumerations, as an f-string prints them. *)
Definition str_reason (r : ResultReason) : string :=
  match r with
  | SynthesizingAudioCompleted => "ResultReason.SynthesizingAudioCompleted"
  | Canceled => "ResultReason.Canceled"
  | OtherReason name => "ResultReason." +:+ name
  end.

Definition str_cancel (r : CancellationReason) : string :=
  match r with
  | Error => "CancellationReason.Error"
  | EndOfStream => "CancellationReason.EndOfStream"
  | CancelledByUser => "CancellationReason.CancelledByUser"
  end.

Definition is_completed (r : ResultReason) : bool :=
  match r with SynthesizingAudioCompleted => true | _ => false end.

Definition is_canceled (r : ResultReason) : bool :=
  match r with Canceled => true | _ => false end.

(** Python's truth value of a string. *)
Definition truthy (s : string) : bool :=
  match s with EmptyString => false | _ => true end.

End Azure.

(** ** The output directory *)

Module Fs.

(** [exists]: the directory of [--out-dir] is there; [files]: the size of
    each file in it, by name. *)
Record Dir := mkDir {
  exists_ : bool;
  files : gmap string N
}.

(** [out_dir.mkdir(parents=True, exist_ok=True)] (line 156). *)
Definition mkdir (d : Dir) : Dir :=
  {| exists_ := true; files := files d |}.

(** Python's [f"{n:06d}"]: the decimal digits, zero-padded on the left to
    six characters, the sign (counted in the six) first. *)
Definition zeros (n : nat) : string :=
  String.concat "" (replicate n "0").

Definition fmt_06d (n : Z) : string :=
  let digits := pretty (Z.abs_N n) in
  let sign := if n <? 0 then "-" else "" in
  sign +:+ zeros (6 - String.length sign - String.length digits)%nat +:+ digits.

(** The file name of line 226: [f"{phrase_id:06d}.mp3"]. *)
Definition out_file (phrase_id : Z) : string := fmt_06d phrase_id +:+ ".mp3".

(** [out_file.exists() and out_file.stat().st_size > 0] (line 229). *)
Definition exists_nonempty (d : Dir) (name : string) : bool :=
  match files d !! name with
  | Some size => (0 <? size)%N
  | None => false
  end.

(** The provider writing [name]. *)
Definition write (name : string) (w : option N) (d : Dir) : Dir :=
  match w with
  | Some size => {| exists_ := exists_ d; files := <[name := size]> (files d) |}
  | None => d
  end.

End Fs.

(** ** Texts *)

Module Text.

(** The bytes [10xxxxxx] of UTF-8 continue the character begun before
    them. *)
Definition is_continuation (c : ascii) : bool :=
  (128 <=? N_of_ascii c)%N && (N_of_ascii c <? 192)%N.

(** [len(s)]: the number of characters. *)
Fixpoint len (s : string) : nat :=
  match s with
  | EmptyString => 0
  | String c rest => (if is_continuation c then 0 else 1) + len rest
  end.

(** [s[:n]]: the first [n] characters, each with all its bytes. *)
Fixpoint slice_to (n : nat) (s : string) : string :=
  match s with
  | EmptyString => EmptyString
  | String c rest =>
      if is_continuation c then String c (slice_to n rest)
      else match n with
           | O => EmptyString
           | S n' => String c (slice_to n' rest)
           end
  end.

(** The text does not begin in the middle of a character. *)
Definition at_boundary (s : string) : Prop :=
  match s with
  | EmptyString => True
  | String c _ => is_continuation c = false
  end.

End Text.

(** ** The driver *)

Module Driver.
Import Db Azure Fs Text.

(** [time.sleep(seconds)] (line 282): [true] when the call returns,
    [false] when it raises, as it does ([OverflowError]) for more
    seconds than the clock of the platform counts. *)
Definition Clock := Q → bool.

(** The command line of [main] (lines 105-153). [out_dir], [language]
    and [voice] are carried along; the driver's decisions do not read
    them. *)
Record Config := mkConfig {
  out_dir : string;
  language : string;
  voice : string;
  batch_size : Z;
  max_phrases : Z;
  max_attempts : Z;
  sleep_on_error : Q;
  dry_run : bool
}.

(** The four counters of lines 191-194. *)
Record Counters := mkCounters {
  processed : Z;
  done_ : Z;
  skipped : Z;
  failed : Z
}.

Definition zero : Counters :=
  {| processed := 0; done_ := 0; skipped := 0; failed := 0 |}.

(** What a run works on: the connection, the output directory, the
    number of provider calls made so far, the counters. *)
Record State := mkState {
  conn : Conn;
  dir : Dir;
  ncalls : nat;
  counters : Counters
}.

(** The [UPDATE] statements of the loop body. *)
Inductive Update :=
| Reconciled
| Success (attempts : Z)
| Failure (attempts : Z) (err : option string).

Definition setter (u : Update) : Row → Row :=
  match u with
  | Reconciled => set_reconciled
  | Success attempts => set_success attempts
  | Failure attempts err => set_failure attempts err
  end.

(** What the run does, in order. [EvPbar] is [pbar.update(1)], which
    every branch of the loop body calls once, after its counters are
    incremented; it carries the id of the record just handled and the
    value of the counters at that point. *)
Inductive Event :=
| EvSelect (rows : list Row)
| EvUpdate (phrase_id : Z) (u : Update)
| EvCommit
| EvSpeak (phrase_id : Z) (text : string) (file : string)
| EvPreview (phrase_id : Z) (attempts : Z) (head : string)
| EvPbar (phrase_id : Z) (c : Counters)
| EvSleep (seconds : Q).

(** [row["tts_attempts"] or 0] (line 224). *)
Definition or_0 (a : option Z) : Z :=
  match a with
  | Some x => if x =? 0 then 0 else x
  | None => 0
  end.

(** The variables a summary line prints. *)
Inductive Var := TotalTarget | Processed | Done | Skipped | Failed.

Record Line := mkLine {
  label : string;
  var : Var;
  value : Z
}.

(** Lines 288-292. *)
Definition summary (total_target : Z) (c : Counters) : list Line :=
  [ {| label := "Target this run : "; var := TotalTarget; value := total_target |};
    {| label := "Done (OK)       : "; var := Done; value := done_ c |};
    {| label := "Skipped         : "; var := Skipped; value := skipped c |};
    {| label := "Failed          : "; var := Failed; value := failed c |} ].

(** Lines 166-176. *)
Definition total_pending (cfg : Config) (db : Table) : Z :=
  select_count (max_attempts cfg) db.

(** Lines 178-181. *)
Definition total_target (cfg : Config) (db : Table) : Z :=
  if (0 <? max_phrases cfg) && (max_phrases cfg <? total_pending cfg db)
  then max_phrases cfg
  else total_pending cfg db.

Definition bump_skipped (c : Counters) : Counters :=
  {| processed := processed c + 1; done_ := done_ c;
     skipped := skipped c + 1; failed := failed c |}.

Definition bump_done (c : Counters) : Counters :=
  {| processed := processed c + 1; done_ := done_ c + 1;
     skipped := skipped c; failed := failed c |}.

Definition bump_failed (c : Counters) : Counters :=
  {| processed := processed c + 1; done_ := done_ c;
     skipped := skipped c; failed := failed c + 1 |}.

(** [get_conn] (lines 49-50): a new connection to the database. *)
Definition get_conn (db : Table) : Conn := connect db.

(** How a loop ends: normally, by an exception, or (in the model only)
    by running out of fuel. *)
Inductive Status := Normal | Threw | NoFuel.

(** How [main] ends. *)
Inductive Exit :=
| NothingToDo
| Finished (report : list Line)
| Raised
| Diverged.

Record Run := mkRun {
  exit : Exit;
  final : State;
  log : list Event
}.

Section WithProvider.
Variable provider : Provider.
Variable sleep : Clock.
Variable cfg : Config.

(** [synthesize_to_file] (lines 70-97): the pair (success, error text
    or [None]). The synthesizer built from [speech_config] is the
    provider; [calls] tells which of its answers this is. What the call
    writes to [out_path] is accounted for where the function is called. *)
Definition synthesize_to_file (calls : nat) (text : string) (out_path : string)
  : bool * option string :=
  let result := result (provider calls text out_path) in
  if is_completed (reason result) then (true, None)
  else
    let err := "TTS failed, reason=" +:+ str_reason (reason result) in
    let err :=
      if is_canceled (reason result) then
        let cancellation := cancellation_details result in
        let err := err +:+ ", cancel_reason="
                       +:+ str_cancel (cancel_reason cancellation) in
        if truthy (error_details cancellation)
        then err +:+ ", details=" +:+ error_details cancellation
        else err
      else err in
    (false, Some err).

(** The body of [for row in rows] after the guard of line 219
    (lines 222-282), with the way it ends: [Threw] when [phrase[:60]]
    (line 242) or the call of line 248 meets a [NULL] phrase, and when
    the [sleep] of line 282 raises. *)
Definition process_row (row : Row) (st : State)
  : Status * State * list Event :=
  let phrase_id := id row in
  let phrase := phrase row in
  let attempts := or_0 (tts_attempts row) in
  let out_file := out_file phrase_id in
  if exists_nonempty (dir st) out_file && negb (dry_run cfg) then
    let c := bump_skipped (counters st) in
    (Normal,
     {| conn := execute_update set_reconciled phrase_id (conn st);
        dir := dir st; ncalls := ncalls st; counters := c |},
     [EvUpdate phrase_id Reconciled; EvPbar phrase_id c])
  else if dry_run cfg then
    match phrase with
    | None => (Threw, st, [])
    | Some text =>
        let c := bump_skipped (counters st) in
        (Normal,
         {| conn := conn st; dir := dir st; ncalls := ncalls st;
            counters := c |},
         [EvPreview phrase_id attempts (slice_to 60 text);
          EvPbar phrase_id c])
    end
  else
    match phrase with
    | None => (Threw, st, [])
    | Some text =>
        let '(ok, err) := synthesize_to_file (ncalls st) text out_file in
        let attempts := attempts + 1 in
        let u := if ok then Success attempts else Failure attempts err in
        let c := if ok then bump_done (counters st)
                 else bump_failed (counters st) in
        let naps := negb ok && negb (Qle_bool (sleep_on_error cfg) 0) in
        (if naps && negb (sleep (sleep_on_error cfg)) then Threw else Normal,
         {| conn := commit (execute_update (setter u) phrase_id (conn st));
            dir := write out_file
                     (written (provider (ncalls st) text out_file)) (dir st);
            ncalls := S (ncalls st);
            counters := c |},
         [EvSpeak phrase_id text out_file; EvUpdate phrase_id u; EvCommit;
          EvPbar phrase_id c]
         ++ (if naps then [EvSleep (sleep_on_error cfg)] else []))
    end.

(** [for row in rows] (lines 218-282), with its guard; an exception
    ends it. *)
Fixpoint for_rows (target : Z) (rows : list Row) (st : State)
  : Status * State * list Event :=
  match rows with
  | [] => (Normal, st, [])
  | row :: rest =>
      if target <=? processed (counters st) then (Normal, st, [])
      else
        match process_row row st with
        | (Normal, st1, ev1) =>
            let '(status, st2, ev2) := for_rows target rest st1 in
            (status, st2, ev1 ++ ev2)
        | stopped => stopped
        end
  end.

(** [while processed < total_target] (lines 199-282). *)
Fixpoint while_loop (target : Z) (fuel : nat) (st : State)
  : Status * State * list Event :=
  match fuel with
  | O => (NoFuel, st, [])
  | S fuel =>
      if processed (counters st) <? target then
        match select_page (max_attempts cfg) (batch_size cfg)
                          (session (conn st)) with
        | None => (Threw, st, [])
        | Some [] => (Normal, st, [EvSelect []])
        | Some rows =>
            match for_rows target rows st with
            | (Normal, st1, ev1) =>
                let '(status, st2, ev2) := while_loop target fuel st1 in
                (status, st2, EvSelect rows :: ev1 ++ ev2)
            | (status, st1, ev1) => (status, st1, EvSelect rows :: ev1)
            end
        end
      else (Normal, st, [])
  end.

Definition closed (st : State) : State :=
  {| conn := close (conn st); dir := dir st; ncalls := ncalls st;
     counters := counters st |}.

(** [main] (lines 155-294), from the table and the output directory
    it finds. *)
Definition main (db : Table) (d : Dir) : Run :=
  let st0 := {| conn := get_conn db; dir := mkdir d; ncalls := O;
                counters := zero |} in
  let target := total_target cfg db in
  if target =? 0 then
    {| exit := NothingToDo; final := closed st0; log := [] |}
  else
    let '(status, st, evs) :=
      while_loop target (S (Z.to_nat target)) st0 in
    {| exit := match status with
               | Normal => Finished (summary target (counters st))
               | Threw => Raised
               | NoFuel => Diverged
               end;
       final := closed st;
       log := evs |}.

End WithProvider.

End Driver.

(** ** The eligible set, in the words of the data model *)

Module Spec.
Import Db.

(** "A record is eligible for processing iff [tts_ok = false AND
    tts_attempts < max_attempts]." *)
Definition eligible (max_attempts : Z) (r : Row) : Prop :=
  tts_ok r = false ∧ ∃ a, tts_attempts r = Some a ∧ a < max_attempts.

#[global] Instance eligible_dec m r : Decision (eligible m r).
Proof.
  unfold eligible.
  destruct (tts_ok r); [right; intros [? _]; discriminate|].
  destruct (tts_attempts r) as [a|].
  - destruct (decide (a < m)).
    + left. eauto.
    + right. intros [_ (a' & [= <-] & ?)]. lia.
  - right. intros [_ (a' & ? & _)]. discriminate.
Defined.

(** A text occurs in another. *)
Definition occurs_in (sub s : string) : Prop :=
  ∃ pre post, s = pre +:+ sub +:+ post.

End Spec.

(** ** Predicates on events, logs and states *)

Module Trace.
Import Db Azure Fs Driver.

(** The event fetches, previews, synthesizes, updates or ticks the
    record [pid]. *)
Definition handles (pid : Z) (e : Event) : Prop :=
  match e with
  | EvSelect rows => pid ∈ ids rows
  | EvUpdate p _ | EvSpeak p _ _ | EvPreview p _ _ | EvPbar p _ => p = pid
  | EvCommit | EvSleep _ => False
  end.

(** The event fetches the record [pid] again or works on it again: as
    [handles], the progress-bar tick apart. *)
Definition revisits (pid : Z) (e : Event) : Prop :=
  match e with
  | EvPbar _ _ => False
  | _ => handles pid e
  end.

(** The statement takes the record out of the eligible set: it sets
    [tts_ok], or stores an attempt count at the cap or above. *)
Definition advancing (cfg : Config) (u : Update) : Prop :=
  match u with
  | Reconciled | Success _ => True
  | Failure attempts _ => max_attempts cfg ≤ attempts
  end.

Definition is_speak (e : Event) : Prop :=
  match e with EvSpeak _ _ _ => True | _ => False end.

(** No row with the id [pid] is eligible, as this connection sees the
    table. *)
Definition settled (cfg : Config) (pid : Z) (st : State) : Prop :=
  ∀ r, r ∈ session (conn st) → id r = pid →
       where_pending (max_attempts cfg) r = false.

(** [st1] has the rows of id [pid] that [st] has, and has committed
    those that [st] had committed. *)
Definition same_at (pid : Z) (st st1 : State) : Prop :=
  (∀ x, id x = pid → x ∈ session (conn st1) ↔ x ∈ session (conn st)) ∧
  (∀ x, id x = pid → x ∈ session (conn st) → x ∈ committed (conn st) →
        x ∈ committed (conn st1)).

(** The counters add up and stay within the run target. *)
Definition balanced (target : Z) (c : Counters) : Prop :=
  processed c = done_ c + skipped c + failed c ∧ processed c ≤ target.

(** A tick of the progress bar shows balanced counters. *)
Definition tick_balanced (target : Z) (e : Event) : Prop :=
  match e with
  | EvPbar _ c => balanced target c
  | _ => True
  end.

(** Nothing was counted but skips. *)
Definition only_skips (c : Counters) : Prop :=
  skipped c = processed c ∧ done_ c = 0 ∧ failed c = 0.

(** What a dry run may do: query a page, print a preview, tick the bar
    with counters that count skips only. *)
Definition dry_event (e : Event) : Prop :=
  match e with
  | EvSelect _ | EvPreview _ _ _ => True
  | EvPbar _ c => only_skips c
  | EvUpdate _ _ | EvCommit | EvSpeak _ _ _ | EvSleep _ => False
  end.

(** [st1] differs from [st] by its counters only, and these count
    skips only. *)
Definition dry_state (st st1 : State) : Prop :=
  conn st1 = conn st ∧ dir st1 = dir st ∧ ncalls st1 = ncalls st ∧
  only_skips (counters st1).

(** In [evs], no statement that takes a record out of the eligible set
    is followed by an event that fetches or handles that record. *)
Fixpoint once_advanced (cfg : Config) (evs : list Event) : Prop :=
  match evs with
  | [] => True
  | e :: rest =>
      (∀ pid u, e = EvUpdate pid u → advancing cfg u →
                Forall (λ e', ¬ revisits pid e') rest)
      ∧ once_advanced cfg rest
  end.

(** What the provider answers when the loop body calls it for [row],
    whose phrase is [text], in the state [st]. *)
Definition answer (provider : Provider) (row : Row) (text : string)
    (st : State) : SpeechSynthesisResult :=
  result (provider (ncalls st) text (out_file (id row))).

(** One run after the other, each with its own clock, provider,
    command line and output directory, each on the table the one before
    has left. *)
Fixpoint reruns (jobs : list (Clock * Provider * Config * Dir)) (db : Table)
  : Table :=
  match jobs with
  | [] => db
  | (sleep, provider, cfg, d) :: rest =>
      reruns rest (committed (conn (final (main provider sleep cfg db d))))
  end.

(** C1 as it is written: once a record has been handled (its tick),
    the rest of the run does not fetch it, preview it, synthesize it or
    update it again. *)
Definition never_again (evs : list Event) : Prop :=
  ∀ l1 pid c l2,
    evs = l1 ++ EvPbar pid c :: l2 → Forall (λ e, ¬ revisits pid e) l2.

(** C4 as it is written, its last part: a run in which a synthesis
    has failed is not aborted. *)
Definition survives_failure (run : Run) : Prop :=
  (∃ pid attempts err, EvUpdate pid (Failure attempts err) ∈ log run) →
  exit run ≠ Raised.

(** C5 as it is written, its last part: every record of every page
    fetched is counted (has its tick). *)
Definition counts_every_fetched (run : Run) : Prop :=
  ∀ rows r, EvSelect rows ∈ log run → r ∈ rows →
            ∃ c, EvPbar (id r) c ∈ log run.

(** C7 as it is written: after the run the table is as before and so
    is the output directory. *)
Definition no_side_effects (db : Table) (d : Dir) (run : Run) : Prop :=
  committed (conn (final run)) = db ∧ dir (final run) = d.

(** The summary has a line for the variable [v]. *)
Definition reports (v : Var) (run : Run) : Prop :=
  ∃ report line, exit run = Finished report ∧ line ∈ report ∧ var line = v.

(** C9 as it is written: the four counters and the target are
    reported. *)
Definition reports_all (run : Run) : Prop :=
  reports Processed run ∧ reports Done run ∧ reports Skipped run ∧
  reports Failed run ∧ reports TotalTarget run.

End Trace.

(** ** Sample tables, directories and providers *)

Module Sample.
Import Db Azure Fs Driver.

(** A row waiting for its audio, never tried. *)
Definition pending (i : Z) : Row :=
  {| id := i; phrase := Some "hola"; tts_ok := false;
     tts_attempts := Some 0; tts_error := None |}.

(** A row done at the first attempt. *)
Definition voiced (i : Z) : Row :=
  {| id := i; phrase := Some "hola"; tts_ok := true;
     tts_attempts := Some 1; tts_error := None |}.

(** A row waiting for its audio, with [NULL] for a phrase. *)
Definition unnamed (i : Z) : Row :=
  {| id := i; phrase := None; tts_ok := false;
     tts_attempts := Some 0; tts_error := None |}.

(** The defaults of the command line. *)
Definition defaults : Config :=
  {| out_dir := "out"; language := "es-ES"; voice := "es-ES-AlvaroNeural";
     batch_size := 100; max_phrases := 0; max_attempts := 5;
     sleep_on_error := 5; dry_run := false |}.

Definition one_by_one : Config :=
  {| out_dir := "out"; language := "es-ES"; voice := "es-ES-AlvaroNeural";
     batch_size := 1; max_phrases := 0; max_attempts := 5;
     sleep_on_error := 5; dry_run := false |}.

Definition preview : Config :=
  {| out_dir := "out"; language := "es-ES"; voice := "es-ES-AlvaroNeural";
     batch_size := 100; max_phrases := 0; max_attempts := 5;
     sleep_on_error := 5; dry_run := true |}.

(** Dry-run with [--max-phrases 1]. *)
Definition preview_one : Config :=
  {| out_dir := "out"; language := "es-ES"; voice := "es-ES-AlvaroNeural";
     batch_size := 100; max_phrases := 1; max_attempts := 5;
     sleep_on_error := 5; dry_run := true |}.

(** [--sleep-on-error 1e10]. *)
Definition long_nap : Config :=
  {| out_dir := "out"; language := "es-ES"; voice := "es-ES-AlvaroNeural";
     batch_size := 100; max_phrases := 0; max_attempts := 5;
     sleep_on_error := 10000000000; dry_run := false |}.

(** A clock that counts nanoseconds in 63 bits: a sleep of [2^63]
    nanoseconds or more raises. *)
Definition clock : Clock := λ seconds,
  negb (Qle_bool (9223372036854775808 # 1000000000) seconds).

(** A provider that cancels every request. *)
Definition refuses : Provider := λ _ _ _,
  {| result := {| reason := Canceled;
                  cancellation_details :=
                    {| cancel_reason := Error;
                       error_details := "quota exceeded" |} |};
     written := None |}.

(** A provider that answers every request with 2048 bytes of audio. *)
Definition speaks : Provider := λ _ _ _,
  {| result := {| reason := SynthesizingAudioCompleted;
                  cancellation_details :=
                    {| cancel_reason := Error; error_details := "" |} |};
     written := Some 2048%N |}.

Definition no_dir : Dir := {| exists_ := false; files := ∅ |}.

Definition empty_dir : Dir := {| exists_ := true; files := ∅ |}.

(** The directory with the audio of phrase 1 already there. *)
Definition dir_with_1 : Dir :=
  {| exists_ := true; files := {[ "000001.mp3" := 2048%N ]} |}.

(** The directory with the audio of phrases 1 and 2 already there. *)
Definition dir_with_1_2 : Dir :=
  {| exists_ := true;
     files := {[ "000001.mp3" := 2048%N; "000002.mp3" := 1024%N ]} |}.

Definition start (db : Table) (d : Dir) : State :=
  {| conn := connect db; dir := d; ncalls := 0; counters := zero |}.

End Sample.

(** ** Counting the events of a log *)

Module Tally.
Import Db Fs Text Driver.

(** The number of events of [evs] that [f] picks. *)
Fixpoint count (f : Event → bool) (evs : list Event) : Z :=
  match evs with
  | [] => 0
  | e :: rest => (if f e then 1 else 0) + count f rest
  end.

(** A provider call. *)
Definition is_call (e : Event) : bool :=
  match e with EvSpeak _ _ _ => true | _ => false end.

(** A provider call for the record [pid]. *)
Definition is_call_for (pid : Z) (e : Event) : bool :=
  match e with EvSpeak p _ _ => bool_decide (p = pid) | _ => false end.

Definition is_commit (e : Event) : bool :=
  match e with EvCommit => true | _ => false end.

Definition is_sleep (e : Event) : bool :=
  match e with EvSleep _ => true | _ => false end.

Definition is_tick (e : Event) : bool :=
  match e with EvPbar _ _ => true | _ => false end.

(** The [UPDATE] after a successful synthesis. *)
Definition is_success (e : Event) : bool :=
  match e with EvUpdate _ (Success _) => true | _ => false end.

(** The [UPDATE] after a failed synthesis. *)
Definition is_failure (e : Event) : bool :=
  match e with EvUpdate _ (Failure _ _) => true | _ => false end.

(** A reconciliation or a dry-run preview. *)
Definition is_skip (e : Event) : bool :=
  match e with
  | EvUpdate _ Reconciled | EvPreview _ _ _ => true
  | _ => false
  end.

(** The attempt count an [UPDATE] stores, when it stores one, is at
    most [--max-attempts]. *)
Definition within_cap (cfg : Config) (e : Event) : Prop :=
  match e with
  | EvUpdate _ (Success attempts) | EvUpdate _ (Failure attempts _) =>
      attempts ≤ max_attempts cfg
  | _ => True
  end.

(** The attempt count of a row, when it is not [NULL], is at most [m]. *)
Definition attempts_at_most (m : Z) (r : Row) : Prop :=
  match tts_attempts r with
  | Some a => a ≤ m
  | None => True
  end.

(** The counters agree with the log [h] written so far. *)
Definition counted (st : State) (h : list Event) : Prop :=
  processed (counters st) = count is_tick h ∧
  done_ (counters st) = count is_success h ∧
  failed (counters st) = count is_failure h ∧
  skipped (counters st) = count is_skip h ∧
  Z.of_nat (ncalls st) = count is_call h ∧
  count is_commit h = count is_call h ∧
  count is_call h = done_ (counters st) + failed (counters st).

(** The number of rows the [WHERE] clause accepts, as the connection
    sees the table. *)
Definition pending_now (cfg : Config) (st : State) : Z :=
  select_count (max_attempts cfg) (session (conn st)).

(** The files of [d1] that are not as in [d0] were written by a provider
    call that the log [h] holds. *)
Definition written_by_calls (d0 d1 : Dir) (h : list Event) : Prop :=
  ∀ name, files d1 !! name ≠ files d0 !! name →
          ∃ pid text, EvSpeak pid text name ∈ h ∧ name = out_file pid.

(** Every file of [d0] is a file of [d1]. *)
Definition keeps_files (d0 d1 : Dir) : Prop :=
  ∀ name, is_Some (files d0 !! name) → is_Some (files d1 !! name).

(** The attempt count of the record of [x], in the transaction and in
    what is committed, is [a] plus the number of provider calls the log
    [h] holds for it. *)
Definition attempts_track (x : Row) (a : Z) (st : State) (h : list Event)
  : Prop :=
  (∃ r, r ∈ session (conn st) ∧ id r = id x ∧
        tts_attempts r = Some (a + count (is_call_for (id x)) h)) ∧
  (∃ r, r ∈ committed (conn st) ∧ id r = id x ∧
        tts_attempts r = Some (a + count (is_call_for (id x)) h)).

(** [head] is what [text[:n]] is: the text up to a boundary between
    two characters, with [n] characters, or the whole text when it has
    fewer. *)
Definition first_chars (n : nat) (text head : string) : Prop :=
  ∃ tail, text = head +:+ tail ∧ at_boundary tail ∧
          len head = Nat.min n (len text).

(** A provider call or a preview is for a record of [db]: its text is
    the phrase of the record (for a preview, its first 60 characters),
    and the file of a call is the one of the id. *)
Definition asks_for (db : Table) (e : Event) : Prop :=
  match e with
  | EvSpeak pid text file =>
      file = out_file pid ∧ ∃ r, r ∈ db ∧ id r = pid ∧ phrase r = Some text
  | EvPreview pid _ head =>
      ∃ r text, r ∈ db ∧ id r = pid ∧ phrase r = Some text ∧
                first_chars 60 text head
  | _ => True
  end.

(** The [sleep] after a failure, when the run makes one, returns. *)
Definition sleep_returns (sleep : Clock) (cfg : Config) : Prop :=
  Qle_bool (sleep_on_error cfg) 0 = false → sleep (sleep_on_error cfg) = true.

(** The [LIMIT] of the page query is one PostgreSQL accepts. *)
Definition limit_accepted (cfg : Config) : Prop :=
  0 ≤ batch_size cfg < 2 ^ 63.

(** No row of the table has [NULL] for a phrase. *)
Definition phrases_not_null (t : Table) : Prop :=
  ∀ r, r ∈ t → phrase r ≠ None.

End Tally.

(** ** The backup script, [dump_phrases_backup.py] *)

Module Backup.

(** A row of [SELECT id, phrase FROM phrases]; the script allows for a
    [NULL] phrase ([row["phrase"] or ""]). *)
Record Entry := mkEntry {
  entry_id : Z;
  entry_phrase : option string
}.

(** What [main] of [generate_tts_azure_db.py] calls [phrase], as the
    backup script reads it. *)
Definition of_row (r : Db.Row) : Entry :=
  {| entry_id := Db.id r; entry_phrase := Db.phrase r |}.

(** Tab, line feed, carriage return, space. *)
Definition TAB : ascii := "009"%char.
Definition LF : ascii := "010"%char.
Definition CR : ascii := "013"%char.
Definition SP : ascii := " "%char.

(** [s.replace(old, new)] for one-character [old] and [new]. *)
Fixpoint replace (old new : ascii) (s : string) : string :=
  match s with
  | EmptyString => EmptyString
  | String c rest =>
      String (if bool_decide (c = old) then new else c) (replace old new rest)
  end.

(** [row["phrase"] or ""] (line 95). *)
Definition or_empty (phrase : option string) : string :=
  match phrase with
  | Some s => s
  | None => ""
  end.

(** Line 98:
    [phr.replace("\t", " ").replace("\r", " ").replace("\n", " ")]. *)
Definition clean (phr : string) : string :=
  replace LF SP (replace CR SP (replace TAB SP phr)).

(** The header of line 86, ["id\tphrase\n"]. *)
Definition header : string :=
  "id" +:+ String TAB ("phrase" +:+ String LF "").

(** The text of line 100, [f"{pid}\t{phr_clean}\n"]. *)
Definition line (pid : Z) (phr_clean : string) : string :=
  pretty pid +:+ String TAB (phr_clean +:+ String LF "").

(** The body of [for row in cur] (lines 93-102), on the text written so
    far and [rows_written]. *)
Definition write_row (acc : string * Z) (row : Entry) : string * Z :=
  let pid := entry_id row in
  let phr := or_empty (entry_phrase row) in
  let phr_clean := clean phr in
  (acc.1 +:+ line pid phr_clean, acc.2 + 1).

(** [ORDER BY id] (line 88). *)
Definition by_entry_id : relation Entry := λ r1 r2, entry_id r1 ≤ entry_id r2.

#[global] Instance by_entry_id_dec : RelDecision by_entry_id.
Proof. intros r1 r2. unfold by_entry_id. apply _. Defined.

(** [SELECT id, phrase FROM phrases ORDER BY id] (line 88). *)
Definition select_all (db : list Entry) : list Entry :=
  merge_sort by_entry_id db.

(** The command line (lines 44-57): [--audio-dir], and [--output] when
    given. *)
Record Args := mkArgs {
  audio_dir : string;
  output : option string
}.

(** Where the backup goes: a name inside the audio directory, or an
    absolute path. *)
Inductive Target :=
| InAudioDir (dir : string) (name : string)
| Absolute (path : string).

(** [Path.is_absolute()] of a POSIX path. *)
Definition is_absolute (p : string) : bool :=
  match p with
  | String c _ => bool_decide (c = "/"%char)
  | EmptyString => false
  end.

(** Lines 64-69. An empty [--output] is false for [if args.output]. *)
Definition out_path (args : Args) : Target :=
  match output args with
  | Some (String c rest as o) =>
      if is_absolute o then Absolute o else InAudioDir (audio_dir args) o
  | _ => InAudioDir (audio_dir args) "phrases_backup.tsv"
  end.

(** How the script ends: by [sys.exit(1)] when the audio directory is
    not there, by the exception of [out_path.open] (nothing is written
    then), or having written the file. *)
Inductive Outcome :=
| AudioDirNotFound
| OpenFailed (path : Target) (total : Z)
| Written (path : Target) (content : string) (rows_written : Z) (total : Z).

(** [main] (lines 43-107), from whether the audio directory exists,
    whether [out_path.open("w")] succeeds (it raises, for one, when the
    directory of an [--output] path is missing) and from the table.
    [total] is the [COUNT] of line 78. *)
Definition main (args : Args) (audio_dir_exists opens : bool)
    (db : list Entry) : Outcome :=
  if negb audio_dir_exists then AudioDirNotFound
  else
    let total := Z.of_nat (length db) in
    if negb opens then OpenFailed (out_path args) total
    else
      let '(content, rows_written) :=
        fold_left write_row (select_all db) (header, 0) in
      Written (out_path args) content rows_written total.

(** The number of times [c] occurs in [s]. *)
Fixpoint occurrences (c : ascii) (s : string) : nat :=
  match s with
  | EmptyString => 0
  | String c' rest =>
      ((if bool_decide (c' = c) then 1 else 0) + occurrences c rest)%nat
  end.

(** Reading a text back: the pieces between the occurrences of [sep]
    (one more than there are occurrences). *)
Fixpoint split_on (sep : ascii) (s : string) : list string :=
  match s with
  | EmptyString => [EmptyString]
  | String c rest =>
      if bool_decide (c = sep) then EmptyString :: split_on sep rest
      else match split_on sep rest with
           | piece :: pieces => String c piece :: pieces
           | [] => [String c EmptyString]
           end
  end.

(** A line cut at its first [sep]. *)
Fixpoint cut (sep : ascii) (s : string) : option (string * string) :=
  match s with
  | EmptyString => None
  | String c rest =>
      if bool_decide (c = sep) then Some (EmptyString, rest)
      else match cut sep rest with
           | Some (field, more) => Some (String c field, more)
           | None => None
           end
  end.

(** The data lines of a text that ends with a line feed, each cut at its
    first tab. *)
Fixpoint read_lines (pieces : list string) : option (list (string * string)) :=
  match pieces with
  | [] => None
  | [last] => if bool_decide (last = EmptyString) then Some [] else None
  | piece :: rest =>
      match cut TAB piece, read_lines rest with
      | Some fields, Some more => Some (fields :: more)
      | _, _ => None
      end
  end.

(** Reading a backup file: the header line, then the data lines. *)
Definition read_back (content : string) : option (list (string * string)) :=
  match split_on LF content with
  | first :: rest =>
      if bool_decide (first = "id" +:+ String TAB "phrase")
      then read_lines rest
      else None
  | [] => None
  end.

(** What a backup holds for a row: the id in decimal and the cleaned
    text. *)
Definition fields_of (row : Entry) : string * string :=
  (pretty (entry_id row), clean (or_empty (entry_phrase row))).

End Backup.

Example fmt_06d_42 : Fs.out_file 42 = "000042.mp3".
Proof. vm_compute. reflexivity. Qed.

Example fmt_06d_big : Fs.out_file 1234567 = "1234567.mp3".
Proof. vm_compute. reflexivity. Qed.

Example fmt_06d_neg : Fs.out_file (-5) = "-00005.mp3".
Proof. vm_compute. reflexivity. Qed.

(** ** Facts about the statements *)

Section DbFacts.
Import Db Spec.

#[global] Instance by_id_total : Total by_id.
Proof. intros r1 r2. unfold by_id. lia. Qed.

#[global] Instance by_id_trans : Transitive by_id.
Proof. intros r1 r2 r3. unfold by_id. lia. Qed.

Lemma where_pending_eligible m r :
  where_pending m r = true ↔ eligible m r.
Proof.
  unfold where_pending, eligible, sql_lt, sql_eq_bool.
  destruct (tts_ok r), (tts_attempts r) as [a|]; simpl.
  - destruct (a <? m); split; try discriminate; intros [? _]; discriminate.
  - split; [discriminate | intros [? _]; discriminate].
  - destruct (Z.ltb_spec a m); split; try discriminate; eauto.
    intros [_ (a' & [= <-] & ?)]. lia.
  - split; [discriminate | intros [_ (a' & ? & _)]; discriminate].
Qed.

Lemma where_pending_false_ok m r : tts_ok r = true → where_pending m r = false.
Proof. unfold where_pending. by intros ->. Qed.

Lemma where_pending_false_cap m r a :
  tts_attempts r = Some a → m ≤ a → where_pending m r = false.
Proof.
  unfold where_pending, sql_lt. intros -> ?.
  destruct (Z.ltb_spec a m); [lia|]. by destruct (tts_ok r).
Qed.

(** The page query succeeds for a [LIMIT] from 0 to [2^63 - 1], and
    for these only. *)
Lemma select_page_Some m b t rows :
  select_page m b t = Some rows →
  0 ≤ b < 2 ^ 63 ∧
  rows = take (Z.to_nat b)
           (merge_sort by_id (filter (λ r, where_pending m r) t)).
Proof.
  unfold select_page.
  destruct (Z.ltb_spec b 0); [discriminate|].
  destruct (Z.leb_spec (2 ^ 63) b); [discriminate|].
  intros [= <-]. split; [lia|done].
Qed.

Lemma select_page_accepted m b t :
  0 ≤ b < 2 ^ 63 →
  select_page m b t
  = Some (take (Z.to_nat b)
            (merge_sort by_id (filter (λ r, where_pending m r) t))).
Proof.
  intros Hb. unfold select_page.
  destruct (Z.ltb_spec b 0); [lia|].
  by destruct (Z.leb_spec (2 ^ 63) b); [lia|].
Qed.

Lemma select_page_refused m b t :
  ¬ (0 ≤ b < 2 ^ 63) → select_page m b t = None.
Proof.
  intros Hb. unfold select_page.
  destruct (Z.ltb_spec b 0); [done|].
  by destruct (Z.leb_spec (2 ^ 63) b); [|lia].
Qed.

Lemma elem_of_select_page m b t rows r :
  select_page m b t = Some rows → r ∈ rows →
  r ∈ t ∧ where_pending m r = true.
Proof.
  intros Hsel Hr. apply select_page_Some in Hsel as [_ ->].
  eapply elem_of_sublist in Hr; [|apply sublist_take].
  rewrite merge_sort_Permutation in Hr.
  apply list_elem_of_filter in Hr as [Hp Hr].
  split; [done|]. by apply Is_true_true.
Qed.

Lemma select_page_NoDup m b t rows :
  select_page m b t = Some rows → NoDup (ids t) → NoDup (ids rows).
Proof.
  intros Hsel Hnd. apply select_page_Some in Hsel as [_ ->]. unfold ids.
  eapply sublist_NoDup; [|apply fmap_sublist, sublist_take].
  rewrite merge_sort_Permutation.
  eapply sublist_NoDup; [exact Hnd|]. apply fmap_sublist, sublist_filter.
Qed.

Lemma select_page_sorted m b t rows :
  select_page m b t = Some rows → Sorted by_id rows.
Proof.
  intros Hsel. apply select_page_Some in Hsel as [_ ->].
  assert (Hs : StronglySorted by_id
            (merge_sort by_id (filter (λ r, where_pending m r) t)))
    by apply (StronglySorted_merge_sort by_id).
  revert Hs. generalize (merge_sort by_id (filter (λ r, where_pending m r) t)).
  generalize (Z.to_nat b). intros n l Hs.
  apply StronglySorted_Sorted.
  revert n. induction Hs as [|x l Hs IH Hx]; intros [|n]; simpl; try constructor.
  - apply IH.
  - apply Forall_forall. intros y Hy.
    rewrite Forall_forall in Hx. apply Hx.
    eapply elem_of_sublist; [exact Hy | apply sublist_take].
Qed.

Lemma ids_update_where_id set pid t :
  (∀ r, id (set r) = id r) → ids (update_where_id set pid t) = ids t.
Proof.
  intros Hset. unfold ids, update_where_id.
  rewrite <- list_fmap_compose. apply list_fmap_ext.
  intros i r _. simpl. case_bool_decide; [apply Hset | done].
Qed.

Lemma elem_of_update_where_id set pid t r :
  r ∈ update_where_id set pid t ↔
  (∃ r0, r0 ∈ t ∧ id r0 = pid ∧ r = set r0) ∨ (r ∈ t ∧ id r ≠ pid).
Proof.
  unfold update_where_id. rewrite list_elem_of_fmap. split.
  - intros (r0 & -> & Hr0). case_bool_decide; eauto.
  - intros [(r0 & Hr0 & Hid & ->)|[Hr Hid]].
    + exists r0. by rewrite bool_decide_eq_true_2.
    + exists r. by rewrite bool_decide_eq_false_2.
Qed.

End DbFacts.

(** ** Reasoning about the two loops *)

Section Loops.
Import Db Azure Fs Text Driver.

Variable provider : Provider.
Variable sleep : Clock.
Variable cfg : Config.

(** The ways through the loop body. *)
Lemma process_row_reconcile row st :
  exists_nonempty (dir st) (out_file (id row)) = true →
  dry_run cfg = false →
  process_row provider sleep cfg row st =
    (Normal,
     {| conn := execute_update set_reconciled (id row) (conn st);
        dir := dir st; ncalls := ncalls st;
        counters := bump_skipped (counters st) |},
     [EvUpdate (id row) Reconciled;
      EvPbar (id row) (bump_skipped (counters st))]).
Proof. intros Hart Hdry. unfold process_row. by rewrite Hart, Hdry. Qed.

Lemma process_row_dry_run row text st :
  dry_run cfg = true →
  phrase row = Some text →
  process_row provider sleep cfg row st =
    (Normal,
     {| conn := conn st; dir := dir st; ncalls := ncalls st;
        counters := bump_skipped (counters st) |},
     [EvPreview (id row) (or_0 (tts_attempts row)) (slice_to 60 text);
      EvPbar (id row) (bump_skipped (counters st))]).
Proof.
  intros Hdry Hphr. unfold process_row. rewrite Hdry, Hphr.
  by rewrite andb_false_r.
Qed.

Lemma process_row_dry_run_null row st :
  dry_run cfg = true →
  phrase row = None →
  process_row provider sleep cfg row st = (Threw, st, []).
Proof.
  intros Hdry Hphr. unfold process_row. rewrite Hdry, Hphr.
  by rewrite andb_false_r.
Qed.

Lemma process_row_synth row text st ok err :
  exists_nonempty (dir st) (out_file (id row)) = false →
  dry_run cfg = false →
  phrase row = Some text →
  synthesize_to_file provider (ncalls st) text (out_file (id row))
    = (ok, err) →
  let attempts := or_0 (tts_attempts row) + 1 in
  let u := if ok then Success attempts else Failure attempts err in
  let c := if ok then bump_done (counters st)
           else bump_failed (counters st) in
  let naps := negb ok && negb (Qle_bool (sleep_on_error cfg) 0) in
  process_row provider sleep cfg row st =
    (if naps && negb (sleep (sleep_on_error cfg)) then Threw else Normal,
     {| conn := commit (execute_update (setter u) (id row) (conn st));
        dir := write (out_file (id row))
                 (written (provider (ncalls st) text (out_file (id row))))
                 (dir st);
        ncalls := S (ncalls st);
        counters := c |},
     [EvSpeak (id row) text (out_file (id row));
      EvUpdate (id row) u; EvCommit; EvPbar (id row) c]
     ++ (if naps then [EvSleep (sleep_on_error cfg)] else [])).
Proof.
  intros Hart Hdry Hphr Hsyn. unfold process_row.
  by rewrite Hart, Hdry, Hphr, Hsyn.
Qed.

Lemma process_row_synth_null row st :
  exists_nonempty (dir st) (out_file (id row)) = false →
  dry_run cfg = false →
  phrase row = None →
  process_row provider sleep cfg row st = (Threw, st, []).
Proof.
  intros Hart Hdry Hphr. unfold process_row. by rewrite Hart, Hdry, Hphr.
Qed.

(** A property of states [P] and a property of events [Q] that the loop
    body keeps, for the rows that satisfy [R] and under the guard of line
    219, are kept by the [for] loop, however it ends. *)
Lemma for_rows_keeps (target : Z) (P : State → Prop) (Q : Event → Prop)
    (R : Row → Prop) :
  (∀ row st s st' evs,
      R row → P st → processed (counters st) < target →
      process_row provider sleep cfg row st = (s, st', evs) →
      P st' ∧ Forall Q evs) →
  ∀ rows st s st' evs,
    Forall R rows → P st →
    for_rows provider sleep cfg target rows st = (s, st', evs) →
    P st' ∧ Forall Q evs.
Proof.
  intros Hstep rows.
  induction rows as [|row rest IH]; intros st s st' evs HR HP Hrun;
    simpl in Hrun.
  - injection Hrun as <- <- <-. by split.
  - destruct (Z.leb_spec target (processed (counters st))).
    + injection Hrun as <- <- <-. by split.
    + destruct (process_row provider sleep cfg row st)
        as [[s1 st1] ev1] eqn:Hrow.
      apply Forall_cons in HR as [Hr HR].
      destruct (Hstep _ _ _ _ _ Hr HP ltac:(done) Hrow) as [HP1 HQ1].
      destruct s1; try (by injection Hrun as <- <- <-).
      destruct (for_rows provider sleep cfg target rest st1)
        as [[s2 st2] ev2] eqn:Hrest.
      injection Hrun as <- <- <-.
      destruct (IH _ _ _ _ HR HP1 Hrest) as [HP2 HQ2].
      split; [done|]. by apply Forall_app.
Qed.

(** The same for the [while] loop, when every page the query returns
    from a state in [P] has its rows in [R]. *)
Lemma while_loop_keeps (target : Z) (P : State → Prop) (Q : Event → Prop)
    (R : Row → Prop) :
  (∀ row st s st' evs,
      R row → P st → processed (counters st) < target →
      process_row provider sleep cfg row st = (s, st', evs) →
      P st' ∧ Forall Q evs) →
  (∀ st rows,
      P st →
      select_page (max_attempts cfg) (batch_size cfg) (session (conn st))
        = Some rows →
      Q (EvSelect rows) ∧ Forall R rows) →
  ∀ fuel st status st' evs,
    P st →
    while_loop provider sleep cfg target fuel st = (status, st', evs) →
    P st' ∧ Forall Q evs.
Proof.
  intros Hstep Hpage fuel.
  induction fuel as [|fuel IH]; intros st status st' evs HP Hrun; simpl in Hrun.
  - injection Hrun as <- <- <-. by split.
  - destruct (processed (counters st) <? target);
      [|injection Hrun as <- <- <-; by split].
    destruct (select_page _ _ _) as [rows|] eqn:Hsel;
      [|injection Hrun as <- <- <-; by split].
    destruct (Hpage _ _ HP Hsel) as [HQ HR].
    destruct rows as [|row rest].
    { injection Hrun as <- <- <-. split; [done|]. by constructor. }
    destruct (for_rows provider sleep cfg target (row :: rest) st)
      as [[s1 st1] ev1] eqn:Hrows.
    destruct (for_rows_keeps target P Q R Hstep _ _ _ _ _ HR HP Hrows)
      as [HP1 HQ1].
    destruct s1; try (injection Hrun as <- <- <-; split; [done|];
                      by constructor).
    destruct (while_loop provider sleep cfg target fuel st1)
      as [[status2 st2] ev2] eqn:Hloop.
    injection Hrun as <- <- <-.
    destruct (IH _ _ _ _ HP1 Hloop) as [HP2 HQ2].
    split; [done|]. constructor; [done|]. by apply Forall_app.
Qed.

(** When moreover the loop body never raises from a state in [P] on a
    row in [R], and the page query is accepted, the loops do not
    raise. *)
Lemma for_rows_safe (target : Z) (P : State → Prop) (R : Row → Prop) :
  (∀ row st s st' evs,
      R row → P st → processed (counters st) < target →
      process_row provider sleep cfg row st = (s, st', evs) →
      P st' ∧ s = Normal) →
  ∀ rows st s st' evs,
    Forall R rows → P st →
    for_rows provider sleep cfg target rows st = (s, st', evs) →
    P st' ∧ s = Normal.
Proof.
  intros Hstep rows.
  induction rows as [|row rest IH]; intros st s st' evs HR HP Hrun;
    simpl in Hrun.
  - by injection Hrun as <- <- <-.
  - destruct (Z.leb_spec target (processed (counters st))).
    + by injection Hrun as <- <- <-.
    + destruct (process_row provider sleep cfg row st)
        as [[s1 st1] ev1] eqn:Hrow.
      apply Forall_cons in HR as [Hr HR].
      destruct (Hstep _ _ _ _ _ Hr HP ltac:(done) Hrow) as [HP1 ->].
      destruct (for_rows provider sleep cfg target rest st1)
        as [[s2 st2] ev2] eqn:Hrest.
      injection Hrun as <- <- <-. by eapply IH.
Qed.

Lemma while_loop_safe (target : Z) (P : State → Prop) (R : Row → Prop) :
  (∀ row st s st' evs,
      R row → P st → processed (counters st) < target →
      process_row provider sleep cfg row st = (s, st', evs) →
      P st' ∧ s = Normal) →
  (∀ st rows,
      P st →
      select_page (max_attempts cfg) (batch_size cfg) (session (conn st))
        = Some rows →
      Forall R rows) →
  0 ≤ batch_size cfg < 2 ^ 63 →
  ∀ fuel st status st' evs,
    P st →
    while_loop provider sleep cfg target fuel st = (status, st', evs) →
    P st' ∧ status ≠ Threw.
Proof.
  intros Hstep Hpage Hlimit fuel.
  induction fuel as [|fuel IH]; intros st status st' evs HP Hrun; simpl in Hrun.
  - by injection Hrun as <- <- <-.
  - destruct (processed (counters st) <? target);
      [|by injection Hrun as <- <- <-].
    destruct (select_page _ _ _) as [rows|] eqn:Hsel.
    2:{ exfalso. unfold select_page in Hsel.
        destruct (Z.ltb_spec (batch_size cfg) 0); [lia|].
        destruct (Z.leb_spec (2 ^ 63) (batch_size cfg)); [lia|].
        discriminate. }
    pose proof (Hpage _ _ HP Hsel) as HR.
    destruct rows as [|row rest]; [by injection Hrun as <- <- <-|].
    destruct (for_rows provider sleep cfg target (row :: rest) st)
      as [[s1 st1] ev1] eqn:Hrows.
    destruct (for_rows_safe target P R Hstep _ _ _ _ _ HR HP Hrows)
      as [HP1 ->].
    destruct (while_loop provider sleep cfg target fuel st1)
      as [[status2 st2] ev2] eqn:Hloop.
    injection Hrun as <- <- <-. by eapply IH.
Qed.

End Loops.

(** Case analysis on the way a record goes through the loop body:
    [Hrow : process_row p s c row st = (status, st', evs)] is replaced by
    the five cases dry-run (with a phrase, without), reconciled,
    synthesized (with a phrase, without). *)
Ltac row_cases Hrow :=
  lazymatch type of Hrow with
  | Driver.process_row ?p ?s ?c ?row ?st = _ =>
      let Hdry := fresh "Hdry" in
      let Hart := fresh "Hart" in
      let Hphr := fresh "Hphr" in
      let Hsyn := fresh "Hsyn" in
      let E := fresh "E" in
      let ok := fresh "ok" in
      let err := fresh "err" in
      let text := fresh "text" in
      destruct (Driver.dry_run c) eqn:Hdry;
      [ destruct (Db.phrase row) as [text|] eqn:Hphr;
        [ rewrite (process_row_dry_run p s c row text st Hdry Hphr) in Hrow
        | rewrite (process_row_dry_run_null p s c row st Hdry Hphr) in Hrow ]
      | destruct (Fs.exists_nonempty (Driver.dir st) (Fs.out_file (Db.id row)))
          eqn:Hart;
        [ rewrite (process_row_reconcile p s c row st Hart Hdry) in Hrow
        | destruct (Db.phrase row) as [text|] eqn:Hphr;
          [ destruct (Driver.synthesize_to_file p (Driver.ncalls st)
                        text (Fs.out_file (Db.id row)))
              as [ok err] eqn:Hsyn;
            pose proof (process_row_synth p s c row text st ok err
                          Hart Hdry Hphr Hsyn) as E;
            cbv zeta in E; rewrite E in Hrow; clear E
          | rewrite (process_row_synth_null p s c row st Hart Hdry Hphr)
              in Hrow ] ] ];
      injection Hrow as <- <- <-
  end.

(** Membership of an event in a log written out: [H : e ∈ [e1; ...; en]]
    is split into its cases, those of another constructor dropped. *)
Ltac log_mem H :=
  repeat (apply elem_of_cons in H as [H|H]; [try discriminate H|]);
  try (by apply elem_of_nil in H).

Section RunFacts.
Import Db Azure Fs Text Driver Trace.

Variable provider : Provider.
Variable sleep : Clock.
Variable cfg : Config.

Lemma process_row_processed_le row st s st' evs :
  process_row provider sleep cfg row st = (s, st', evs) →
  processed (counters st) ≤ processed (counters st').
Proof.
  intros Hrow. row_cases Hrow; simpl; try lia. destruct ok; simpl; lia.
Qed.

(** A record the loop body gets through is counted. *)
Lemma process_row_processed row st st' evs :
  process_row provider sleep cfg row st = (Normal, st', evs) →
  processed (counters st') = processed (counters st) + 1.
Proof.
  intros Hrow.
  destruct (dry_run cfg) eqn:Hdry.
  - destruct (phrase row) as [text|] eqn:Hphr.
    + rewrite (process_row_dry_run _ _ _ _ text) in Hrow by done.
      by injection Hrow as <- <-.
    + by rewrite process_row_dry_run_null in Hrow.
  - destruct (exists_nonempty (dir st) (out_file (id row))) eqn:Hart.
    + rewrite process_row_reconcile in Hrow by done.
      by injection Hrow as <- <-.
    + destruct (phrase row) as [text|] eqn:Hphr.
      * destruct (synthesize_to_file provider (ncalls st) text
                    (out_file (id row))) as [ok err] eqn:Hsyn.
        rewrite (process_row_synth _ _ _ _ text _ ok err) in Hrow by done.
        injection Hrow as _ <- <-. by destruct ok.
      * by rewrite process_row_synth_null in Hrow.
Qed.

Lemma process_row_ids row st s st' evs :
  process_row provider sleep cfg row st = (s, st', evs) →
  ids (session (conn st')) = ids (session (conn st)).
Proof.
  intros Hrow. row_cases Hrow; simpl; try done.
  - by apply ids_update_where_id.
  - apply ids_update_where_id. by destruct ok.
Qed.

(** Handling one record leaves the rows of every other id as they are,
    in the transaction and in what is committed, and makes no event
    about them. *)
Lemma process_row_elsewhere pid row st s st' evs :
  id row ≠ pid →
  process_row provider sleep cfg row st = (s, st', evs) →
  (∀ x, id x = pid → x ∈ session (conn st') ↔ x ∈ session (conn st)) ∧
  (∀ x, id x = pid → x ∈ session (conn st) → x ∈ committed (conn st) →
        x ∈ committed (conn st')) ∧
  Forall (λ e, ¬ handles pid e) evs.
Proof.
  intros Hne Hrow.
  assert (Hupd : ∀ set x, (∀ r, id (set r) = id r) → id x = pid →
            x ∈ update_where_id set (id row) (session (conn st))
            ↔ x ∈ session (conn st)).
  { intros set x Hset Hx. rewrite elem_of_update_where_id. split.
    - intros [(r0 & _ & Hr0 & ->)|[? _]]; [|done].
      rewrite Hset in Hx. congruence.
    - intros Hin. right. split; [done | congruence]. }
  row_cases Hrow; simpl.
  - repeat split; try done.
    repeat constructor; simpl; congruence.
  - by repeat split.
  - repeat split; try (by apply Hupd); try done.
    repeat constructor; simpl; congruence.
  - assert (Hset : ∀ r,
              id (setter (if ok then Success (or_0 (tts_attempts row) + 1)
                          else Failure (or_0 (tts_attempts row) + 1) err) r)
              = id r) by (by destruct ok).
    split; [intros x Hx; by apply Hupd|].
    split; [intros x Hx Hs _; by apply Hupd|].
    repeat (constructor; [simpl; first [congruence | tauto]|]).
    destruct (negb ok && _); repeat constructor; simpl; tauto.
  - by repeat split.
Qed.

Lemma same_at_refl pid st : same_at pid st st.
Proof. by split. Qed.

Lemma same_at_settled pid st st1 :
  same_at pid st st1 → settled cfg pid st → settled cfg pid st1.
Proof. intros [Hs _] Hset r Hr Hid. apply Hset; [|done]. by apply Hs. Qed.

Lemma same_at_step pid st st1 row s st2 evs :
  same_at pid st st1 → id row ≠ pid →
  process_row provider sleep cfg row st1 = (s, st2, evs) →
  same_at pid st st2 ∧ Forall (λ e, ¬ handles pid e) evs.
Proof.
  intros [Hs Hc] Hne Hrow.
  destruct (process_row_elsewhere pid _ _ _ _ _ Hne Hrow) as (Hs' & Hc' & Hq).
  split; [|done]. split.
  - intros x Hx. by rewrite Hs', Hs.
  - intros x Hx Hin Hcom. apply Hc'; [done| |by apply Hc]. by apply Hs.
Qed.

(** The rest of a page that does not hold [pid] goes by without
    touching it. *)
Lemma for_rows_elsewhere pid target rows st s st' evs :
  pid ∉ ids rows →
  for_rows provider sleep cfg target rows st = (s, st', evs) →
  same_at pid st st' ∧ Forall (λ e, ¬ handles pid e) evs.
Proof.
  intros Hnot Hrun.
  eapply (for_rows_keeps provider sleep cfg target (same_at pid st)
            (λ e, ¬ handles pid e) (λ row, id row ≠ pid));
    [| |apply same_at_refl|exact Hrun].
  - intros row st1 s1 st2 ev1 Hne HP _ Hrow. by eapply same_at_step.
  - apply Forall_forall. intros row Hrow Hid. apply Hnot.
    unfold ids. rewrite <- Hid. by apply list_elem_of_fmap_2.
Qed.

(** A page never holds a settled id. *)
Lemma select_page_settled pid st rows :
  settled cfg pid st →
  select_page (max_attempts cfg) (batch_size cfg) (session (conn st))
    = Some rows →
  pid ∉ ids rows.
Proof.
  intros Hset Hsel Hin.
  apply list_elem_of_fmap in Hin as (r & -> & Hr).
  destruct (elem_of_select_page _ _ _ _ _ Hsel Hr) as [Hin Hp].
  rewrite (Hset r Hin eq_refl) in Hp. discriminate.
Qed.

(** From a state in which [pid] is settled, the rest of the run neither
    fetches nor handles [pid], and leaves its rows as they are. *)
Lemma while_loop_elsewhere pid target fuel st status st' evs :
  settled cfg pid st →
  while_loop provider sleep cfg target fuel st = (status, st', evs) →
  same_at pid st st' ∧ Forall (λ e, ¬ handles pid e) evs.
Proof.
  intros Hset Hrun.
  eapply (while_loop_keeps provider sleep cfg target (same_at pid st)
            (λ e, ¬ handles pid e) (λ row, id row ≠ pid));
    [| |apply same_at_refl|exact Hrun].
  - intros row st1 s1 st2 ev1 Hne HP _ Hrow. by eapply same_at_step.
  - intros st1 rows HP Hsel.
    assert (Hnot : pid ∉ ids rows).
    { eapply select_page_settled; [|exact Hsel]. by eapply same_at_settled. }
    split; [exact Hnot|].
    apply Forall_forall. intros row Hrow Hid. apply Hnot.
    unfold ids. rewrite <- Hid. by apply list_elem_of_fmap_2.
Qed.

(** *** Termination *)

Lemma for_rows_processed_le target rows st s st' evs :
  for_rows provider sleep cfg target rows st = (s, st', evs) →
  processed (counters st) ≤ processed (counters st').
Proof.
  intros Hrun.
  eapply (for_rows_keeps provider sleep cfg target
            (λ st1, processed (counters st) ≤ processed (counters st1))
            (λ _, True) (λ _, True)); [| |reflexivity|exact Hrun].
  - intros row st1 s1 st2 ev1 _ Hle _ Hrow.
    apply process_row_processed_le in Hrow.
    split; [lia|]. by apply Forall_true.
  - by apply Forall_true.
Qed.

Lemma for_rows_progress target row rest st st' evs :
  processed (counters st) < target →
  for_rows provider sleep cfg target (row :: rest) st = (Normal, st', evs) →
  processed (counters st) + 1 ≤ processed (counters st').
Proof.
  intros Hlt Hrun. simpl in Hrun.
  destruct (Z.leb_spec target (processed (counters st))); [lia|].
  destruct (process_row provider sleep cfg row st)
    as [[s1 st1] ev1] eqn:Hrow.
  destruct s1; try discriminate.
  destruct (for_rows provider sleep cfg target rest st1)
    as [[s2 st2] ev2] eqn:Hrest.
  injection Hrun as -> <- <-.
  apply process_row_processed in Hrow.
  apply for_rows_processed_le in Hrest. lia.
Qed.

(** The loop body and the [for] loop end normally or by an
    exception. *)
Lemma process_row_status row st s st' evs :
  process_row provider sleep cfg row st = (s, st', evs) → s ≠ NoFuel.
Proof. intros Hrow. row_cases Hrow; try done. by destruct (_ && _). Qed.

Lemma for_rows_status target rows st s st' evs :
  for_rows provider sleep cfg target rows st = (s, st', evs) → s ≠ NoFuel.
Proof.
  revert st s st' evs.
  induction rows as [|row rest IH]; intros st s st' evs Hrun; simpl in Hrun.
  - by injection Hrun as <- _ _.
  - destruct (target <=? processed (counters st));
      [by injection Hrun as <- _ _|].
    destruct (process_row provider sleep cfg row st)
      as [[s1 st1] ev1] eqn:Hrow.
    apply process_row_status in Hrow.
    destruct s1; [|by injection Hrun as <- _ _|done].
    destruct (for_rows provider sleep cfg target rest st1)
      as [[s2 st2] ev2] eqn:Hrest.
    injection Hrun as <- _ _. by eapply IH.
Qed.

(** With more fuel than records left to the target, the [while] loop
    ends by itself. *)
Lemma while_loop_fuel target fuel st status st' evs :
  (Z.to_nat (target - processed (counters st)) < fuel)%nat →
  while_loop provider sleep cfg target fuel st = (status, st', evs) →
  status ≠ NoFuel.
Proof.
  revert st status st' evs.
  induction fuel as [|fuel IH]; intros st status st' evs Hfuel Hrun; [lia|].
  simpl in Hrun.
  destruct (Z.ltb_spec (processed (counters st)) target);
    [|by injection Hrun as <- <- <-].
  destruct (select_page _ _ _) as [[|row rest]|];
    [by injection Hrun as <- <- <-| |by injection Hrun as <- <- <-].
  destruct (for_rows provider sleep cfg target (row :: rest) st)
    as [[s1 st1] ev1] eqn:Hrows.
  destruct s1.
  - destruct (while_loop provider sleep cfg target fuel st1)
      as [[status2 st2] ev2] eqn:Hloop.
    injection Hrun as <- <- <-.
    apply for_rows_progress in Hrows; [|done].
    eapply IH; [|exact Hloop]. lia.
  - by injection Hrun as <- <- <-.
  - by apply for_rows_status in Hrows.
Qed.

(** A page query that PostgreSQL refuses ends the loop at once:
    nothing has been done. *)
Lemma while_loop_refused target fuel st status st' evs :
  ¬ (0 ≤ batch_size cfg < 2 ^ 63) →
  while_loop provider sleep cfg target fuel st = (status, st', evs) →
  st' = st ∧ evs = [].
Proof.
  intros Hout Hrun. destruct fuel as [|fuel]; simpl in Hrun.
  - by injection Hrun as <- <- <-.
  - destruct (processed (counters st) <? target);
      [|by injection Hrun as <- <- <-].
    rewrite select_page_refused in Hrun by done.
    by injection Hrun as <- <- <-.
Qed.

(** *** The counters *)

Lemma process_row_balanced target row st s st' evs :
  balanced target (counters st) →
  processed (counters st) < target →
  process_row provider sleep cfg row st = (s, st', evs) →
  balanced target (counters st') ∧ Forall (tick_balanced target) evs.
Proof.
  unfold balanced. intros [Heq Hle] Hlt Hrow.
  row_cases Hrow; simpl.
  - split; [lia|]. repeat constructor; simpl; lia.
  - by split.
  - split; [lia|]. repeat constructor; simpl; lia.
  - destruct ok; simpl; (split; [lia|]);
      repeat (constructor; [simpl; first [lia | done]|]);
      try destruct (negb (Qle_bool _ _)); repeat constructor; simpl; lia.
  - by split.
Qed.

Lemma while_loop_balanced target fuel st status st' evs :
  balanced target (counters st) →
  while_loop provider sleep cfg target fuel st = (status, st', evs) →
  balanced target (counters st') ∧ Forall (tick_balanced target) evs.
Proof.
  intros Hbal Hrun.
  eapply (while_loop_keeps provider sleep cfg target
            (λ st1, balanced target (counters st1))
            (tick_balanced target) (λ _, True)); [| |exact Hbal|exact Hrun].
  - intros row st1 s1 st2 ev1 _ HP Hlt Hrow. by eapply process_row_balanced.
  - intros st1 rows _ _. split; [done|]. by apply Forall_true.
Qed.

(** *** Dry-run *)

Lemma while_loop_dry target fuel st status st' evs :
  dry_run cfg = true →
  only_skips (counters st) →
  while_loop provider sleep cfg target fuel st = (status, st', evs) →
  dry_state st st' ∧ Forall dry_event evs.
Proof.
  intros Hdry Hskip Hrun.
  eapply (while_loop_keeps provider sleep cfg target (dry_state st) dry_event
            (λ _, True));
    [| |exact (conj eq_refl (conj eq_refl (conj eq_refl Hskip)))|exact Hrun].
  - intros row st1 s1 st2 ev1 _ (Hc & Hd & Hn & Hs & Hdn & Hf) _ Hrow.
    row_cases Hrow; try congruence.
    + unfold dry_state, only_skips in *. simpl.
      repeat split; try done; try lia.
      repeat constructor; simpl; lia.
    + by repeat split.
  - intros st1 rows _ _. split; [done|]. by apply Forall_true.
Qed.

(** *** Once a record is advanced *)

Lemma not_handles_revisits pid evs :
  Forall (λ e, ¬ handles pid e) evs → Forall (λ e, ¬ revisits pid e) evs.
Proof.
  intros H. eapply Forall_impl; [exact H|].
  intros e Hh Hr. apply Hh. by destruct e.
Qed.

Lemma once_advanced_app l1 l2 :
  once_advanced cfg l1 → once_advanced cfg l2 →
  (∀ pid u, EvUpdate pid u ∈ l1 → advancing cfg u →
            Forall (λ e, ¬ revisits pid e) l2) →
  once_advanced cfg (l1 ++ l2).
Proof.
  induction l1 as [|e l1 IH]; intros H1 H2 Hx; simpl; [done|].
  destruct H1 as [He H1]. split.
  - intros pid u -> Hadv. apply Forall_app. split; [by eapply He|].
    eapply Hx; [|done]. by left.
  - apply IH; [done|done|]. intros pid u Hin. apply Hx. by right.
Qed.

Lemma once_advanced_split evs l1 pid u l2 :
  once_advanced cfg evs → evs = l1 ++ EvUpdate pid u :: l2 →
  advancing cfg u → Forall (λ e, ¬ revisits pid e) l2.
Proof.
  revert evs. induction l1 as [|e l1 IH]; intros evs Hevs -> Hadv.
  - destruct Hevs as [He _]. by eapply He.
  - destruct Hevs as [_ Hevs]. by eapply IH.
Qed.

(** The statement the loop body runs for a record takes it out of the
    eligible set when it is one of the advancing kind. *)
Lemma update_settles u pid st :
  advancing cfg u →
  settled cfg pid
    {| conn := execute_update (setter u) pid (conn st); dir := dir st;
       ncalls := ncalls st; counters := counters st |}.
Proof.
  intros Hadv r Hr Hid. simpl in Hr.
  apply elem_of_update_where_id in Hr as [(r0 & _ & _ & ->)|[_ Hne]];
    [|done].
  destruct u; simpl in *.
  - by apply where_pending_false_ok.
  - by apply where_pending_false_ok.
  - by eapply where_pending_false_cap.
Qed.

Lemma process_row_once_advanced row st s st' evs :
  process_row provider sleep cfg row st = (s, st', evs) →
  once_advanced cfg evs ∧
  (∀ pid u, EvUpdate pid u ∈ evs → pid = id row ∧
            (advancing cfg u → settled cfg pid st')).
Proof.
  intros Hrow. row_cases Hrow.
  - split.
    + simpl. repeat split; try done; intros ?? [=].
    + intros pid u Hin. log_mem Hin.
  - split; [done|]. intros pid u Hin. log_mem Hin.
  - split.
    + simpl. repeat split; try done. intros pid u [= <- <-] _.
      repeat constructor. simpl. tauto.
    + intros pid u Hin. log_mem Hin. injection Hin as -> ->.
      split; [done|]. intros Hadv r Hr Hid.
      by apply (update_settles Reconciled (id row) st Hadv r Hr).
  - split.
    + simpl. split; [intros ?? [=]|]. split.
      * intros pid u [= <- <-] _.
        repeat (constructor; [simpl; tauto|]).
        destruct (negb ok && _); repeat constructor; simpl; tauto.
      * split; [intros ?? [=]|]. split; [intros ?? [=]|].
        destruct (negb ok && _); simpl; [|done].
        split; [intros ?? [=]|done].
    + intros pid u Hin. simpl in Hin.
      assert (Hu : pid = id row ∧
                u = (if ok then Success (or_0 (tts_attempts row) + 1)
                     else Failure (or_0 (tts_attempts row) + 1) err)).
      { destruct (negb ok && _); log_mem Hin; by injection Hin as -> ->. }
      destruct Hu as [-> ->]. split; [done|].
      intros Hadv r Hr Hid. simpl in Hr.
      by apply (update_settles _ (id row) st Hadv r Hr).
  - split; [done|]. intros pid u Hin. log_mem Hin.
Qed.

Lemma for_rows_ids target rows st s st' evs :
  for_rows provider sleep cfg target rows st = (s, st', evs) →
  ids (session (conn st')) = ids (session (conn st)).
Proof.
  intros Hrun.
  eapply (for_rows_keeps provider sleep cfg target
            (λ st1, ids (session (conn st1)) = ids (session (conn st)))
            (λ _, True) (λ _, True)); [| |reflexivity|exact Hrun].
  - intros row st1 s1 st2 ev1 _ Heq _ Hrow.
    apply process_row_ids in Hrow.
    split; [congruence|]. by apply Forall_true.
  - by apply Forall_true.
Qed.

Lemma for_rows_once_advanced target rows st s st' evs :
  NoDup (ids rows) →
  for_rows provider sleep cfg target rows st = (s, st', evs) →
  once_advanced cfg evs ∧
  (∀ pid u, EvUpdate pid u ∈ evs → pid ∈ ids rows ∧
            (advancing cfg u → settled cfg pid st')).
Proof.
  revert st s st' evs.
  induction rows as [|row rest IH]; intros st s st' evs Hnd Hrun;
    simpl in Hrun.
  - injection Hrun as <- <- <-. split; [done|].
    intros pid u Hin. log_mem Hin.
  - destruct (target <=? processed (counters st)).
    { injection Hrun as <- <- <-. split; [done|].
      intros pid u Hin. log_mem Hin. }
    destruct (process_row provider sleep cfg row st)
      as [[s1 st1] ev1] eqn:Hrow.
    destruct (process_row_once_advanced _ _ _ _ _ Hrow) as [Ho1 Hu1].
    assert (Hstop : s = s1 → st' = st1 → evs = ev1 →
              once_advanced cfg evs ∧
              (∀ pid u, EvUpdate pid u ∈ evs → pid ∈ ids (row :: rest) ∧
                        (advancing cfg u → settled cfg pid st'))).
    { intros -> -> ->. split; [done|]. intros pid u Hin.
      destruct (Hu1 _ _ Hin) as [-> Hset]. split; [by left|done]. }
    destruct s1; try (injection Hrun as <- <- <-; by apply Hstop).
    clear Hstop.
    destruct (for_rows provider sleep cfg target rest st1)
      as [[s2 st2] ev2] eqn:Hrest.
    injection Hrun as <- <- <-.
    apply NoDup_cons in Hnd as [Hfresh Hnd].
    destruct (IH _ _ _ _ Hnd Hrest) as [Ho2 Hu2].
    destruct (for_rows_elsewhere (id row) _ _ _ _ _ _ Hfresh Hrest)
      as [Hsame Hquiet].
    split.
    + apply once_advanced_app; [done|done|].
      intros pid u Hin Hadv. destruct (Hu1 _ _ Hin) as [-> _].
      by apply not_handles_revisits.
    + intros pid u Hin. apply elem_of_app in Hin as [Hin|Hin].
      * destruct (Hu1 _ _ Hin) as [-> Hset]. split; [by left|].
        intros Hadv. eapply same_at_settled; [exact Hsame|by apply Hset].
      * destruct (Hu2 _ _ Hin) as [Hmem Hset]. split; [by right|done].
Qed.

(** From a table with unique ids, the log of the [while] loop has no
    record fetched or handled after it was taken out of the eligible
    set. *)
Lemma while_loop_once_advanced target fuel st status st' evs :
  NoDup (ids (session (conn st))) →
  while_loop provider sleep cfg target fuel st = (status, st', evs) →
  once_advanced cfg evs ∧
  (∀ pid u, EvUpdate pid u ∈ evs → advancing cfg u → settled cfg pid st').
Proof.
  revert st status st' evs.
  induction fuel as [|fuel IH]; intros st status st' evs Hnd Hrun;
    simpl in Hrun.
  { injection Hrun as <- <- <-. split; [done|].
    intros pid u Hin. log_mem Hin. }
  destruct (processed (counters st) <? target).
  2:{ injection Hrun as <- <- <-. split; [done|].
      intros pid u Hin. log_mem Hin. }
  destruct (select_page _ _ _) as [rows|] eqn:Hsel.
  2:{ injection Hrun as <- <- <-. split; [done|].
      intros pid u Hin. log_mem Hin. }
  pose proof (select_page_NoDup _ _ _ _ Hsel Hnd) as Hndp.
  destruct rows as [|row rest].
  { injection Hrun as <- <- <-. split.
    - simpl. split; [intros ?? [=]|done].
    - intros pid u Hin. log_mem Hin. }
  destruct (for_rows provider sleep cfg target (row :: rest) st)
    as [[s1 st1] ev1] eqn:Hrows.
  destruct (for_rows_once_advanced _ _ _ _ _ _ Hndp Hrows) as [Ho1 Hu1].
  assert (Hstop : status = s1 → st' = st1 →
            evs = EvSelect (row :: rest) :: ev1 →
            once_advanced cfg evs ∧
            (∀ pid u, EvUpdate pid u ∈ evs → advancing cfg u →
                      settled cfg pid st')).
  { intros -> -> ->. split.
    - simpl. split; [intros ?? [=]|done].
    - intros pid u Hin Hadv. apply elem_of_cons in Hin as [[=]|Hin].
      destruct (Hu1 _ _ Hin) as [_ Hset]. by apply Hset. }
  destruct s1; try (injection Hrun as <- <- <-; by apply Hstop).
  clear Hstop.
  destruct (while_loop provider sleep cfg target fuel st1)
    as [[status2 st2] ev2] eqn:Hloop.
  injection Hrun as <- <- <-.
  assert (Hnd1 : NoDup (ids (session (conn st1))))
    by (by rewrite (for_rows_ids _ _ _ _ _ _ Hrows)).
  destruct (IH _ _ _ _ Hnd1 Hloop) as [Ho2 Hu2].
  split.
  - simpl. split; [intros ?? [=]|].
    apply once_advanced_app; [done|done|].
    intros pid u Hin Hadv. destruct (Hu1 _ _ Hin) as [_ Hset].
    apply not_handles_revisits.
    by eapply while_loop_elsewhere; [apply Hset|exact Hloop].
  - intros pid u Hin Hadv.
    apply elem_of_cons in Hin as [[=]|Hin].
    apply elem_of_app in Hin as [Hin|Hin]; [|by eapply Hu2].
    destruct (Hu1 _ _ Hin) as [_ Hset].
    destruct (while_loop_elsewhere pid _ _ _ _ _ _ (Hset Hadv) Hloop)
      as [Hsame _].
    eapply same_at_settled; [exact Hsame|by apply Hset].
Qed.

End RunFacts.

(** ** The error text of [synthesize_to_file] *)

Section ErrorText.
Import Azure Driver Spec.

Lemma string_app_assoc (s1 s2 s3 : string) :
  (s1 +:+ s2) +:+ s3 = s1 +:+ s2 +:+ s3.
Proof.
  induction s1 as [|c s1 IH]; [done|].
  change (String c ((s1 +:+ s2) +:+ s3) = String c (s1 +:+ s2 +:+ s3)).
  by rewrite IH.
Qed.

Lemma string_app_nil_r (s : string) : s +:+ "" = s.
Proof.
  induction s as [|c s IH]; [done|].
  change (String c (s +:+ "") = String c s). by rewrite IH.
Qed.

Lemma occurs_in_refl s : occurs_in s s.
Proof. exists "", "". simpl. by rewrite string_app_nil_r. Qed.

Lemma occurs_in_app_l sub s t : occurs_in sub s → occurs_in sub (s +:+ t).
Proof.
  intros (pre & post & ->). exists pre, (post +:+ t).
  by rewrite !string_app_assoc.
Qed.

Lemma occurs_in_app_r sub s t : occurs_in sub t → occurs_in sub (s +:+ t).
Proof.
  intros (pre & post & ->). exists (s +:+ pre), post.
  by rewrite !string_app_assoc.
Qed.

Lemma occurs_in_empty s : occurs_in "" s.
Proof. by exists "", s. Qed.

(** A result that is not [SynthesizingAudioCompleted] gives [False]
    and a text that holds the reason and, for a cancellation, the
    cancellation reason and the details. *)
Lemma synthesize_to_file_failure provider calls text out_path :
  let res := result (provider calls text out_path) in
  reason res ≠ SynthesizingAudioCompleted →
  ∃ msg, synthesize_to_file provider calls text out_path = (false, Some msg) ∧
         occurs_in (str_reason (reason res)) msg ∧
         (reason res = Canceled →
          occurs_in (str_cancel (cancel_reason (cancellation_details res))) msg ∧
          occurs_in (error_details (cancellation_details res)) msg).
Proof.
  intros res Hne. unfold synthesize_to_file. fold res.
  destruct (reason res) as [| |name] eqn:Hreason; [done| |]; simpl.
  - destruct (truthy _) eqn:Htruthy; eexists; (split; [done|]).
    + split; [|intros _; split].
      * apply occurs_in_app_l, occurs_in_app_l, occurs_in_app_r,
          occurs_in_refl.
      * apply occurs_in_app_l, occurs_in_app_r, occurs_in_app_r,
          occurs_in_refl.
      * apply occurs_in_app_r, occurs_in_app_r, occurs_in_refl.
    + split; [|intros _; split].
      * apply occurs_in_app_l, occurs_in_app_r, occurs_in_refl.
      * apply occurs_in_app_r, occurs_in_app_r, occurs_in_refl.
      * destruct (error_details _); [apply occurs_in_empty|done].
  - eexists. split; [done|]. split; [|done].
    apply occurs_in_app_r, occurs_in_refl.
Qed.

Lemma synthesize_to_file_success provider calls text out_path :
  reason (result (provider calls text out_path)) = SynthesizingAudioCompleted →
  synthesize_to_file provider calls text out_path = (true, None).
Proof. unfold synthesize_to_file. by intros ->. Qed.

End ErrorText.

(** ** The claims *)

Section Claims.
Import Db Azure Fs Text Driver Trace Spec.

Lemma total_pending_nonneg cfg db : 0 ≤ total_pending cfg db.
Proof. unfold total_pending, select_count. lia. Qed.

Lemma total_target_nonneg cfg db : 0 ≤ total_target cfg db.
Proof.
  unfold total_target. pose proof (total_pending_nonneg cfg db).
  destruct (Z.ltb_spec 0 (max_phrases cfg)); simpl; [|done].
  destruct (max_phrases cfg <? _); lia.
Qed.

(** What [main] returns, by the way it ended. *)
Lemma main_nothing provider sleep cfg db d :
  total_target cfg db = 0 →
  main provider sleep cfg db d =
    {| exit := NothingToDo;
       final := closed {| conn := connect db; dir := mkdir d; ncalls := 0;
                          counters := zero |};
       log := [] |}.
Proof. intros H0. unfold main. by rewrite H0. Qed.

Lemma main_loop provider sleep cfg db d :
  total_target cfg db ≠ 0 →
  ∃ status st evs,
    while_loop provider sleep cfg (total_target cfg db)
      (S (Z.to_nat (total_target cfg db)))
      {| conn := connect db; dir := mkdir d; ncalls := 0; counters := zero |}
      = (status, st, evs) ∧
    status ≠ NoFuel ∧
    main provider sleep cfg db d =
      {| exit := match status with
                 | Normal => Finished (summary (total_target cfg db) (counters st))
                 | Threw => Raised
                 | NoFuel => Diverged
                 end;
         final := closed st;
         log := evs |}.
Proof.
  intros Hne. unfold main.
  destruct (Z.eqb_spec (total_target cfg db) 0); [done|].
  destruct (while_loop _ _ _ _ _) as [[status st] evs] eqn:Hloop.
  exists status, st, evs. split; [done|]. split; [|done].
  eapply while_loop_fuel; [|exact Hloop]. simpl. lia.
Qed.

(** [main] always comes to an end. *)
Lemma main_terminates provider sleep cfg db d :
  exit (main provider sleep cfg db d) ≠ Diverged.
Proof.
  destruct (decide (total_target cfg db = 0)) as [H0|Hne].
  - by rewrite main_nothing.
  - destruct (main_loop provider sleep cfg db d Hne)
      as (status & st & evs & _ & Hfuel & ->).
    simpl. by destruct status.
Qed.

(** *** C6 *)

(** C6. At the start of a run, [total_pending] is the number of rows
    with [tts_ok = false] and [tts_attempts < max_attempts], and
    [total_target] is the smaller of [max_phrases] and [total_pending]
    when [max_phrases] is positive, [total_pending] otherwise. *)
Theorem total_pending_and_target cfg db :
  total_pending cfg db
    = Z.of_nat (length (filter (eligible (max_attempts cfg)) db)) ∧
  total_target cfg db
    = if 0 <? max_phrases cfg
      then Z.min (max_phrases cfg) (total_pending cfg db)
      else total_pending cfg db.
Proof.
  split.
  - unfold total_pending, select_count. do 2 f_equal.
    apply list_filter_iff. intros r.
    rewrite <- where_pending_eligible. apply Is_true_true.
  - unfold total_target.
    destruct (Z.ltb_spec 0 (max_phrases cfg)); simpl; [|done].
    destruct (Z.ltb_spec (max_phrases cfg) (total_pending cfg db)); lia.
Qed.

Example total_target_capped :
  total_target
    {| out_dir := "out"; language := "es-ES"; voice := "v";
       batch_size := 100; max_phrases := 2; max_attempts := 5;
       sleep_on_error := 5; dry_run := false |}
    [Sample.pending 1; Sample.voiced 2; Sample.pending 3; Sample.pending 4]
  = 2.
Proof. reflexivity. Qed.

Example total_target_uncapped :
  total_target Sample.defaults
    [Sample.pending 1; Sample.voiced 2; Sample.pending 3; Sample.pending 4]
  = 3.
Proof. reflexivity. Qed.

(** *** C8 *)

Lemma ineligible_where_pending m x :
  (tts_ok x = true ∨ ∃ a, tts_attempts x = Some a ∧ m ≤ a) →
  where_pending m x = false.
Proof.
  intros [Hok|(a & Ha & Hle)].
  - by apply where_pending_false_ok.
  - by eapply where_pending_false_cap.
Qed.

Lemma ids_NoDup_inj (t : Table) r1 r2 :
  NoDup (ids t) → r1 ∈ t → r2 ∈ t → id r1 = id r2 → r1 = r2.
Proof.
  unfold ids. induction t as [|r t IH]; intros Hnd H1 H2 Hid.
  - by apply elem_of_nil in H1.
  - rewrite fmap_cons in Hnd. apply NoDup_cons in Hnd as [Hfresh Hnd].
    apply elem_of_cons in H1 as [->|H1]; apply elem_of_cons in H2 as [->|H2].
    + done.
    + exfalso. apply Hfresh. rewrite Hid. by apply list_elem_of_fmap_2.
    + exfalso. apply Hfresh. rewrite <- Hid. by apply list_elem_of_fmap_2.
    + by apply IH.
Qed.

Lemma process_row_committed provider sleep cfg row st s st' evs :
  process_row provider sleep cfg row st = (s, st', evs) →
  committed (conn st') = committed (conn st) ∨
  committed (conn st') = session (conn st').
Proof. intros Hrow. row_cases Hrow; simpl; auto. Qed.

(** A run keeps the ids of the table. *)
Lemma main_ids provider sleep cfg db d :
  ids (committed (conn (final (main provider sleep cfg db d)))) = ids db.
Proof.
  destruct (decide (total_target cfg db = 0)) as [H0|Hne].
  { by rewrite main_nothing. }
  destruct (main_loop provider sleep cfg db d Hne)
    as (status & st & evs & Hloop & _ & ->). simpl.
  eapply (while_loop_keeps provider sleep cfg _
            (λ st1, ids (session (conn st1)) = ids db ∧
                    ids (committed (conn st1)) = ids db)
            (λ _, True) (λ _, True)) in Hloop as [[_ Hcom] _]; [done| | |done].
  - intros row st1 s1 st2 ev1 _ [Hs Hc] _ Hrow.
    pose proof (process_row_ids _ _ _ _ _ _ _ _ Hrow) as Hids.
    split; [|by apply Forall_true]. split; [congruence|].
    destruct (process_row_committed _ _ _ _ _ _ _ _ Hrow) as [-> | ->];
      congruence.
  - intros st1 rows _ _. split; [done|]. by apply Forall_true.
Qed.

(** A run over a table with unique ids leaves a row that the [WHERE]
    clause rejects alone. *)
Lemma main_leaves_ineligible provider sleep cfg db d x :
  where_pending (max_attempts cfg) x = false →
  NoDup (ids db) → x ∈ db →
  Forall (λ e, ¬ handles (id x) e) (log (main provider sleep cfg db d)) ∧
  x ∈ committed (conn (final (main provider sleep cfg db d))).
Proof.
  intros Hx Hnd Hin.
  destruct (decide (total_target cfg db = 0)) as [H0|Hne].
  { rewrite main_nothing by done. simpl. by split. }
  destruct (main_loop provider sleep cfg db d Hne)
    as (status & st & evs & Hloop & _ & ->). simpl.
  assert (Hset : settled cfg (id x)
            {| conn := connect db; dir := mkdir d; ncalls := 0;
               counters := zero |}).
  { intros r Hr Hid. simpl in Hr.
    by rewrite (ids_NoDup_inj db r x Hnd Hr Hin Hid). }
  destruct (while_loop_elsewhere provider sleep cfg (id x) _ _ _ _ _ _
              Hset Hloop) as [[_ Hcom] Hquiet].
  split; [done|]. by apply Hcom.
Qed.

Lemma reruns_leave_ineligible jobs db x :
  Forall (λ job, where_pending (max_attempts job.1.2) x = false) jobs →
  NoDup (ids db) → x ∈ db → x ∈ reruns jobs db.
Proof.
  revert db. induction jobs as [|[[[sleep provider] cfg] d] jobs IH];
    intros db Hjobs Hnd Hin; simpl; [done|].
  apply Forall_cons in Hjobs as [Hjob Hjobs]. simpl in Hjob.
  apply IH; [done| |].
  - by rewrite main_ids.
  - by apply main_leaves_ineligible.
Qed.

(** C8. A row with [tts_ok = true], or with [tts_attempts] at
    [max_attempts] or above, is in no page the selection returns, from
    whatever table. Hence a run over a table with unique ids that holds
    such a row never fetches, previews, synthesizes, updates or ticks
    it, and ends with the row as it was and the ids as they were; and
    so does every sequence of re-runs with that [max_attempts],
    whatever the provider, the other options and the output directory
    of each. *)
Theorem ineligible_never_selected provider sleep cfg db d x :
  (tts_ok x = true ∨ ∃ a, tts_attempts x = Some a ∧ max_attempts cfg ≤ a) →
  (∀ t rows,
      select_page (max_attempts cfg) (batch_size cfg) t = Some rows →
      x ∉ rows) ∧
  (NoDup (ids db) → x ∈ db →
   Forall (λ e, ¬ handles (id x) e) (log (main provider sleep cfg db d)) ∧
   x ∈ committed (conn (final (main provider sleep cfg db d))) ∧
   ids (committed (conn (final (main provider sleep cfg db d)))) = ids db ∧
   ∀ jobs,
     Forall (λ job, max_attempts job.1.2 = max_attempts cfg) jobs →
     x ∈ reruns jobs db).
Proof.
  intros Hx. apply ineligible_where_pending in Hx. split.
  - intros t rows Hsel Hin.
    destruct (elem_of_select_page _ _ _ _ _ Hsel Hin) as [_ Hp]. congruence.
  - intros Hnd Hin.
    destruct (main_leaves_ineligible provider sleep cfg db d x Hx Hnd Hin)
      as [Hquiet Hkept].
    split; [done|]. split; [done|]. split; [apply main_ids|].
    intros jobs Hjobs. apply reruns_leave_ineligible; [|done|done].
    eapply Forall_impl; [exact Hjobs|]. intros job Hjob. simpl in Hjob.
    by rewrite Hjob.
Qed.

Lemma ineligible_never_selected_witness :
  (Sample.voiced 2 ∉ [Sample.pending 1]) ∧
  Forall (λ e, ¬ handles 2 e)
    (log (main Sample.speaks Sample.clock Sample.defaults
            [Sample.pending 1; Sample.voiced 2] Sample.empty_dir)) ∧
  Sample.voiced 2 ∈
    committed (conn (final (main Sample.speaks Sample.clock Sample.defaults
                              [Sample.pending 1; Sample.voiced 2]
                              Sample.empty_dir))) ∧
  Sample.voiced 2 ∈
    reruns [(Sample.clock, Sample.refuses, Sample.one_by_one,
             Sample.empty_dir);
            (Sample.clock, Sample.speaks, Sample.defaults, Sample.empty_dir)]
      [Sample.pending 1; Sample.voiced 2].
Proof.
  destruct (ineligible_never_selected Sample.speaks Sample.clock Sample.defaults
              [Sample.pending 1; Sample.voiced 2] Sample.empty_dir
              (Sample.voiced 2) (or_introl eq_refl)) as [Hpage Hrun].
  split.
  - apply (Hpage [Sample.pending 1; Sample.voiced 2]). reflexivity.
  - destruct Hrun as (Hquiet & Hkept & _ & Hreruns).
    + apply (bool_decide_unpack _). vm_compute. exact I.
    + right. left.
    + split; [done|]. split; [done|]. apply Hreruns.
      repeat constructor.
Defined.

(** *** C10 *)

Lemma balanced_zero cfg db : balanced (total_target cfg db) zero.
Proof. split; [done|]. apply total_target_nonneg. Qed.

(** C10. In every run, at each tick of the progress bar (the end of
    the handling of a record) and at the end, [processed = done +
    skipped + failed] and [processed] is at most [total_target]. *)
Theorem counters_balanced provider sleep cfg db d :
  Forall (tick_balanced (total_target cfg db))
    (log (main provider sleep cfg db d)) ∧
  balanced (total_target cfg db)
    (counters (final (main provider sleep cfg db d))).
Proof.
  destruct (decide (total_target cfg db = 0)) as [H0|Hne].
  - rewrite main_nothing by done. simpl. split; [done|].
    apply balanced_zero.
  - destruct (main_loop provider sleep cfg db d Hne)
      as (status & st & evs & Hloop & _ & ->). simpl.
    eapply while_loop_balanced in Hloop as [Hbal Hticks];
      [by split | apply balanced_zero].
Qed.

(** *** Dry runs *)

Example dry_run_counts_two :
  counters (final (main Sample.speaks Sample.clock Sample.preview
                     [Sample.pending 1; Sample.pending 2]
                     Sample.dir_with_1))
  = {| processed := 2; done_ := 0; skipped := 2; failed := 0 |}.
Proof. vm_compute. reflexivity. Qed.

(** *** C7 *)

(** C7, counterexample. With nothing pending and an [--out-dir] that
    does not exist yet, [total_target] is 0 and the run has created the
    directory (line 156 runs before the test of line 186). *)
Lemma nothing_to_do_makes_directory :
  total_target Sample.defaults [Sample.voiced 1] = 0 ∧
  ¬ no_side_effects [Sample.voiced 1] Sample.no_dir
      (main Sample.speaks Sample.clock Sample.defaults [Sample.voiced 1]
         Sample.no_dir).
Proof.
  split; [reflexivity|]. intros [_ Hdir].
  apply (f_equal exists_) in Hdir. discriminate Hdir.
Qed.

(** C7, amended. When [total_target = 0] the run ends at "Nothing to
    do": it queries no page, updates and commits nothing, calls no
    provider, leaves the table and every file as they were; the output
    directory exists afterwards, created if it was not there. *)
Theorem nothing_to_do_only_makes_directory provider sleep cfg db d :
  total_target cfg db = 0 →
  exit (main provider sleep cfg db d) = NothingToDo ∧
  log (main provider sleep cfg db d) = [] ∧
  committed (conn (final (main provider sleep cfg db d))) = db ∧
  session (conn (final (main provider sleep cfg db d))) = db ∧
  files (dir (final (main provider sleep cfg db d))) = files d ∧
  exists_ (dir (final (main provider sleep cfg db d))) = true ∧
  ncalls (final (main provider sleep cfg db d)) = 0%nat.
Proof. intros H0. rewrite main_nothing by done. simpl. by repeat split. Qed.

Lemma nothing_to_do_only_makes_directory_witness :
  total_target Sample.defaults [Sample.voiced 1] = 0 ∧
  exit (main Sample.speaks Sample.clock Sample.defaults [Sample.voiced 1]
          Sample.no_dir)
    = NothingToDo ∧
  exists_ (dir (final (main Sample.speaks Sample.clock Sample.defaults
                         [Sample.voiced 1] Sample.no_dir))) = true.
Proof.
  split; [reflexivity|].
  destruct (nothing_to_do_only_makes_directory Sample.speaks Sample.clock
              Sample.defaults [Sample.voiced 1] Sample.no_dir eq_refl)
    as (Hexit & _ & _ & _ & _ & Hdir & _).
  by split.
Defined.

(** *** C9 *)

(** C9, counterexample. A run that synthesizes one record prints the
    summary, and the summary has no line for [processed]; and a run
    that handles one record and is then ended by an exception (here
    the [OverflowError] of a sleep of [1e10] seconds) prints no summary
    at all. *)
Lemma summary_lacks_processed :
  (1 ≤ processed (counters (final (main Sample.speaks Sample.clock
                                     Sample.defaults [Sample.pending 1]
                                     Sample.empty_dir))) ∧
   ¬ reports_all (main Sample.speaks Sample.clock Sample.defaults
                    [Sample.pending 1] Sample.empty_dir)) ∧
  (1 ≤ processed (counters (final (main Sample.refuses Sample.clock
                                     Sample.long_nap [Sample.pending 1]
                                     Sample.empty_dir))) ∧
   ∀ v, ¬ reports v (main Sample.refuses Sample.clock Sample.long_nap
                       [Sample.pending 1] Sample.empty_dir)).
Proof.
  split; (split; [by vm_compute|]).
  - intros [(report & line & Hexit & Hin & Hvar) _].
    vm_compute in Hexit. injection Hexit as <-.
    log_mem Hin; subst line; discriminate Hvar.
  - intros v (report & line & Hexit & _). vm_compute in Hexit.
    discriminate Hexit.
Qed.

(** C9, amended. A run that has processed at least one record and is
    not ended by an exception ends with the summary, and the summary
    has four lines: the run target, [done], [skipped] and [failed],
    with their values at the end of the run. *)
Theorem summary_reports_target_and_three_counters provider sleep cfg db d :
  1 ≤ processed (counters (final (main provider sleep cfg db d))) →
  exit (main provider sleep cfg db d) ≠ Raised →
  ∃ report,
    exit (main provider sleep cfg db d) = Finished report ∧
    (λ l, (var l, value l)) <$> report =
      [ (TotalTarget, total_target cfg db);
        (Done, done_ (counters (final (main provider sleep cfg db d))));
        (Skipped, skipped (counters (final (main provider sleep cfg db d))));
        (Failed, failed (counters (final (main provider sleep cfg db d)))) ].
Proof.
  destruct (decide (total_target cfg db = 0)) as [H0|Hne].
  { rewrite main_nothing by done. simpl. lia. }
  destruct (main_loop provider sleep cfg db d Hne)
    as (status & st & evs & Hloop & Hfuel & ->). simpl.
  intros Hone Hexit. destruct status; [|done|done]. by eexists.
Qed.

Lemma summary_reports_target_and_three_counters_witness :
  ∃ report,
    exit (main Sample.speaks Sample.clock Sample.defaults [Sample.pending 1]
            Sample.empty_dir) = Finished report ∧
    (λ l, (var l, value l)) <$> report =
      [(TotalTarget, 1); (Done, 1); (Skipped, 0); (Failed, 0)].
Proof.
  apply (summary_reports_target_and_three_counters Sample.speaks
           Sample.clock Sample.defaults [Sample.pending 1] Sample.empty_dir).
  - by vm_compute.
  - by vm_compute.
Defined.

(** *** C2 *)

(** The synthesis branch commits: what the connection sees after the
    record is what is durable. *)
Lemma synthesized_record_committed provider sleep cfg row text st s st' evs :
  dry_run cfg = false →
  exists_nonempty (dir st) (out_file (id row)) = false →
  phrase row = Some text →
  process_row provider sleep cfg row st = (s, st', evs) →
  committed (conn st') = session (conn st') ∧ EvCommit ∈ evs.
Proof.
  intros Hdry Hart Hphr Hrow. row_cases Hrow; try congruence.
  split; [done|]. simpl. do 2 right. left.
Qed.

(** The reconciliation branch does not: the [UPDATE] stays in the open
    transaction. *)
Lemma reconciled_record_not_committed provider sleep cfg row st s st' evs :
  dry_run cfg = false →
  exists_nonempty (dir st) (out_file (id row)) = true →
  process_row provider sleep cfg row st = (s, st', evs) →
  committed (conn st') = committed (conn st) ∧ EvCommit ∉ evs.
Proof.
  intros Hdry Hart Hrow.
  rewrite process_row_reconcile in Hrow by done.
  injection Hrow as <- <- <-. split; [done|]. intros Hin. log_mem Hin.
Qed.

(** C2, the failing run. One pending record whose audio file is
    already there: the run reconciles it ([UPDATE], tick, no [commit]),
    prints its summary with one record skipped, and closes the
    connection; the table is left with [tts_ok = false] for the
    record. *)
Lemma reconciled_update_lost_at_close :
  log (main Sample.speaks Sample.clock Sample.defaults [Sample.pending 1]
         Sample.dir_with_1)
    = [ EvSelect [Sample.pending 1];
        EvUpdate 1 Reconciled;
        EvPbar 1 {| processed := 1; done_ := 0; skipped := 1; failed := 0 |} ] ∧
  exit (main Sample.speaks Sample.clock Sample.defaults [Sample.pending 1]
          Sample.dir_with_1)
    = Finished (summary 1 {| processed := 1; done_ := 0; skipped := 1;
                             failed := 0 |}) ∧
  committed (conn (final (main Sample.speaks Sample.clock Sample.defaults
                            [Sample.pending 1] Sample.dir_with_1)))
    = [Sample.pending 1].
Proof. by vm_compute. Qed.

(** *** Rows of a page *)

Lemma or_0_Some a : or_0 (Some a) = a.
Proof. unfold or_0. destruct (Z.eqb_spec a 0); congruence. Qed.

(** The [for] loop over a page cut in two. *)
Lemma for_rows_app provider sleep cfg target l1 l2 st :
  for_rows provider sleep cfg target (l1 ++ l2) st =
    match for_rows provider sleep cfg target l1 st with
    | (Normal, st1, ev1) =>
        let '(s2, st2, ev2) := for_rows provider sleep cfg target l2 st1 in
        (s2, st2, ev1 ++ ev2)
    | stopped => stopped
    end.
Proof.
  revert st. induction l1 as [|row l1 IH]; intros st; simpl.
  - by destruct (for_rows provider sleep cfg target l2 st) as [[s2 st2] ev2].
  - destruct (Z.leb_spec target (processed (counters st))) as [Hge|Hlt].
    + destruct l2 as [|row2 l2]; simpl; [done|].
      by destruct (Z.leb_spec target (processed (counters st))); [|lia].
    + destruct (process_row provider sleep cfg row st) as [[s1 st1] ev1].
      destruct s1; try done.
      rewrite IH.
      destruct (for_rows provider sleep cfg target l1 st1)
        as [[s2 st2] ev2].
      destruct s2; try done.
      destruct (for_rows provider sleep cfg target l2 st2)
        as [[s3 st3] ev3].
      by rewrite app_assoc.
Qed.

(** When the loop comes to a row of the page, the row is still in the
    table as it was fetched, and the ids are still unique. *)
Lemma fetched_row_is_current
    provider sleep cfg target st0 pre row post s st evs0 :
  NoDup (ids (session (conn st0))) →
  select_page (max_attempts cfg) (batch_size cfg) (session (conn st0))
    = Some (pre ++ row :: post) →
  for_rows provider sleep cfg target pre st0 = (s, st, evs0) →
  NoDup (ids (session (conn st))) ∧
  row ∈ session (conn st) ∧
  eligible (max_attempts cfg) row.
Proof.
  intros Hnd Hsel Hpre.
  pose proof (select_page_NoDup _ _ _ _ Hsel Hnd) as Hndp.
  assert (Hin : row ∈ pre ++ row :: post)
    by (apply elem_of_app; right; left).
  destruct (elem_of_select_page _ _ _ _ _ Hsel Hin) as [Hrow Hp].
  unfold ids in Hndp. rewrite fmap_app, fmap_cons in Hndp.
  apply NoDup_app in Hndp as (_ & Hfresh & _).
  assert (Hnot : id row ∉ ids pre).
  { intros Hmem. apply (Hfresh _ Hmem). left. }
  destruct (for_rows_elsewhere provider sleep cfg (id row) _ _ _ _ _ _
              Hnot Hpre) as [[Hsame _] _].
  split; [by rewrite (for_rows_ids _ _ _ _ _ _ _ _ _ Hpre)|].
  split; [by apply Hsame|]. by apply where_pending_eligible.
Qed.

Example failed_synthesis_text :
  synthesize_to_file Sample.refuses 0 "hola" "000001.mp3"
  = (false,
     Some "TTS failed, reason=ResultReason.Canceled, cancel_reason=CancellationReason.Error, details=quota exceeded").
Proof. vm_compute. reflexivity. Qed.

(** *** C1 *)

(** C1, counterexample. Two pending records, pages of one, a provider
    that cancels: record 1 fails with attempts left, is the first
    eligible row again, and is fetched and synthesized a second time in
    the same run. *)
Lemma failed_record_fetched_again :
  ¬ never_again
      (log (main Sample.refuses Sample.clock Sample.one_by_one
              [Sample.pending 1; Sample.pending 2] Sample.empty_dir)).
Proof.
  set (evs := log (main Sample.refuses Sample.clock Sample.one_by_one
                     [Sample.pending 1; Sample.pending 2] Sample.empty_dir)).
  intros Hnever.
  specialize (Hnever (take 4 evs) 1
                {| processed := 1; done_ := 0; skipped := 0; failed := 1 |}
                (drop 5 evs) ltac:(by vm_compute)).
  assert (Hspeak : EvSpeak 1 "hola" "000001.mp3" ∈ drop 5 evs).
  { vm_compute. do 2 right. left. }
  rewrite Forall_forall in Hnever. by apply (Hnever _ Hspeak).
Qed.

Example failed_record_fetched_again_log :
  log (main Sample.refuses Sample.clock Sample.one_by_one
         [Sample.pending 1; Sample.pending 2] Sample.empty_dir)
  = let err := Some "TTS failed, reason=ResultReason.Canceled, cancel_reason=CancellationReason.Error, details=quota exceeded" in
    [ EvSelect [Sample.pending 1];
      EvSpeak 1 "hola" "000001.mp3";
      EvUpdate 1 (Failure 1 err);
      EvCommit;
      EvPbar 1 {| processed := 1; done_ := 0; skipped := 0; failed := 1 |};
      EvSleep 5;
      EvSelect [ {| id := 1; phrase := Some "hola"; tts_ok := false;
                    tts_attempts := Some 1; tts_error := err |} ];
      EvSpeak 1 "hola" "000001.mp3";
      EvUpdate 1 (Failure 2 err);
      EvCommit;
      EvPbar 1 {| processed := 2; done_ := 0; skipped := 0; failed := 2 |};
      EvSleep 5 ].
Proof. by vm_compute. Qed.

(** The same in dry-run, where nothing is ever advanced: with pages of
    one, record 1 is previewed twice and record 2 never. *)
Example dry_run_previews_first_page_again :
  log (main Sample.speaks Sample.clock
         {| out_dir := "out"; language := "es-ES"; voice := "v";
            batch_size := 1; max_phrases := 0; max_attempts := 5;
            sleep_on_error := 5; dry_run := true |}
         [Sample.pending 1; Sample.pending 2] Sample.empty_dir)
  = [ EvSelect [Sample.pending 1];
      EvPreview 1 0 "hola";
      EvPbar 1 {| processed := 1; done_ := 0; skipped := 1; failed := 0 |};
      EvSelect [Sample.pending 1];
      EvPreview 1 0 "hola";
      EvPbar 1 {| processed := 2; done_ := 0; skipped := 2; failed := 0 |} ].
Proof. by vm_compute. Qed.

(** C1, amended. In a run over a table with unique ids, after the
    [UPDATE] that takes a record out of the eligible set (it sets
    [tts_ok = true], by reconciliation or after a successful synthesis,
    or it stores an attempt count that has reached [max_attempts]), no
    page query returns the record and it is not previewed, synthesized
    or updated again. *)
Theorem advanced_record_not_revisited provider sleep cfg db d l1 pid u l2 :
  NoDup (ids db) →
  log (main provider sleep cfg db d) = l1 ++ EvUpdate pid u :: l2 →
  advancing cfg u →
  Forall (λ e, ¬ revisits pid e) l2.
Proof.
  intros Hnd Hlog Hadv.
  destruct (decide (total_target cfg db = 0)) as [H0|Hne].
  { rewrite main_nothing in Hlog by done. simpl in Hlog.
    by destruct l1. }
  destruct (main_loop provider sleep cfg db d Hne)
    as (status & st & evs & Hloop & _ & Hmain).
  rewrite Hmain in Hlog. simpl in Hlog.
  eapply while_loop_once_advanced in Hloop as [Honce _]; [|exact Hnd].
  by eapply once_advanced_split.
Qed.

Lemma advanced_record_not_revisited_witness :
  Forall (λ e, ¬ revisits 1 e)
    (drop 3 (log (main Sample.speaks Sample.clock Sample.one_by_one
                    [Sample.pending 1; Sample.pending 2] Sample.empty_dir))).
Proof.
  apply (advanced_record_not_revisited Sample.speaks Sample.clock
           Sample.one_by_one
           [Sample.pending 1; Sample.pending 2] Sample.empty_dir
           (take 2 (log (main Sample.speaks Sample.clock Sample.one_by_one
                           [Sample.pending 1; Sample.pending 2]
                           Sample.empty_dir)))
           1 (Success 1)).
  - apply (bool_decide_unpack _). vm_compute. exact I.
  - by vm_compute.
  - exact I.
Defined.

End Claims.

(** ** The log and the state together *)

Section History.
Import Db Azure Fs Text Driver Trace Tally.

Variable provider : Provider.
Variable sleep : Clock.
Variable cfg : Config.

(** A relation [I] between the state and the log written so far that
    the loop body keeps, for the rows the [WHERE] clause accepts and
    under the guard of line 219, is kept by the [for] loop. *)
Lemma for_rows_history (target : Z) (I : State → list Event → Prop) :
  (∀ row st s st' evs h,
      I st h → where_pending (max_attempts cfg) row = true →
      processed (counters st) < target →
      process_row provider sleep cfg row st = (s, st', evs) →
      I st' (h ++ evs)) →
  ∀ rows st s st' evs h,
    Forall (λ r, where_pending (max_attempts cfg) r = true) rows →
    I st h →
    for_rows provider sleep cfg target rows st = (s, st', evs) →
    I st' (h ++ evs).
Proof.
  intros Hstep rows.
  induction rows as [|row rest IH]; intros st s st' evs h HR HI Hrun;
    simpl in Hrun.
  - injection Hrun as <- <- <-. by rewrite app_nil_r.
  - destruct (Z.leb_spec target (processed (counters st))).
    + injection Hrun as <- <- <-. by rewrite app_nil_r.
    + destruct (process_row provider sleep cfg row st)
        as [[s1 st1] ev1] eqn:Hrow.
      apply Forall_cons in HR as [Hr HR].
      pose proof (Hstep _ _ _ _ _ _ HI Hr ltac:(done) Hrow) as HI1.
      destruct s1; try (by injection Hrun as <- <- <-).
      destruct (for_rows provider sleep cfg target rest st1)
        as [[s2 st2] ev2] eqn:Hrest.
      injection Hrun as <- <- <-.
      rewrite app_assoc. by eapply IH.
Qed.

(** The same for the [while] loop, when [I] is also kept by writing a
    page query to the log. *)
Lemma while_loop_history (target : Z) (I : State → list Event → Prop) :
  (∀ row st s st' evs h,
      I st h → where_pending (max_attempts cfg) row = true →
      processed (counters st) < target →
      process_row provider sleep cfg row st = (s, st', evs) →
      I st' (h ++ evs)) →
  (∀ st h rows, I st h → I st (h ++ [EvSelect rows])) →
  ∀ fuel st status st' evs h,
    I st h →
    while_loop provider sleep cfg target fuel st = (status, st', evs) →
    I st' (h ++ evs).
Proof.
  intros Hstep Hsel fuel.
  induction fuel as [|fuel IH]; intros st status st' evs h HI Hrun;
    simpl in Hrun.
  - injection Hrun as <- <- <-. by rewrite app_nil_r.
  - destruct (processed (counters st) <? target).
    2:{ injection Hrun as <- <- <-. by rewrite app_nil_r. }
    destruct (select_page _ _ _) as [rows|] eqn:Hpage.
    2:{ injection Hrun as <- <- <-. by rewrite app_nil_r. }
    assert (HR : Forall (λ r, where_pending (max_attempts cfg) r = true) rows).
    { apply Forall_forall. intros r Hr.
      by destruct (elem_of_select_page _ _ _ _ _ Hpage Hr). }
    destruct rows as [|row rest].
    { injection Hrun as <- <- <-. by apply Hsel. }
    destruct (for_rows provider sleep cfg target (row :: rest) st)
      as [[s1 st1] ev1] eqn:Hrows.
    assert (HI1 : I st1 ((h ++ [EvSelect (row :: rest)]) ++ ev1)).
    { eapply (for_rows_history target I Hstep); [done| |done].
      by apply Hsel. }
    rewrite <- app_assoc in HI1.
    destruct s1; try (by injection Hrun as <- <- <-).
    destruct (while_loop provider sleep cfg target fuel st1)
      as [[status2 st2] ev2] eqn:Hloop.
    injection Hrun as <- <- <-.
    replace (h ++ EvSelect (row :: rest) :: ev1 ++ ev2)
      with ((h ++ [EvSelect (row :: rest)] ++ ev1) ++ ev2)
      by (by rewrite <- !app_assoc).
    by eapply IH.
Qed.

Lemma count_app f l1 l2 : count f (l1 ++ l2) = count f l1 + count f l2.
Proof. induction l1 as [|e l1 IH]; simpl; lia. Qed.

Lemma process_row_counted row st s st' evs h :
  counted st h →
  process_row provider sleep cfg row st = (s, st', evs) →
  counted st' (h ++ evs).
Proof.
  unfold counted. intros (Hp & Hd & Hf & Hs & Hn & Hc & Hk) Hrow.
  rewrite !count_app.
  row_cases Hrow; simpl.
  - repeat split; lia.
  - repeat split; lia.
  - repeat split; lia.
  - destruct ok; simpl; try destruct (Qle_bool _ _); simpl;
      repeat split; lia.
  - repeat split; lia.
Qed.

Lemma while_loop_counted target fuel st status st' evs h :
  counted st h →
  while_loop provider sleep cfg target fuel st = (status, st', evs) →
  counted st' (h ++ evs).
Proof.
  intros Hc Hloop.
  eapply (while_loop_history target counted); [| |exact Hc|exact Hloop].
  - intros row st1 s1 st2 ev1 h1 HI _ _ Hrow. by eapply process_row_counted.
  - intros st1 h1 rows. unfold counted. rewrite !count_app. simpl.
    intros (? & ? & ? & ? & ? & ? & ?). repeat split; lia.
Qed.

Lemma process_row_sleeps row st s st' evs :
  process_row provider sleep cfg row st = (s, st', evs) →
  count is_sleep evs =
    if Qle_bool (sleep_on_error cfg) 0 then 0
    else failed (counters st') - failed (counters st).
Proof.
  intros Hrow. row_cases Hrow; simpl.
  - destruct (Qle_bool _ _); lia.
  - destruct (Qle_bool _ _); lia.
  - destruct (Qle_bool _ _); lia.
  - destruct ok; simpl; destruct (Qle_bool _ _); simpl; lia.
  - destruct (Qle_bool _ _); lia.
Qed.

End History.

(** ** More about the driver *)

Section MoreDriver.
Import Db Azure Fs Text Driver Trace Tally Spec.

(** X1. At the end of every run each counter is the number of the
    matching events of the log: [processed] of progress ticks, [done]
    of success updates, [failed] of failure updates, [skipped] of
    reconciliations and previews; and the provider was called, and the
    transaction committed, exactly [done + failed] times. *)
Theorem counters_match_log provider sleep cfg db d :
  counted (final (main provider sleep cfg db d))
    (log (main provider sleep cfg db d)).
Proof.
  destruct (decide (total_target cfg db = 0)) as [H0|Hne].
  { rewrite main_nothing by done. by repeat split. }
  destruct (main_loop provider sleep cfg db d Hne)
    as (status & st & evs & Hloop & _ & ->). simpl.
  change (counted st ([] ++ evs)).
  eapply while_loop_counted; [|exact Hloop]. by repeat split.
Qed.

(** X2. The run sleeps once after each failed synthesis when
    [--sleep-on-error] is positive, and never otherwise: not after a
    success, a reconciliation or a preview. *)
Theorem one_sleep_per_failure provider sleep cfg db d :
  count is_sleep (log (main provider sleep cfg db d)) =
    if Qle_bool (sleep_on_error cfg) 0 then 0
    else failed (counters (final (main provider sleep cfg db d))).
Proof.
  destruct (decide (total_target cfg db = 0)) as [H0|Hne].
  { rewrite main_nothing by done. simpl. by destruct (Qle_bool _ _). }
  destruct (main_loop provider sleep cfg db d Hne)
    as (status & st & evs & Hloop & _ & ->). simpl.
  change (count is_sleep ([] ++ evs) =
            if Qle_bool (sleep_on_error cfg) 0 then 0
            else failed (counters st)).
  eapply (while_loop_history provider sleep cfg _
            (λ st1 h, count is_sleep h =
                        if Qle_bool (sleep_on_error cfg) 0 then 0
                        else failed (counters st1)));
    [| | |exact Hloop].
  - intros row st1 s1 st2 ev1 h HI _ _ Hrow.
    rewrite count_app, HI, (process_row_sleeps _ _ _ _ _ _ _ _ Hrow).
    destruct (Qle_bool _ _); lia.
  - intros st1 h rows HI. rewrite count_app. simpl. lia.
  - simpl. by destruct (Qle_bool _ _).
Qed.

Lemma Forall_update_where_id (P : Row → Prop) set pid t :
  Forall P t → (∀ r, P r → id r = pid → P (set r)) →
  Forall P (update_where_id set pid t).
Proof.
  intros Ht Hset. apply Forall_forall. intros r Hr.
  rewrite Forall_forall in Ht.
  apply elem_of_update_where_id in Hr as [(r0 & Hr0 & Hid & ->)|[Hr _]]; auto.
Qed.

(** X3. No attempt count the driver stores is above [--max-attempts]:
    every [UPDATE] of the synthesis branch stores at most
    [max_attempts], so a table whose counts were within [max_attempts]
    is left within it. *)
Theorem attempts_stay_within_cap provider sleep cfg db d :
  Forall (within_cap cfg) (log (main provider sleep cfg db d)) ∧
  (Forall (attempts_at_most (max_attempts cfg)) db →
   Forall (attempts_at_most (max_attempts cfg))
     (committed (conn (final (main provider sleep cfg db d))))).
Proof.
  destruct (decide (total_target cfg db = 0)) as [H0|Hne].
  { rewrite main_nothing by done. simpl. by split. }
  destruct (main_loop provider sleep cfg db d Hne)
    as (status & st & evs & Hloop & _ & ->). simpl.
  eapply (while_loop_keeps provider sleep cfg _
            (λ st1, Forall (attempts_at_most (max_attempts cfg)) db →
                    Forall (attempts_at_most (max_attempts cfg))
                      (session (conn st1)) ∧
                    Forall (attempts_at_most (max_attempts cfg))
                      (committed (conn st1)))
            (within_cap cfg)
            (λ row, where_pending (max_attempts cfg) row = true))
    in Hloop as [HP HQ].
  - split; [done|]. intros Hdb. by apply HP.
  - intros row st1 s1 st2 ev1 Hrow HP _ Hrun.
    apply where_pending_eligible in Hrow as [_ (a & Ha & Hlt)].
    row_cases Hrun; simpl; try (by split).
    + split; [done|]. by repeat constructor.
    + split; [|by repeat constructor].
      intros Hdb. destruct (HP Hdb) as [Hs Hc]. split; [|done].
      apply Forall_update_where_id; [done|]. by intros r Hr _.
    + rewrite Ha, or_0_Some.
      split.
      * intros Hdb. destruct (HP Hdb) as [Hs Hc].
        assert (Hnew : Forall (attempts_at_most (max_attempts cfg))
                  (update_where_id
                     (setter (if ok then Success (a + 1)
                              else Failure (a + 1) err))
                     (id row) (session (conn st1)))).
        { apply Forall_update_where_id; [done|].
          intros r _ _. unfold attempts_at_most. destruct ok; simpl; lia. }
        by split.
      * constructor; [done|]. constructor; [destruct ok; simpl; lia|].
        constructor; [done|]. constructor; [done|].
        destruct (negb ok && _); by repeat constructor.
  - intros st1 rows _ Hsel. split; [done|].
    apply Forall_forall. intros r Hr.
    by destruct (elem_of_select_page _ _ _ _ _ Hsel Hr).
  - intros Hdb. by split.
Qed.

Lemma attempts_stay_within_cap_witness :
  Forall (attempts_at_most 5)
    (committed (conn (final (main Sample.refuses Sample.clock Sample.one_by_one
                              [Sample.pending 1; Sample.pending 2]
                              Sample.empty_dir)))).
Proof.
  apply (attempts_stay_within_cap Sample.refuses Sample.clock Sample.one_by_one
           [Sample.pending 1; Sample.pending 2] Sample.empty_dir).
  repeat constructor; unfold attempts_at_most; simpl; lia.
Defined.

End MoreDriver.

(** ** Ids and phrases *)

Section Phrases.
Import Db Azure Fs Text Driver Trace Tally Spec.

Lemma id_phrase_update_where_id u pid t :
  (λ r, (id r, phrase r)) <$> update_where_id (setter u) pid t
  = (λ r, (id r, phrase r)) <$> t.
Proof.
  unfold update_where_id. rewrite <- list_fmap_compose.
  apply list_fmap_ext. intros i r _. simpl.
  case_bool_decide; [|done]. by destruct u.
Qed.

Lemma process_row_id_phrase provider sleep cfg row st s st' evs :
  process_row provider sleep cfg row st = (s, st', evs) →
  (λ r, (id r, phrase r)) <$> session (conn st')
  = (λ r, (id r, phrase r)) <$> session (conn st).
Proof.
  intros Hrow. row_cases Hrow; simpl; try done.
  - apply (id_phrase_update_where_id Reconciled).
  - apply id_phrase_update_where_id.
Qed.

(** A table with the ids and the phrases of a table without [NULL]
    phrase has none either. *)
Lemma phrases_not_null_same (t db : Table) :
  (λ r, (id r, phrase r)) <$> t = (λ r, (id r, phrase r)) <$> db →
  phrases_not_null db → phrases_not_null t.
Proof.
  intros Hsame Hdb r Hr.
  apply (list_elem_of_fmap_2 (λ r, (id r, phrase r))) in Hr.
  rewrite Hsame in Hr.
  apply list_elem_of_fmap in Hr as (r0 & [= _ ->] & Hr0). by apply Hdb.
Qed.

End Phrases.

(** ** How a run ends *)

Section RunEnds.
Import Db Azure Fs Text Driver Trace Tally Spec.

(** With a phrase and a sleep that returns, the loop body does not
    raise. *)
Lemma process_row_normal provider sleep cfg row st s st' evs :
  sleep_returns sleep cfg →
  phrase row ≠ None →
  process_row provider sleep cfg row st = (s, st', evs) →
  s = Normal.
Proof.
  intros Hsleep Hphr Hrow. row_cases Hrow; try done.
  destruct ok; [done|]. simpl.
  destruct (Qle_bool (sleep_on_error cfg) 0) eqn:Hle; [done|].
  simpl. by rewrite Hsleep.
Qed.

Lemma while_loop_throws_at_once provider sleep cfg target fuel st :
  ¬ (0 ≤ batch_size cfg < 2 ^ 63) → processed (counters st) < target →
  while_loop provider sleep cfg target (S fuel) st = (Threw, st, []).
Proof.
  intros Hout Hlt. simpl.
  destruct (Z.ltb_spec (processed (counters st)) target); [|lia].
  by rewrite select_page_refused.
Qed.

Lemma update_where_id_elsewhere set pid t :
  pid ∉ ids t → update_where_id set pid t = t.
Proof.
  unfold ids, update_where_id. induction t as [|r t IH]; intros Hnot; [done|].
  rewrite fmap_cons in Hnot. apply not_elem_of_cons in Hnot as [Hne Hnot].
  rewrite fmap_cons, IH by done.
  by rewrite bool_decide_eq_false_2 by congruence.
Qed.

(** With unique ids an [UPDATE ... WHERE id = %s] rewrites one row at
    most, so the count of pending rows goes down by one at most. *)
Lemma select_count_update m set pid t :
  NoDup (ids t) →
  select_count m t ≤ select_count m (update_where_id set pid t) + 1.
Proof.
  unfold select_count, ids, Table.
  induction t as [|r t IH]; intros Hnd; [simpl; lia|].
  rewrite fmap_cons in Hnd. apply NoDup_cons in Hnd as [Hfresh Hnd].
  destruct (decide (id r = pid)) as [<-|Hne].
  - change (update_where_id set (id r) (r :: t))
      with ((if bool_decide (id r = id r) then set r else r)
              :: update_where_id set (id r) t).
    rewrite update_where_id_elsewhere by done.
    rewrite !filter_cons. repeat case_decide; simpl; lia.
  - change (update_where_id set pid (r :: t))
      with ((if bool_decide (id r = pid) then set r else r)
              :: update_where_id set pid t).
    rewrite bool_decide_eq_false_2 by done.
    specialize (IH Hnd). rewrite !filter_cons.
    case_decide; simpl; lia.
Qed.

Lemma process_row_pending provider sleep cfg row st s st' evs :
  NoDup (ids (session (conn st))) →
  process_row provider sleep cfg row st = (s, st', evs) →
  pending_now cfg st ≤ pending_now cfg st' + 1.
Proof.
  unfold pending_now. intros Hnd Hrow. row_cases Hrow; simpl; try lia.
  - by apply select_count_update.
  - by apply select_count_update.
Qed.

Lemma select_page_empty m b t :
  0 < b → select_page m b t = Some [] → select_count m t = 0.
Proof.
  unfold select_count. intros Hb Hsel.
  apply select_page_Some in Hsel as [_ Htake].
  apply (f_equal length) in Htake. rewrite length_take in Htake.
  pose proof (Permutation_length
                (merge_sort_Permutation by_id
                   (filter (λ r, where_pending m r) t))) as Hlen.
  simpl in Htake. lia.
Qed.

(** When the [while] loop ends by itself, the target is reached or the
    last page was empty. *)
Lemma while_loop_ends provider sleep cfg target fuel st st' evs :
  while_loop provider sleep cfg target fuel st = (Normal, st', evs) →
  target ≤ processed (counters st') ∨
  select_page (max_attempts cfg) (batch_size cfg) (session (conn st'))
    = Some [].
Proof.
  revert st st' evs.
  induction fuel as [|fuel IH]; intros st st' evs Hrun; simpl in Hrun;
    [discriminate|].
  destruct (Z.ltb_spec (processed (counters st)) target).
  2:{ injection Hrun as <- <-. by left. }
  destruct (select_page _ _ _) as [[|row rest]|] eqn:Hsel; [| |discriminate].
  - injection Hrun as <- <-. by right.
  - destruct (for_rows provider sleep cfg target (row :: rest) st)
      as [[s1 st1] ev1].
    destruct s1; try discriminate.
    destruct (while_loop provider sleep cfg target fuel st1)
      as [[status2 st2] ev2] eqn:Hloop.
    injection Hrun as -> <- <-. by eapply IH.
Qed.

Lemma total_target_le_pending cfg db :
  total_target cfg db ≤ total_pending cfg db.
Proof.
  unfold total_target.
  destruct (0 <? max_phrases cfg); simpl; [|lia].
  destruct (Z.ltb_spec (max_phrases cfg) (total_pending cfg db)); lia.
Qed.

(** A run reaches its target and prints its summary when the page
    query is accepted, with a positive [LIMIT], and the loop body, on
    the rows it is given (in [R], from states in [P]), does not raise
    and takes one row at most out of the eligible set. *)
Lemma main_reaches provider sleep cfg db d
    (P : State → Prop) (R : Row → Prop) :
  (∀ row st s st' evs,
      R row → P st → processed (counters st) < total_target cfg db →
      process_row provider sleep cfg row st = (s, st', evs) →
      P st' ∧ s = Normal ∧ pending_now cfg st ≤ pending_now cfg st' + 1) →
  (∀ st rows,
      P st →
      select_page (max_attempts cfg) (batch_size cfg) (session (conn st))
        = Some rows →
      Forall R rows) →
  0 < batch_size cfg < 2 ^ 63 →
  P {| conn := connect db; dir := mkdir d; ncalls := 0; counters := zero |} →
  processed (counters (final (main provider sleep cfg db d)))
    = total_target cfg db ∧
  (total_target cfg db ≠ 0 →
   exit (main provider sleep cfg db d)
   = Finished (summary (total_target cfg db)
                 (counters (final (main provider sleep cfg db d))))).
Proof.
  intros Hstep Hpage Hlimit HP0.
  destruct (decide (total_target cfg db = 0)) as [H0|Hne].
  { rewrite main_nothing by done. simpl. split; [lia|done]. }
  destruct (main_loop provider sleep cfg db d Hne)
    as (status & st & evs & Hloop & Hfuel & ->). simpl.
  pose proof Hloop as Hsafe.
  eapply (while_loop_safe provider sleep cfg _
            (λ st1, P st1 ∧
                    total_pending cfg db
                    ≤ pending_now cfg st1 + processed (counters st1)) R)
    in Hsafe as [[_ Hpend] Hthrew].
  - destruct status; [|done|done]. split; [|done].
    pose proof Hloop as Hbal.
    eapply while_loop_balanced in Hbal as [[_ Hle] _];
      [|apply balanced_zero].
    destruct (while_loop_ends _ _ _ _ _ _ _ _ Hloop) as [Hge|Hempty]; [lia|].
    apply select_page_empty in Hempty; [|lia].
    unfold pending_now in Hpend.
    pose proof (total_target_le_pending cfg db). lia.
  - intros row st1 s1 st2 ev1 Hr [HP1 Hp1] Hlt Hrow.
    destruct (Hstep _ _ _ _ _ Hr HP1 Hlt Hrow) as (HP2 & -> & Hp2).
    pose proof (process_row_processed _ _ _ _ _ _ _ Hrow).
    split; [|done]. split; [done|lia].
  - intros st1 rows [HP1 _] Hsel. by eapply Hpage.
  - lia.
  - split; [done|]. unfold pending_now, total_pending. simpl. lia.
Qed.

(** A run over a table with unique ids and no [NULL] phrase, with a
    sleep that returns. *)
Lemma main_run_reaches provider sleep cfg db d :
  NoDup (ids db) →
  phrases_not_null db →
  sleep_returns sleep cfg →
  0 < batch_size cfg < 2 ^ 63 →
  processed (counters (final (main provider sleep cfg db d)))
    = total_target cfg db ∧
  (total_target cfg db ≠ 0 →
   exit (main provider sleep cfg db d)
   = Finished (summary (total_target cfg db)
                 (counters (final (main provider sleep cfg db d))))).
Proof.
  intros Hnd Hnull Hsleep Hlimit.
  apply (main_reaches provider sleep cfg db d
           (λ st, NoDup (ids (session (conn st))) ∧
                  (λ r, (id r, phrase r)) <$> session (conn st)
                  = (λ r, (id r, phrase r)) <$> db)
           (λ row, phrase row ≠ None)); [| |done|by split].
  - intros row st s st' evs Hphr [Hnd1 Hsame] _ Hrow.
    pose proof (process_row_ids _ _ _ _ _ _ _ _ Hrow) as Hids.
    pose proof (process_row_id_phrase _ _ _ _ _ _ _ _ Hrow) as Hkey.
    split; [split; congruence|].
    split; [by eapply process_row_normal|by eapply process_row_pending].
  - intros st rows [_ Hsame] Hsel. apply Forall_forall. intros r Hr.
    destruct (elem_of_select_page _ _ _ _ _ Hsel Hr) as [Hin _].
    by apply (phrases_not_null_same _ _ Hsame Hnull).
Qed.

(** For the summary alone the ids need not be unique. *)
Lemma main_run_finishes provider sleep cfg db d :
  total_target cfg db ≠ 0 →
  limit_accepted cfg →
  phrases_not_null db →
  sleep_returns sleep cfg →
  exit (main provider sleep cfg db d)
  = Finished (summary (total_target cfg db)
                (counters (final (main provider sleep cfg db d)))).
Proof.
  intros Hne Hlimit Hnull Hsleep.
  destruct (main_loop provider sleep cfg db d Hne)
    as (status & st & evs & Hloop & Hfuel & ->). simpl.
  eapply (while_loop_safe provider sleep cfg _
            (λ st1, (λ r, (id r, phrase r)) <$> session (conn st1)
                    = (λ r, (id r, phrase r)) <$> db)
            (λ row, phrase row ≠ None))
    in Hloop as [_ Hthrew]; [by destruct status| | |done|done].
  - intros row st1 s1 st2 ev1 Hphr Hsame _ Hrow.
    pose proof (process_row_id_phrase _ _ _ _ _ _ _ _ Hrow) as Hkey.
    split; [congruence|]. by eapply process_row_normal.
  - intros st1 rows Hsame Hsel. apply Forall_forall. intros r Hr.
    destruct (elem_of_select_page _ _ _ _ _ Hsel Hr) as [Hin _].
    by apply (phrases_not_null_same _ _ Hsame Hnull).
Qed.

(** A dry run in which no eligible row has a [NULL] phrase. *)
Lemma main_dry_run_reaches provider sleep cfg db d :
  dry_run cfg = true →
  (∀ r, r ∈ db → eligible (max_attempts cfg) r → phrase r ≠ None) →
  0 < batch_size cfg < 2 ^ 63 →
  processed (counters (final (main provider sleep cfg db d)))
    = total_target cfg db ∧
  (total_target cfg db ≠ 0 →
   exit (main provider sleep cfg db d)
   = Finished (summary (total_target cfg db)
                 (counters (final (main provider sleep cfg db d))))).
Proof.
  intros Hdry Hnull Hlimit.
  apply (main_reaches provider sleep cfg db d
           (λ st, conn st = connect db)
           (λ row, phrase row ≠ None)); [| |done|done].
  - intros row st s st' evs Hphr Hconn _ Hrow.
    unfold pending_now. row_cases Hrow; try congruence.
    simpl. repeat split; [done|lia].
  - intros st rows Hconn Hsel. rewrite Hconn in Hsel. simpl in Hsel.
    apply Forall_forall. intros r Hr.
    destruct (elem_of_select_page _ _ _ _ _ Hsel Hr) as [Hin Hp].
    apply Hnull; [done|]. by apply where_pending_eligible.
Qed.

(** X4. [main] always comes to an end: with "Nothing to do" exactly
    when [total_target = 0]; otherwise by the exception of the page
    query, nothing being done, when [--batch-size] is negative or not
    a [bigint]; and with the summary when the page query is accepted,
    the table has no [NULL] phrase and the sleep after a failure
    returns. *)
Theorem exit_of_main provider sleep cfg db d :
  exit (main provider sleep cfg db d) ≠ Diverged ∧
  (exit (main provider sleep cfg db d) = NothingToDo
   ↔ total_target cfg db = 0) ∧
  (total_target cfg db ≠ 0 → ¬ limit_accepted cfg →
   exit (main provider sleep cfg db d) = Raised ∧
   log (main provider sleep cfg db d) = []) ∧
  (total_target cfg db ≠ 0 → limit_accepted cfg →
   phrases_not_null db → sleep_returns sleep cfg →
   exit (main provider sleep cfg db d)
   = Finished (summary (total_target cfg db)
                 (counters (final (main provider sleep cfg db d))))).
Proof.
  split; [apply main_terminates|]. split; [|split].
  - split.
    + intros Hexit. destruct (decide (total_target cfg db = 0)) as [|Hne];
        [done|].
      destruct (main_loop provider sleep cfg db d Hne)
        as (status & st & evs & _ & _ & Hmain).
      rewrite Hmain in Hexit. simpl in Hexit. by destruct status.
    + intros H0. by rewrite main_nothing.
  - intros Hne Hout.
    destruct (main_loop provider sleep cfg db d Hne)
      as (status & st & evs & Hloop & Hfuel & ->). simpl.
    rewrite while_loop_throws_at_once in Hloop; [|done|].
    + by injection Hloop as <- <- <-.
    + simpl. pose proof (total_target_nonneg cfg db). lia.
  - apply main_run_finishes.
Qed.

Lemma exit_of_main_witness :
  exit (main Sample.refuses Sample.clock Sample.long_nap
          [Sample.pending 1] Sample.empty_dir) ≠ Diverged ∧
  exit (main Sample.refuses Sample.clock Sample.one_by_one
          [Sample.pending 1; Sample.pending 2] Sample.empty_dir)
  = Finished (summary 2 {| processed := 2; done_ := 0; skipped := 0;
                           failed := 2 |}).
Proof.
  split.
  - apply (exit_of_main Sample.refuses Sample.clock Sample.long_nap
             [Sample.pending 1] Sample.empty_dir).
  - apply (exit_of_main Sample.refuses Sample.clock Sample.one_by_one
             [Sample.pending 1; Sample.pending 2] Sample.empty_dir).
    + by vm_compute.
    + by vm_compute.
    + intros r Hr. log_mem Hr; by subst r.
    + intros _. reflexivity.
Defined.

(** X5. With a negative [--batch-size] nothing is processed, whatever
    is pending: the log is empty, the table and the files are as they
    were, the counters are zero, and no summary is printed. *)
Theorem negative_batch_size_does_nothing provider sleep cfg db d :
  batch_size cfg < 0 →
  log (main provider sleep cfg db d) = [] ∧
  committed (conn (final (main provider sleep cfg db d))) = db ∧
  files (dir (final (main provider sleep cfg db d))) = files d ∧
  counters (final (main provider sleep cfg db d)) = zero ∧
  ∀ report, exit (main provider sleep cfg db d) ≠ Finished report.
Proof.
  intros Hneg.
  destruct (decide (total_target cfg db = 0)) as [H0|Hne].
  { rewrite main_nothing by done. simpl. by repeat split. }
  destruct (main_loop provider sleep cfg db d Hne)
    as (status & st & evs & Hloop & Hfuel & ->). simpl.
  rewrite while_loop_throws_at_once in Hloop; [|lia|].
  - injection Hloop as <- <- <-. simpl. by repeat split.
  - simpl. pose proof (total_target_nonneg cfg db). lia.
Qed.

Lemma negative_batch_size_does_nothing_witness :
  log (main Sample.speaks Sample.clock
         {| out_dir := "out"; language := "es-ES"; voice := "v";
            batch_size := -1; max_phrases := 0; max_attempts := 5;
            sleep_on_error := 5; dry_run := false |}
         [Sample.pending 1] Sample.empty_dir) = [].
Proof.
  apply (negative_batch_size_does_nothing Sample.speaks Sample.clock
           {| out_dir := "out"; language := "es-ES"; voice := "v";
              batch_size := -1; max_phrases := 0; max_attempts := 5;
              sleep_on_error := 5; dry_run := false |}
           [Sample.pending 1] Sample.empty_dir).
  simpl. lia.
Defined.

(** X6. With [--batch-size 0] and records pending, the run makes one
    page query, which is empty, handles no record, changes nothing and
    prints a summary with the three counters at 0. *)
Theorem zero_batch_size_processes_nothing provider sleep cfg db d :
  batch_size cfg = 0 →
  total_target cfg db ≠ 0 →
  log (main provider sleep cfg db d) = [EvSelect []] ∧
  committed (conn (final (main provider sleep cfg db d))) = db ∧
  files (dir (final (main provider sleep cfg db d))) = files d ∧
  exit (main provider sleep cfg db d) =
    Finished (summary (total_target cfg db) zero).
Proof.
  intros Hzero Hne. unfold main.
  destruct (Z.eqb_spec (total_target cfg db) 0); [done|].
  pose proof (total_target_nonneg cfg db).
  cbn [while_loop counters processed zero].
  destruct (Z.ltb_spec 0 (total_target cfg db)); [|lia].
  rewrite select_page_accepted by lia. rewrite Hzero. by repeat split.
Qed.

Lemma zero_batch_size_processes_nothing_witness :
  log (main Sample.speaks Sample.clock
         {| out_dir := "out"; language := "es-ES"; voice := "v";
            batch_size := 0; max_phrases := 0; max_attempts := 5;
            sleep_on_error := 5; dry_run := false |}
         [Sample.pending 1] Sample.empty_dir) = [EvSelect []].
Proof.
  apply (zero_batch_size_processes_nothing Sample.speaks Sample.clock
           {| out_dir := "out"; language := "es-ES"; voice := "v";
              batch_size := 0; max_phrases := 0; max_attempts := 5;
              sleep_on_error := 5; dry_run := false |}
           [Sample.pending 1] Sample.empty_dir).
  - reflexivity.
  - by vm_compute.
Defined.

End RunEnds.

(** ** The run reaches its target *)

Section ReachesTarget.
Import Db Azure Fs Text Driver Trace Tally Spec.

(** X7. Over a table with unique ids and no [NULL] phrase, with a
    [--batch-size] from 1 to [2^63 - 1] and a sleep that returns, every
    run handles exactly [total_target] records (a record handled twice
    counted twice): the loop never stops short of the target. In
    particular, with [--max-phrases N] below the number of pending
    records, [processed = N]. *)
Theorem run_reaches_target provider sleep cfg db d :
  NoDup (ids db) →
  phrases_not_null db →
  sleep_returns sleep cfg →
  0 < batch_size cfg < 2 ^ 63 →
  processed (counters (final (main provider sleep cfg db d)))
  = total_target cfg db.
Proof.
  intros Hnd Hnull Hsleep Hlimit. by apply main_run_reaches.
Qed.

Lemma run_reaches_target_witness :
  processed
    (counters
       (final (main Sample.refuses Sample.clock
                 {| out_dir := "out"; language := "es-ES"; voice := "v";
                    batch_size := 2; max_phrases := 2; max_attempts := 5;
                    sleep_on_error := 5; dry_run := false |}
                 [Sample.pending 1; Sample.pending 2; Sample.pending 3]
                 Sample.empty_dir)))
  = 2.
Proof.
  apply (run_reaches_target Sample.refuses Sample.clock
           {| out_dir := "out"; language := "es-ES"; voice := "v";
              batch_size := 2; max_phrases := 2; max_attempts := 5;
              sleep_on_error := 5; dry_run := false |}
           [Sample.pending 1; Sample.pending 2; Sample.pending 3]
           Sample.empty_dir).
  - apply (bool_decide_unpack _). vm_compute. exact I.
  - intros r Hr. log_mem Hr; by subst r.
  - intros _. reflexivity.
  - by vm_compute.
Defined.

End ReachesTarget.

(** ** The page query and the success branch *)

Section PageAndSuccess.
Import Db Azure Fs Text Driver Trace Tally Spec.

(** X8. A page holds at most [batch_size] rows, in increasing order of
    id, all of them rows of the table that are eligible; no eligible
    row left out has a smaller id than a row of the page; and a page
    shorter than [batch_size] holds every eligible row. *)
Theorem page_is_lowest_pending m b t rows :
  select_page m b t = Some rows →
  (length rows ≤ Z.to_nat b)%nat ∧
  Sorted by_id rows ∧
  (∀ r, r ∈ rows → r ∈ t ∧ eligible m r) ∧
  (∀ r r', r ∈ rows → r' ∈ t → eligible m r' → r' ∉ rows → id r ≤ id r') ∧
  ((length rows < Z.to_nat b)%nat → ∀ r', r' ∈ t → eligible m r' → r' ∈ rows).
Proof.
  intros Hsel. pose proof (select_page_sorted _ _ _ _ Hsel) as Hsorted.
  assert (Helem : ∀ r, r ∈ rows → r ∈ t ∧ eligible m r).
  { intros r Hr. destruct (elem_of_select_page _ _ _ _ _ Hsel Hr).
    split; [done|]. by apply where_pending_eligible. }
  apply select_page_Some in Hsel as [_ ->].
  set (l := merge_sort by_id (filter (λ r, where_pending m r) t)) in *.
  assert (Hall : ∀ r', r' ∈ t → eligible m r' → r' ∈ l).
  { intros r' Hr' He. unfold l. rewrite merge_sort_Permutation.
    apply list_elem_of_filter. split; [|done].
    apply Is_true_true. by apply where_pending_eligible. }
  split; [rewrite length_take; lia|]. split; [done|]. split; [done|]. split.
  - intros r r' Hr Hr' He Hnot.
    assert (Hl : StronglySorted by_id (take (Z.to_nat b) l ++ drop (Z.to_nat b) l)).
    { rewrite take_drop. apply (StronglySorted_merge_sort by_id). }
    apply (StronglySorted_app_1_elem_of by_id _ _ r r' Hl Hr).
    specialize (Hall r' Hr' He).
    rewrite <- (take_drop (Z.to_nat b) l) in Hall.
    apply elem_of_app in Hall as [?|?]; done.
  - intros Hshort r' Hr' He. rewrite length_take in Hshort.
    rewrite take_ge by lia. by apply Hall.
Qed.

Lemma page_is_lowest_pending_witness :
  Sorted by_id [Sample.pending 1; Sample.pending 3].
Proof.
  apply (page_is_lowest_pending 5 2
           [Sample.pending 3; Sample.voiced 2; Sample.pending 1;
            Sample.pending 4]).
  reflexivity.
Defined.

(** X9. Outside dry-run, in a table with unique ids: when the loop
    comes to a fetched record that has a phrase and no audio file yet
    and the provider's result is [SynthesizingAudioCompleted], the row
    of that id is committed with [tts_ok = true], [tts_attempts] one
    more than it was and [tts_error = NULL]; [done] and [processed]
    grow by one, [failed] and [skipped] do not; the file is as the
    provider left it; and the run does not sleep and goes on. *)
Theorem successful_synthesis_recorded
    provider sleep cfg target st0 pre row text post st evs0 :
  dry_run cfg = false →
  NoDup (ids (session (conn st0))) →
  select_page (max_attempts cfg) (batch_size cfg) (session (conn st0))
    = Some (pre ++ row :: post) →
  for_rows provider sleep cfg target pre st0 = (Normal, st, evs0) →
  processed (counters st) < target →
  exists_nonempty (dir st) (out_file (id row)) = false →
  phrase row = Some text →
  reason (answer provider row text st) = SynthesizingAudioCompleted →
  ∃ a st' evs,
    process_row provider sleep cfg row st = (Normal, st', evs) ∧
    (∀ r0, r0 ∈ session (conn st) → id r0 = id row →
           tts_attempts r0 = Some a) ∧
    committed (conn st') = session (conn st') ∧
    {| id := id row; phrase := phrase row; tts_ok := true;
       tts_attempts := Some (a + 1); tts_error := None |}
      ∈ committed (conn st') ∧
    (∀ r, r ∈ committed (conn st') → id r = id row →
          tts_ok r = true ∧ tts_attempts r = Some (a + 1) ∧
          tts_error r = None) ∧
    counters st' =
      {| processed := processed (counters st) + 1;
         done_ := done_ (counters st) + 1;
         skipped := skipped (counters st);
         failed := failed (counters st) |} ∧
    dir st' = write (out_file (id row))
                (written (provider (ncalls st) text (out_file (id row))))
                (dir st) ∧
    count is_sleep evs = 0 ∧
    count is_call evs = 1.
Proof.
  intros Hdry Hnd0 Hsel Hpre Hlt Hart Hphr Hres.
  destruct (fetched_row_is_current _ _ _ _ _ _ _ _ _ _ _ Hnd0 Hsel Hpre)
    as (Hnd & Hin & Hok & a & Ha & Hcap).
  pose proof (synthesize_to_file_success provider (ncalls st) text
                (out_file (id row)) Hres) as Hsyn.
  pose proof (process_row_synth provider sleep cfg row text st true None
                Hart Hdry Hphr Hsyn) as E.
  cbv zeta in E. rewrite Ha, or_0_Some in E.
  exists a. eexists _, _. split; [exact E|]. simpl.
  split; [|split; [done|split; [|split]]].
  - intros r0 Hr0 Hid. by rewrite (ids_NoDup_inj _ r0 row Hnd Hr0 Hin Hid).
  - apply elem_of_update_where_id. left. by exists row.
  - intros r Hr Hid.
    apply elem_of_update_where_id in Hr as [(r0 & _ & _ & ->)|[_ Hne]];
      done.
  - done.
Qed.

Lemma successful_synthesis_recorded_witness :
  ∃ st' evs,
    process_row Sample.speaks Sample.clock Sample.defaults (Sample.pending 2)
      (Sample.start [Sample.voiced 1; Sample.pending 2] Sample.dir_with_1)
      = (Normal, st', evs) ∧
    {| id := 2; phrase := Some "hola"; tts_ok := true;
       tts_attempts := Some 1; tts_error := None |}
      ∈ committed (conn st').
Proof.
  destruct (successful_synthesis_recorded Sample.speaks Sample.clock
              Sample.defaults 1
              (Sample.start [Sample.voiced 1; Sample.pending 2]
                 Sample.dir_with_1)
              [] (Sample.pending 2) "hola" []
              (Sample.start [Sample.voiced 1; Sample.pending 2]
                 Sample.dir_with_1) [])
    as (a & st' & evs & Hrow & Ha & _ & Hin & _).
  - reflexivity.
  - apply (bool_decide_unpack _). vm_compute. exact I.
  - reflexivity.
  - reflexivity.
  - simpl. lia.
  - by vm_compute.
  - reflexivity.
  - reflexivity.
  - specialize (Ha (Sample.pending 2) ltac:(right; left) eq_refl).
    injection Ha as <-. by exists st', evs.
Defined.

End PageAndSuccess.

(** ** What a run keeps *)

Section RunKeeps.
Import Db Azure Fs Text Driver Trace Tally Spec.

(** X10. A run adds no row, removes none and changes no [id] and no
    [phrase]: the committed table at the end has the rows of the start,
    in the same order, with the same ids and texts. *)
Theorem run_keeps_ids_and_phrases provider sleep cfg db d :
  (λ r, (id r, phrase r))
    <$> committed (conn (final (main provider sleep cfg db d)))
  = (λ r, (id r, phrase r)) <$> db.
Proof.
  destruct (decide (total_target cfg db = 0)) as [H0|Hne].
  { by rewrite main_nothing. }
  destruct (main_loop provider sleep cfg db d Hne)
    as (status & st & evs & Hloop & _ & ->). simpl.
  eapply (while_loop_keeps provider sleep cfg _
            (λ st1, (λ r, (id r, phrase r)) <$> session (conn st1)
                    = (λ r, (id r, phrase r)) <$> db ∧
                    (λ r, (id r, phrase r)) <$> committed (conn st1)
                    = (λ r, (id r, phrase r)) <$> db)
            (λ _, True) (λ _, True)) in Hloop as [[_ Hcom] _]; [done| | |done].
  - intros row st1 s1 st2 ev1 _ [Hs Hc] _ Hrow.
    pose proof (process_row_id_phrase _ _ _ _ _ _ _ _ Hrow) as Hkey.
    split; [|by apply Forall_true]. split; [congruence|].
    destruct (process_row_committed _ _ _ _ _ _ _ _ Hrow) as [-> | ->];
      congruence.
  - intros st1 rows _ _. split; [done|]. by apply Forall_true.
Qed.

Lemma process_row_files provider sleep cfg row st s st' evs :
  process_row provider sleep cfg row st = (s, st', evs) →
  keeps_files (dir st) (dir st') ∧
  ∀ name, files (dir st') !! name ≠ files (dir st) !! name →
          ∃ text, EvSpeak (id row) text name ∈ evs ∧
                  name = out_file (id row).
Proof.
  intros Hrow.
  assert (Hsame : ∀ d0 : Dir,
            keeps_files d0 d0 ∧
            ∀ name, files d0 !! name ≠ files d0 !! name →
                    ∃ text, EvSpeak (id row) text name ∈ evs ∧
                            name = out_file (id row)).
  { intros d0. split; [by intros name|]. by intros name Hname. }
  row_cases Hrow; simpl; try apply Hsame.
  unfold keeps_files, write.
  destruct (written _) as [size|]; simpl.
  2:{ split; [by intros name|]. by intros name Hname. }
  split.
  - intros name Hname.
    destruct (decide (out_file (id row) = name)) as [<-|Hne].
    + rewrite lookup_insert_eq. by eexists.
    + by rewrite lookup_insert_ne.
  - intros name Hname.
    destruct (decide (out_file (id row) = name)) as [<-|Hne].
    + exists text. split; [left|done].
    + by rewrite lookup_insert_ne in Hname.
Qed.

(** X11. A run deletes no file, and a file is new or of another size
    after the run only if the provider was called to write it, under the
    name [NNNNNN.mp3] of the record of the call. Without a provider
    call (dry-run, reconciliations only) the files are as they were. *)
Theorem files_change_only_by_synthesis provider sleep cfg db d :
  keeps_files d (dir (final (main provider sleep cfg db d))) ∧
  written_by_calls d (dir (final (main provider sleep cfg db d)))
    (log (main provider sleep cfg db d)).
Proof.
  destruct (decide (total_target cfg db = 0)) as [H0|Hne].
  { rewrite main_nothing by done. simpl. split; [by intros name|].
    by intros name Hname. }
  destruct (main_loop provider sleep cfg db d Hne)
    as (status & st & evs & Hloop & _ & ->). simpl.
  change (keeps_files d (dir st) ∧ written_by_calls d (dir st) ([] ++ evs)).
  eapply (while_loop_history provider sleep cfg _
            (λ st1 h, keeps_files d (dir st1) ∧
                      written_by_calls d (dir st1) h));
    [| | |exact Hloop].
  - intros row st1 s1 st2 ev1 h [Hkeep Hby] _ _ Hrow.
    destruct (process_row_files _ _ _ _ _ _ _ _ Hrow) as [Hkeep1 Hby1].
    split.
    + intros name Hname. by apply Hkeep1, Hkeep.
    + intros name Hname.
      destruct (decide (files (dir st2) !! name = files (dir st1) !! name))
        as [Heq|Hdiff].
      * rewrite Heq in Hname.
        destruct (Hby name Hname) as (pid & text & Hin & ->).
        exists pid, text. split; [|done]. apply elem_of_app. by left.
      * destruct (Hby1 name Hdiff) as (text & Hin & ->).
        exists (id row), text. split; [|done].
        apply elem_of_app. by right.
  - intros st1 h rows [Hkeep Hby]. split; [done|].
    intros name Hname. destruct (Hby name Hname) as (pid & text & Hin & ->).
    exists pid, text. split; [|done]. apply elem_of_app. by left.
  - split; [by intros name|]. by intros name Hname.
Qed.

End RunKeeps.

(** ** Attempts and provider calls, record by record *)

Section Accounting.
Import Db Azure Fs Text Driver Trace Tally Spec.

Variable provider : Provider.
Variable sleep : Clock.
Variable cfg : Config.

(** As [for_rows_history], for a table with unique ids: the loop body
    is only run on rows that are in the table, as fetched, at that
    moment. *)
Lemma for_rows_history_unique (target : Z) (I : State → list Event → Prop) :
  (∀ row st s st' evs h,
      I st h → NoDup (ids (session (conn st))) →
      row ∈ session (conn st) →
      where_pending (max_attempts cfg) row = true →
      processed (counters st) < target →
      process_row provider sleep cfg row st = (s, st', evs) →
      I st' (h ++ evs)) →
  ∀ rows st s st' evs h,
    NoDup (ids (session (conn st))) → NoDup (ids rows) →
    Forall (λ r, r ∈ session (conn st) ∧
                 where_pending (max_attempts cfg) r = true) rows →
    I st h →
    for_rows provider sleep cfg target rows st = (s, st', evs) →
    I st' (h ++ evs).
Proof.
  intros Hstep rows.
  induction rows as [|row rest IH]; intros st s st' evs h Hnd Hndr HR HI Hrun;
    simpl in Hrun.
  - injection Hrun as <- <- <-. by rewrite app_nil_r.
  - destruct (Z.leb_spec target (processed (counters st))).
    + injection Hrun as <- <- <-. by rewrite app_nil_r.
    + destruct (process_row provider sleep cfg row st)
        as [[s1 st1] ev1] eqn:Hrow.
      apply Forall_cons in HR as [[Hin Hp] HR].
      pose proof (Hstep _ _ _ _ _ _ HI Hnd Hin Hp ltac:(done) Hrow) as HI1.
      destruct s1; try (by injection Hrun as <- <- <-).
      destruct (for_rows provider sleep cfg target rest st1)
        as [[s2 st2] ev2] eqn:Hrest.
      injection Hrun as <- <- <-.
      unfold ids in Hndr. rewrite fmap_cons in Hndr.
      apply NoDup_cons in Hndr as [Hfresh Hndr].
      rewrite app_assoc. eapply IH; [| | |done|done].
      * by rewrite (process_row_ids _ _ _ _ _ _ _ _ Hrow).
      * done.
      * apply Forall_forall. intros r Hr.
        rewrite Forall_forall in HR. destruct (HR r Hr) as [Hrin Hrp].
        split; [|done].
        assert (Hne : id row ≠ id r).
        { intros Heq. apply Hfresh. rewrite Heq.
          by apply list_elem_of_fmap_2. }
        destruct (process_row_elsewhere provider sleep cfg (id r) _ _ _ _ _
                    Hne Hrow) as (Hs & _ & _).
        by apply Hs.
Qed.

Lemma while_loop_history_unique (target : Z) (I : State → list Event → Prop) :
  (∀ row st s st' evs h,
      I st h → NoDup (ids (session (conn st))) →
      row ∈ session (conn st) →
      where_pending (max_attempts cfg) row = true →
      processed (counters st) < target →
      process_row provider sleep cfg row st = (s, st', evs) →
      I st' (h ++ evs)) →
  (∀ st h rows, I st h → I st (h ++ [EvSelect rows])) →
  ∀ fuel st status st' evs h,
    NoDup (ids (session (conn st))) →
    I st h →
    while_loop provider sleep cfg target fuel st = (status, st', evs) →
    I st' (h ++ evs).
Proof.
  intros Hstep Hsel fuel.
  induction fuel as [|fuel IH]; intros st status st' evs h Hnd HI Hrun;
    simpl in Hrun.
  - injection Hrun as <- <- <-. by rewrite app_nil_r.
  - destruct (processed (counters st) <? target).
    2:{ injection Hrun as <- <- <-. by rewrite app_nil_r. }
    destruct (select_page _ _ _) as [rows|] eqn:Hpage.
    2:{ injection Hrun as <- <- <-. by rewrite app_nil_r. }
    assert (HR : Forall (λ r, r ∈ session (conn st) ∧
                              where_pending (max_attempts cfg) r = true) rows).
    { apply Forall_forall. intros r Hr.
      by apply (elem_of_select_page _ _ _ _ _ Hpage Hr). }
    pose proof (select_page_NoDup _ _ _ _ Hpage Hnd) as Hndr.
    destruct rows as [|row rest].
    { injection Hrun as <- <- <-. by apply Hsel. }
    destruct (for_rows provider sleep cfg target (row :: rest) st)
      as [[s1 st1] ev1] eqn:Hrows.
    assert (HI1 : I st1 ((h ++ [EvSelect (row :: rest)]) ++ ev1)).
    { eapply (for_rows_history_unique target I Hstep);
        [done|done|done| |done].
      by apply Hsel. }
    rewrite <- app_assoc in HI1.
    destruct s1; try (by injection Hrun as <- <- <-).
    destruct (while_loop provider sleep cfg target fuel st1)
      as [[status2 st2] ev2] eqn:Hloop.
    injection Hrun as <- <- <-.
    replace (h ++ EvSelect (row :: rest) :: ev1 ++ ev2)
      with ((h ++ [EvSelect (row :: rest)] ++ ev1) ++ ev2)
      by (by rewrite <- !app_assoc).
    eapply IH; [|done|done].
    by rewrite (for_rows_ids _ _ _ _ _ _ _ _ _ Hrows).
Qed.

Lemma not_handles_no_call pid evs :
  Forall (λ e, ¬ handles pid e) evs → count (is_call_for pid) evs = 0.
Proof.
  induction 1 as [|e evs He _ IH]; simpl; [done|].
  rewrite IH. destruct e; simpl in *; try done.
  by rewrite bool_decide_eq_false_2.
Qed.

Lemma process_row_attempts_track x a row st s st' evs h :
  attempts_track x a st h →
  NoDup (ids (session (conn st))) →
  row ∈ session (conn st) →
  process_row provider sleep cfg row st = (s, st', evs) →
  attempts_track x a st' (h ++ evs).
Proof.
  intros [(rs & Hrs & Hids & Has) (rc & Hrc & Hidc & Hac)] Hnd Hin Hrow.
  unfold attempts_track. rewrite count_app.
  destruct (decide (id row = id x)) as [Heq|Hne].
  - assert (row = rs) as ->
      by (apply (ids_NoDup_inj _ _ _ Hnd Hin Hrs); congruence).
    row_cases Hrow; simpl.
    + rewrite Z.add_0_r. split; [by exists rs | by exists rc].
    + rewrite Z.add_0_r. split; [by exists rs | by exists rc].
    + rewrite Z.add_0_r. split; [|by exists rc].
      exists (set_reconciled rs). split; [|done].
      apply elem_of_update_where_id. left. by exists rs.
    + rewrite bool_decide_eq_true_2 by done.
      assert (Hcount : count (is_call_for (id x))
                         (if negb ok && negb (Qle_bool (sleep_on_error cfg) 0)
                          then [EvSleep (sleep_on_error cfg)] else []) = 0)
        by (by destruct (negb ok && _)).
      rewrite Hcount, Has, or_0_Some.
      assert (Hnew : ∃ r,
                r ∈ update_where_id
                      (setter (if ok
                               then Success
                                      (a + count (is_call_for (id x)) h + 1)
                               else Failure
                                      (a + count (is_call_for (id x)) h + 1)
                                      err))
                      (id rs) (session (conn st)) ∧
                id r = id x ∧
                tts_attempts r
                = Some (a + (count (is_call_for (id x)) h
                             + (1 + (0 + (0 + (0 + 0))))))).
      { eexists. split; [apply elem_of_update_where_id; left; by exists rs|].
        destruct ok; simpl; (split; [done|]); f_equal; lia. }
      by split.
    + rewrite Z.add_0_r. split; [by exists rs | by exists rc].
  - destruct (process_row_elsewhere provider sleep cfg (id x) _ _ _ _ _
                Hne Hrow) as (Hs & _ & Hquiet).
    rewrite (not_handles_no_call _ _ Hquiet), Z.add_0_r.
    assert (Hrs' : rs ∈ session (conn st')) by (by apply Hs).
    split; [by exists rs|].
    destruct (process_row_committed _ _ _ _ _ _ _ _ Hrow) as [-> | ->];
      [by exists rc | by exists rs].
Qed.

End Accounting.

Section AccountingOfRuns.
Import Db Azure Fs Text Driver Trace Tally Spec.

(** X12. In a run over a table with unique ids, [tts_attempts] counts
    the provider calls: for every record with a count, the committed
    count at the end is the count at the start plus the number of
    provider calls the run made for that record; reconciliations and
    previews add nothing. *)
Theorem attempts_count_provider_calls provider sleep cfg db d x a :
  NoDup (ids db) →
  x ∈ db →
  tts_attempts x = Some a →
  (∃ r, r ∈ committed (conn (final (main provider sleep cfg db d))) ∧
        id r = id x) ∧
  (∀ r, r ∈ committed (conn (final (main provider sleep cfg db d))) →
        id r = id x →
        tts_attempts r
        = Some (a + count (is_call_for (id x))
                      (log (main provider sleep cfg db d)))).
Proof.
  intros Hnd Hin Ha.
  assert (Htrack : attempts_track x a (final (main provider sleep cfg db d))
                     (log (main provider sleep cfg db d))).
  { destruct (decide (total_target cfg db = 0)) as [H0|Hne].
    { rewrite main_nothing by done. simpl.
      split; exists x; simpl; by rewrite Z.add_0_r. }
    destruct (main_loop provider sleep cfg db d Hne)
      as (status & st & evs & Hloop & _ & ->). simpl.
    assert (Hst : attempts_track x a st ([] ++ evs)).
    { eapply (while_loop_history_unique provider sleep cfg _
                (attempts_track x a)); [| | | |exact Hloop].
      - intros row st1 s1 st2 ev1 h HI Hnd1 Hrow _ _ Hrun.
        by eapply process_row_attempts_track.
      - intros st1 h rows. unfold attempts_track.
        rewrite count_app. simpl. by rewrite Z.add_0_r.
      - done.
      - split; exists x; simpl; by rewrite Z.add_0_r. }
    destruct Hst as [_ (rc & Hrc & Hidc & Hac)].
    split; exists rc; by simpl. }
  destruct Htrack as [_ (rc & Hrc & Hidc & Hac)].
  split; [by exists rc|].
  intros r Hr Hid.
  assert (Hndf : NoDup (ids (committed
                               (conn (final (main provider sleep cfg db d))))))
    by (by rewrite main_ids).
  rewrite (ids_NoDup_inj _ r rc Hndf Hr Hrc) by congruence. done.
Qed.

Lemma attempts_count_provider_calls_witness :
  (∃ r, r ∈ committed (conn (final (main Sample.refuses Sample.clock
                                      Sample.one_by_one
                                      [Sample.pending 1; Sample.pending 2]
                                      Sample.empty_dir))) ∧ id r = 1) ∧
  (∀ r, r ∈ committed (conn (final (main Sample.refuses Sample.clock
                                      Sample.one_by_one
                                      [Sample.pending 1; Sample.pending 2]
                                      Sample.empty_dir))) →
        id r = 1 → tts_attempts r = Some 2).
Proof.
  destruct (attempts_count_provider_calls Sample.refuses Sample.clock
              Sample.one_by_one
              [Sample.pending 1; Sample.pending 2] Sample.empty_dir
              (Sample.pending 1) 0) as [Hin Hall].
  - apply (bool_decide_unpack _). vm_compute. exact I.
  - left.
  - reflexivity.
  - split; [exact Hin|]. intros r Hr Hid.
    rewrite (Hall r Hr Hid). vm_compute. reflexivity.
Defined.

End AccountingOfRuns.

(** ** Facts about the backup script *)

Section BackupFacts.
Import Backup.

Lemma app_String c (a b : string) : String c a +:+ b = String c (a +:+ b).
Proof. reflexivity. Qed.

Lemma occurrences_app c (a b : string) :
  occurrences c (a +:+ b) = (occurrences c a + occurrences c b)%nat.
Proof.
  induction a as [|c' a IH]; [done|].
  rewrite app_String. simpl. rewrite IH. lia.
Qed.

Lemma length_replace old new s :
  String.length (replace old new s) = String.length s.
Proof. induction s as [|c s IH]; simpl; [done | by rewrite IH]. Qed.

Lemma occurrences_replace_old old new s :
  old ≠ new → occurrences old (replace old new s) = 0%nat.
Proof.
  intros Hne. induction s as [|c s IH]; simpl; [done|]. rewrite IH.
  destruct (decide (c = old)) as [->|Hc].
  - rewrite (bool_decide_eq_true_2 (old = old)) by done.
    by rewrite bool_decide_eq_false_2 by congruence.
  - rewrite (bool_decide_eq_false_2 (c = old)) by done.
    by rewrite bool_decide_eq_false_2.
Qed.

Lemma occurrences_replace_other c old new s :
  c ≠ new → occurrences c s = 0%nat →
  occurrences c (replace old new s) = 0%nat.
Proof.
  intros Hne. induction s as [|c' s IH]; simpl; [done|].
  intros Hzero.
  assert (Hc' : c' ≠ c) by (intros ->; by rewrite bool_decide_eq_true_2 in Hzero).
  rewrite bool_decide_eq_false_2 in Hzero by done.
  rewrite IH by done.
  destruct (decide (c' = old)) as [->|Hold].
  - rewrite (bool_decide_eq_true_2 (old = old)) by done.
    by rewrite bool_decide_eq_false_2 by congruence.
  - rewrite (bool_decide_eq_false_2 (c' = old)) by done.
    by rewrite bool_decide_eq_false_2.
Qed.

Lemma replace_absent old new s :
  occurrences old s = 0%nat → replace old new s = s.
Proof.
  induction s as [|c s IH]; simpl; [done|]. intros Hzero.
  destruct (decide (c = old)) as [->|Hc].
  - by rewrite bool_decide_eq_true_2 in Hzero.
  - rewrite bool_decide_eq_false_2 in Hzero by done.
    rewrite bool_decide_eq_false_2 by done. by rewrite IH.
Qed.

Lemma clean_free phr :
  occurrences TAB (clean phr) = 0%nat ∧
  occurrences CR (clean phr) = 0%nat ∧
  occurrences LF (clean phr) = 0%nat.
Proof.
  unfold clean. split; [|split].
  - do 2 (apply occurrences_replace_other; [done|]).
    by apply occurrences_replace_old.
  - apply occurrences_replace_other; [done|].
    by apply occurrences_replace_old.
  - by apply occurrences_replace_old.
Qed.

(** X13. The cleaned text has no tab, no carriage return and no line
    feed, and the length of the text; a text without these three
    characters is left as it is, so cleaning twice is cleaning once. *)
Theorem clean_removes_separators phr :
  occurrences TAB (clean phr) = 0%nat ∧
  occurrences CR (clean phr) = 0%nat ∧
  occurrences LF (clean phr) = 0%nat ∧
  String.length (clean phr) = String.length phr ∧
  (occurrences TAB phr = 0%nat → occurrences CR phr = 0%nat →
   occurrences LF phr = 0%nat → clean phr = phr) ∧
  clean (clean phr) = clean phr.
Proof.
  destruct (clean_free phr) as (Htab & Hcr & Hlf).
  assert (Hid : ∀ s, occurrences TAB s = 0%nat → occurrences CR s = 0%nat →
                     occurrences LF s = 0%nat → clean s = s).
  { intros s H1 H2 H3. unfold clean.
    rewrite (replace_absent TAB) by done.
    rewrite (replace_absent CR) by done.
    by rewrite (replace_absent LF). }
  split; [done|]. split; [done|]. split; [done|]. split.
  - unfold clean. by rewrite !length_replace.
  - split; [apply Hid | by apply Hid].
Qed.

Example clean_two_lines :
  clean ("hola" +:+ String TAB ("que" +:+ String CR (String LF "tal")))
  = "hola que  tal".
Proof. reflexivity. Qed.

(** The decimal text of a number has no character but digits and the
    minus sign. *)
Lemma occurrences_pretty_N_go c x s :
  (∀ y, pretty_N_char y ≠ c) →
  occurrences c (pretty_N_go x s) = occurrences c s.
Proof.
  intros Hc. revert s.
  induction (N.lt_wf_0 x) as [x _ IH]; intros s.
  destruct (decide (x = 0)%N) as [->|Hx]; [by rewrite pretty_N_go_0|].
  rewrite pretty_N_go_step by lia.
  rewrite IH by (apply N.div_lt; lia).
  simpl. by rewrite bool_decide_eq_false_2.
Qed.

Lemma occurrences_pretty_Z c (z : Z) :
  (∀ y, pretty_N_char y ≠ c) → c ≠ "-"%char →
  occurrences c (pretty z) = 0%nat.
Proof.
  intros Hc Hdash.
  assert (HN : ∀ n : N, occurrences c (pretty n) = 0%nat).
  { intros n. unfold pretty, pretty_N. case_decide.
    - simpl. rewrite bool_decide_eq_false_2; [done|].
      intros <-. by apply (Hc 0%N).
    - by rewrite occurrences_pretty_N_go. }
  destruct z as [|p|p].
  - change (occurrences c "0" = 0%nat). simpl.
    rewrite bool_decide_eq_false_2; [done|].
    intros <-. by apply (Hc 0%N).
  - change (occurrences c (pretty (Npos p)) = 0%nat). apply HN.
  - change (occurrences c ("-" +:+ pretty (Npos p)) = 0%nat).
    rewrite occurrences_app, HN. simpl.
    by rewrite bool_decide_eq_false_2 by congruence.
Qed.

Lemma pretty_N_char_not_TAB y : pretty_N_char y ≠ TAB.
Proof. unfold pretty_N_char. by repeat case_match. Qed.

Lemma pretty_N_char_not_LF y : pretty_N_char y ≠ LF.
Proof. unfold pretty_N_char. by repeat case_match. Qed.

End BackupFacts.

Section BackupFile.
Import Backup.

#[global] Instance by_entry_id_total : Total by_entry_id.
Proof. intros r1 r2. unfold by_entry_id. lia. Qed.

#[global] Instance by_entry_id_trans : Transitive by_entry_id.
Proof. intros r1 r2 r3. unfold by_entry_id. lia. Qed.

Lemma split_on_free sep (a b : string) :
  occurrences sep a = 0%nat →
  split_on sep (a +:+ String sep b) = a :: split_on sep b.
Proof.
  induction a as [|c a IH]; intros Hzero.
  - change (split_on sep (String sep b) = "" :: split_on sep b).
    simpl. by rewrite bool_decide_eq_true_2.
  - simpl in Hzero. rewrite app_String. simpl.
    destruct (decide (c = sep)) as [->|Hc].
    + by rewrite bool_decide_eq_true_2 in Hzero.
    + rewrite bool_decide_eq_false_2 in Hzero by done.
      rewrite bool_decide_eq_false_2 by done. by rewrite IH.
Qed.

Lemma cut_free sep (a b : string) :
  occurrences sep a = 0%nat →
  cut sep (a +:+ String sep b) = Some (a, b).
Proof.
  induction a as [|c a IH]; intros Hzero.
  - change (cut sep (String sep b) = Some ("", b)).
    simpl. by rewrite bool_decide_eq_true_2.
  - simpl in Hzero. rewrite app_String. simpl.
    destruct (decide (c = sep)) as [->|Hc].
    + by rewrite bool_decide_eq_true_2 in Hzero.
    + rewrite bool_decide_eq_false_2 in Hzero by done.
      rewrite bool_decide_eq_false_2 by done. by rewrite IH.
Qed.

(** The text of the data lines of [rows]. *)
Lemma fold_left_write_row rows acc n :
  fold_left write_row rows (acc, n) =
    (acc +:+ foldr (λ r s, line (entry_id r) (clean (or_empty (entry_phrase r)))
                           +:+ s) "" rows,
     n + Z.of_nat (length rows)).
Proof.
  revert acc n. induction rows as [|r rows IH]; intros acc n.
  - simpl. rewrite string_app_nil_r. f_equal. lia.
  - cbn [fold_left foldr length].
    change (write_row (acc, n) r)
      with (acc +:+ line (entry_id r) (clean (or_empty (entry_phrase r))),
            n + 1).
    rewrite IH, string_app_assoc. f_equal. lia.
Qed.

Lemma line_then pid phr rest :
  line pid phr +:+ rest = (pretty pid +:+ String TAB phr) +:+ String LF rest.
Proof.
  unfold line. rewrite !string_app_assoc, !app_String, string_app_assoc.
  reflexivity.
Qed.

Lemma occurrences_field_line c (r : Entry) :
  (c = TAB ∨ c = LF) →
  occurrences c (pretty (entry_id r)) = 0%nat ∧
  occurrences c (clean (or_empty (entry_phrase r))) = 0%nat.
Proof.
  intros [-> | ->]; split.
  - apply occurrences_pretty_Z; [apply pretty_N_char_not_TAB|done].
  - apply clean_free.
  - apply occurrences_pretty_Z; [apply pretty_N_char_not_LF|done].
  - apply clean_free.
Qed.

Lemma occurrences_body c rows :
  (c = TAB ∨ c = LF) →
  occurrences c
    (foldr (λ r s, line (entry_id r) (clean (or_empty (entry_phrase r))) +:+ s)
           "" rows)
  = length rows.
Proof.
  intros Hc. induction rows as [|r rows IH]; simpl; [done|].
  rewrite occurrences_app, IH. unfold line.
  rewrite occurrences_app.
  destruct (occurrences_field_line c r Hc) as [-> Hclean].
  simpl. rewrite occurrences_app, Hclean.
  destruct Hc as [-> | ->]; by vm_compute.
Qed.

Lemma read_lines_body rows :
  read_lines
    (split_on LF
       (foldr (λ r s, line (entry_id r) (clean (or_empty (entry_phrase r)))
                      +:+ s) "" rows))
  = Some (fields_of <$> rows).
Proof.
  induction rows as [|r rows IH]; [done|].
  cbn [foldr]. rewrite line_then.
  destruct (occurrences_field_line LF r ltac:(by right)) as [Hid Hphr].
  destruct (occurrences_field_line TAB r ltac:(by left)) as [Hidt _].
  rewrite split_on_free
    by (rewrite occurrences_app; simpl; rewrite Hid, Hphr; by vm_compute).
  destruct (split_on LF _) as [|piece pieces] eqn:Hsplit; [done|].
  change (read_lines ((pretty (entry_id r) +:+ String TAB
                         (clean (or_empty (entry_phrase r))))
                      :: piece :: pieces))
    with (match cut TAB (pretty (entry_id r) +:+ String TAB
                           (clean (or_empty (entry_phrase r)))),
                read_lines (piece :: pieces) with
          | Some fields, Some more => Some (fields :: more)
          | _, _ => None
          end).
  rewrite cut_free by done. by rewrite IH.
Qed.

End BackupFile.

Section BackupTheorems.
Import Backup.

Lemma main_written args db :
  main args true true db =
    Written (out_path args)
      (header +:+
       foldr (λ r s, line (entry_id r) (clean (or_empty (entry_phrase r)))
                     +:+ s) "" (select_all db))
      (Z.of_nat (length db)) (Z.of_nat (length db)).
Proof.
  unfold main. simpl. rewrite fold_left_write_row.
  assert (Hlen : length (select_all db) = length db)
    by apply Permutation_length, merge_sort_Permutation.
  rewrite Hlen. f_equal.
Qed.

(** The script writes a file only when the audio directory exists and
    the file could be opened. *)
Lemma main_Written args audio_dir_exists opens db path content rows total :
  main args audio_dir_exists opens db = Written path content rows total →
  audio_dir_exists = true ∧ opens = true.
Proof. unfold main. by destruct audio_dir_exists, opens. Qed.

(** X14. When the audio directory exists, the script ends in one of
    two ways. When [out_path.open] raises, nothing is written. When it
    succeeds, the backup is written at [out_path] (the [--output] path
    itself when that is absolute, wherever it points), with
    [rows_written] equal to the [COUNT] of the table, and the file has
    one line feed and one tab for the header and one of each for every
    row, whatever tabs, carriage returns and line feeds the phrases
    hold. *)
Theorem backup_one_line_per_row args opens db :
  match main args true opens db with
  | AudioDirNotFound => False
  | OpenFailed path total =>
      opens = false ∧ path = out_path args ∧ total = Z.of_nat (length db)
  | Written path content rows_written total =>
      opens = true ∧ path = out_path args ∧
      (∀ o, output args = Some o → is_absolute o = true →
            path = Absolute o) ∧
      rows_written = Z.of_nat (length db) ∧
      total = Z.of_nat (length db) ∧
      occurrences LF content = S (length db) ∧
      occurrences TAB content = S (length db)
  end.
Proof.
  destruct opens; [|done].
  rewrite main_written.
  assert (Hlen : length (select_all db) = length db)
    by apply Permutation_length, merge_sort_Permutation.
  rewrite !occurrences_app, !occurrences_body, Hlen by auto.
  repeat split; try (by vm_compute).
  intros o Ho Habs. unfold out_path. rewrite Ho.
  destruct o as [|c o]; [done|]. by rewrite Habs.
Qed.

(** X15. A backup reads back: cut at its line feeds, the text is the
    header line, then for every row of the table one line, in
    increasing order of id, that holds before its first tab the id in
    decimal and after it the cleaned phrase (the empty text for a
    [NULL] phrase), then nothing. *)
Theorem backup_reads_back
    args audio_dir_exists opens db path content rows_written total :
  main args audio_dir_exists opens db
  = Written path content rows_written total →
  read_back content = Some (fields_of <$> select_all db) ∧
  Sorted by_entry_id (select_all db) ∧
  select_all db ≡ₚ db.
Proof.
  intros Hmain.
  destruct (main_Written _ _ _ _ _ _ _ _ Hmain) as [-> ->].
  rewrite main_written in Hmain. injection Hmain as _ <- _ _.
  split; [|split].
  - unfold read_back.
    change (header +:+ ?body)
      with (("id" +:+ String TAB "phrase") +:+ String LF body).
    rewrite split_on_free by (by vm_compute).
    rewrite bool_decide_eq_true_2 by done.
    apply read_lines_body.
  - apply (Sorted_merge_sort by_entry_id).
  - apply merge_sort_Permutation.
Qed.

Lemma backup_reads_back_witness :
  read_back
    ("id" +:+ String TAB ("phrase" +:+ String LF
     ("1" +:+ String TAB ("" +:+ String LF
     ("2" +:+ String TAB ("a b" +:+ String LF ""))))))
  = Some [("1", ""); ("2", "a b")].
Proof.
  apply (backup_reads_back
           {| audio_dir := "out"; output := None |} true true
           [ {| entry_id := 2; entry_phrase := Some ("a" +:+ String TAB "b") |};
             {| entry_id := 1; entry_phrase := None |} ]
           (InAudioDir "out" "phrases_backup.tsv")
           ("id" +:+ String TAB ("phrase" +:+ String LF
            ("1" +:+ String TAB ("" +:+ String LF
            ("2" +:+ String TAB ("a b" +:+ String LF ""))))))
           2 2).
  by vm_compute.
Defined.

Example backup_outside_audio_dir :
  main {| audio_dir := "out"; output := Some "/tmp/elsewhere.tsv" |}
    true true []
  = Written (Absolute "/tmp/elsewhere.tsv") header 0 0.
Proof. reflexivity. Qed.

Example backup_cannot_open :
  main {| audio_dir := "out"; output := Some "missing/sub.tsv" |}
    true false [ {| entry_id := 1; entry_phrase := Some "hola" |} ]
  = OpenFailed (InAudioDir "out" "missing/sub.tsv") 1.
Proof. reflexivity. Qed.

End BackupTheorems.

(** ** File names *)

Section FileNames.
Import Fs.

Lemma string_length_app (a b : string) :
  String.length (a +:+ b) = (String.length a + String.length b)%nat.
Proof.
  induction a as [|c a IH]; [done|].
  rewrite app_String. simpl. by rewrite IH.
Qed.

Lemma string_app_inj_r (a b c : string) : a +:+ c = b +:+ c → a = b.
Proof.
  revert b. induction a as [|x a IH]; intros [|y b] Heq.
  - done.
  - apply (f_equal String.length) in Heq.
    rewrite !string_length_app in Heq. simpl in Heq. lia.
  - apply (f_equal String.length) in Heq.
    rewrite !string_length_app in Heq. simpl in Heq. lia.
  - rewrite !app_String in Heq. injection Heq as -> Heq.
    by rewrite (IH b Heq).
Qed.

Lemma zeros_S k : zeros (S k) = String "0" (zeros k).
Proof. unfold zeros. by destruct k. Qed.

Lemma length_zeros k : String.length (zeros k) = k.
Proof.
  induction k as [|k IH]; [done|]. rewrite zeros_S. simpl. by rewrite IH.
Qed.

(** The decimal text of a positive number starts with a digit that is
    not 0. *)
Lemma pretty_N_go_leading x s :
  (0 < x)%N → ∃ c rest, pretty_N_go x s = String c rest ∧
                        c ≠ "0"%char ∧ c ≠ "-"%char.
Proof.
  revert s. induction (N.lt_wf_0 x) as [x _ IH]; intros s Hx.
  rewrite pretty_N_go_step by done.
  destruct (decide (x < 10)%N) as [Hsmall|Hbig].
  - rewrite N.div_small, pretty_N_go_0 by done.
    rewrite N.mod_small by done. eexists _, _. split; [done|].
    assert (x = 1 ∨ x = 2 ∨ x = 3 ∨ x = 4 ∨ x = 5 ∨ x = 6
            ∨ x = 7 ∨ x = 8 ∨ x = 9)%N as Hcases by lia.
    destruct Hcases as [->|[->|[->|[->|[->|[->|[->|[->| ->]]]]]]]]; by split.
  - apply IH.
    + apply N.div_lt; lia.
    + apply N.div_str_pos. lia.
Qed.

Lemma pretty_N_leading (x : N) :
  ∃ c rest, pretty x = String c rest ∧ c ≠ "-"%char ∧
            (c = "0"%char → x = 0%N ∧ rest = "").
Proof.
  unfold pretty, pretty_N. case_decide as Hx.
  - exists "0"%char, "". by repeat split.
  - assert (Hpos : (0 < x)%N) by lia.
    destruct (pretty_N_go_leading x "" Hpos) as (c & rest & -> & H0 & Hd).
    exists c, rest. by repeat split.
Qed.

Lemma zeros_pretty_inj k1 k2 (a b : N) :
  zeros k1 +:+ pretty a = zeros k2 +:+ pretty b → a = b.
Proof.
  revert k2. induction k1 as [|k1 IH]; intros [|k2] Heq.
  - by apply (inj pretty).
  - rewrite zeros_S, app_String in Heq.
    change (zeros 0 +:+ pretty a) with (pretty a) in Heq.
    destruct (pretty_N_leading a) as (c & rest & Ha & _ & Hzero).
    rewrite Ha in Heq. injection Heq as -> Hrest.
    destruct (Hzero eq_refl) as [_ ->].
    destruct (pretty_N_leading b) as (c' & rest' & Hb & _).
    apply (f_equal String.length) in Hrest.
    rewrite string_length_app, Hb in Hrest. simpl in Hrest. lia.
  - rewrite zeros_S, app_String in Heq.
    change (zeros 0 +:+ pretty b) with (pretty b) in Heq.
    destruct (pretty_N_leading b) as (c & rest & Hb & _ & Hzero).
    rewrite Hb in Heq. injection Heq as <- Hrest.
    destruct (Hzero eq_refl) as [_ ->].
    destruct (pretty_N_leading a) as (c' & rest' & Ha & _).
    apply (f_equal String.length) in Hrest.
    rewrite string_length_app, Ha in Hrest. simpl in Hrest. lia.
  - rewrite !zeros_S, !app_String in Heq. injection Heq as Heq.
    by eapply IH.
Qed.

Lemma zeros_pretty_no_dash k (a : N) rest :
  zeros k +:+ pretty a ≠ String "-" rest.
Proof.
  destruct k as [|k].
  - change (zeros 0 +:+ pretty a) with (pretty a).
    destruct (pretty_N_leading a) as (c & rest' & -> & Hd & _). congruence.
  - rewrite zeros_S, app_String. congruence.
Qed.

Lemma fmt_06d_inj n m : fmt_06d n = fmt_06d m → n = m.
Proof.
  unfold fmt_06d. intros Heq.
  destruct (Z.ltb_spec n 0) as [Hn|Hn], (Z.ltb_spec m 0) as [Hm|Hm].
  - change ("-" +:+ ?s) with (String "-" s) in Heq.
    injection Heq as Heq. apply zeros_pretty_inj in Heq. lia.
  - change ("-" +:+ ?s) with (String "-" s) in Heq.
    change ("" +:+ ?s) with s in Heq.
    symmetry in Heq. by apply zeros_pretty_no_dash in Heq.
  - change ("-" +:+ ?s) with (String "-" s) in Heq.
    change ("" +:+ ?s) with s in Heq.
    by apply zeros_pretty_no_dash in Heq.
  - change ("" +:+ ?s) with s in Heq.
    apply zeros_pretty_inj in Heq. lia.
Qed.

Lemma fmt_06d_length n : (6 ≤ String.length (fmt_06d n))%nat.
Proof. unfold fmt_06d. rewrite !string_length_app, length_zeros. lia. Qed.

(** X16. Two records never share an audio file: the names
    [f"{phrase_id:06d}.mp3"] of two different ids are different,
    whatever their signs and numbers of digits. *)
Theorem out_file_inj n m : n ≠ m → out_file n ≠ out_file m.
Proof.
  intros Hne Heq. apply Hne. unfold out_file in Heq.
  apply string_app_inj_r in Heq. by apply fmt_06d_inj.
Qed.

Lemma out_file_inj_witness : out_file 1 ≠ out_file 1000001.
Proof. apply (out_file_inj 1 1000001). lia. Defined.

End FileNames.

(** ** What the provider is asked, and what is made of its answer *)

Section ProviderCalls.
Import Db Azure Fs Text Driver Trace Tally Spec.

(** X17. [synthesize_to_file] succeeds exactly when the reason is
    [SynthesizingAudioCompleted] and gives an error text exactly when it
    does not succeed; and its answer depends on the reason only, and
    for a cancellation on the cancellation details: not on the text,
    the file, or cancellation details left in a result that is not a
    cancellation. *)
Theorem synthesize_to_file_depends_on_reason
    provider calls text out_path provider' calls' text' out_path' :
  ((synthesize_to_file provider calls text out_path).1 = true ↔
   reason (result (provider calls text out_path))
   = SynthesizingAudioCompleted) ∧
  ((synthesize_to_file provider calls text out_path).2 = None ↔
   (synthesize_to_file provider calls text out_path).1 = true) ∧
  (reason (result (provider calls text out_path))
   = reason (result (provider' calls' text' out_path')) →
   (reason (result (provider calls text out_path)) = Canceled →
    cancellation_details (result (provider calls text out_path))
    = cancellation_details (result (provider' calls' text' out_path'))) →
   synthesize_to_file provider calls text out_path
   = synthesize_to_file provider' calls' text' out_path').
Proof.
  unfold synthesize_to_file.
  destruct (reason (result (provider calls text out_path)))
    as [| |name] eqn:Hreason; simpl.
  - split; [done|]. split; [done|]. by intros <-.
  - split; [done|]. split; [by destruct (truthy _)|].
    intros <- Hdetails. simpl. by rewrite (Hdetails eq_refl).
  - split; [done|]. split; [done|]. by intros <-.
Qed.

Lemma synthesize_to_file_depends_on_reason_witness :
  synthesize_to_file Sample.speaks 0 "hola" "000001.mp3"
  = synthesize_to_file Sample.speaks 7 "adios" "000002.mp3".
Proof.
  apply (synthesize_to_file_depends_on_reason
           Sample.speaks 0 "hola" "000001.mp3"
           Sample.speaks 7 "adios" "000002.mp3").
  - reflexivity.
  - simpl. discriminate.
Defined.

(** [text[:n]] is the text up to a boundary between characters, with
    [n] characters or all of them. *)
Lemma slice_to_first_chars n text : first_chars n text (slice_to n text).
Proof.
  unfold first_chars. revert n.
  induction text as [|c rest IH]; intros n.
  - exists "". by rewrite Nat.min_0_r.
  - simpl. destruct (is_continuation c) eqn:Hc.
    + destruct (IH n) as (tail & Heq & Hb & Hlen).
      exists tail. rewrite app_String, <- Heq. simpl. rewrite Hc.
      by repeat split.
    + destruct n as [|n].
      * exists (String c rest). by repeat split.
      * destruct (IH n) as (tail & Heq & Hb & Hlen).
        exists tail. rewrite app_String, <- Heq. simpl. rewrite Hc, Hlen.
        by repeat split.
Qed.

Example slice_to_accents :
  slice_to 3 "añosé" = "año" ∧ len "añosé" = 5%nat ∧
  String.length "añosé" = 7%nat.
Proof. by vm_compute. Qed.

(** X18. Every provider call of a run is made for a record of the
    table, with the phrase of that record as text and the file
    [NNNNNN.mp3] of its id as destination; every dry-run preview is for
    a record of the table and shows the beginning of its phrase, cut
    between two characters, 60 characters long or the whole phrase when
    that is shorter. *)
Theorem calls_use_the_record provider sleep cfg db d :
  Forall (asks_for db) (log (main provider sleep cfg db d)).
Proof.
  destruct (decide (total_target cfg db = 0)) as [H0|Hne].
  { by rewrite main_nothing. }
  destruct (main_loop provider sleep cfg db d Hne)
    as (status & st & evs & Hloop & _ & ->). simpl.
  eapply (while_loop_keeps provider sleep cfg _
            (λ st1, (λ r, (id r, phrase r)) <$> session (conn st1)
                    = (λ r, (id r, phrase r)) <$> db)
            (asks_for db)
            (λ row, ∃ r, r ∈ db ∧ id r = id row ∧ phrase r = phrase row))
    in Hloop as [_ HQ]; [done| | |done].
  - intros row st1 s1 st2 ev1 (r & Hr & Hid & Hphr0) HP _ Hrow.
    split.
    { by rewrite (process_row_id_phrase _ _ _ _ _ _ _ _ Hrow). }
    row_cases Hrow; simpl; try (by repeat constructor).
    + repeat constructor; simpl. exists r, text.
      repeat split; try congruence. apply slice_to_first_chars.
    + constructor;
        [simpl; split; [done|exists r; repeat split; [done|done|congruence]]|].
      repeat (constructor; [done|]).
      destruct (negb ok && _); by repeat constructor.
  - intros st1 rows HP Hsel. split; [done|].
    apply Forall_forall. intros row Hrow.
    destruct (elem_of_select_page _ _ _ _ _ Hsel Hrow) as [Hin _].
    apply (list_elem_of_fmap_2 (λ r, (id r, phrase r))) in Hin.
    rewrite HP in Hin.
    apply list_elem_of_fmap in Hin as (r & [= Hid Hphr] & Hr).
    by exists r.
Qed.

End ProviderCalls.

(** ** Claims about whole runs: reconciliation, failures, dry runs *)

Section RunClaims.
Import Db Azure Fs Text Driver Trace Tally Spec.

(** *** C3 *)

(** C3, what the code does. Outside dry-run, over a table with unique
    ids in which every eligible record has its audio file, not empty,
    in the output directory: the run counts [total_target] records as
    skipped, with one reconciling [UPDATE] for each and no provider
    call, and prints its summary; but it never commits, so that the
    table is left as it was, with [tts_ok = false] for every one of
    these records. *)
Theorem existing_artifact_update_discarded provider sleep cfg db d :
  dry_run cfg = false →
  NoDup (ids db) →
  0 < batch_size cfg < 2 ^ 63 →
  (∀ r, r ∈ db → eligible (max_attempts cfg) r →
        exists_nonempty d (out_file (id r)) = true) →
  skipped (counters (final (main provider sleep cfg db d)))
    = total_target cfg db ∧
  count is_skip (log (main provider sleep cfg db d)) = total_target cfg db ∧
  count is_call (log (main provider sleep cfg db d)) = 0 ∧
  count is_commit (log (main provider sleep cfg db d)) = 0 ∧
  (total_target cfg db ≠ 0 →
   exit (main provider sleep cfg db d)
   = Finished (summary (total_target cfg db)
                 (counters (final (main provider sleep cfg db d))))) ∧
  committed (conn (final (main provider sleep cfg db d))) = db.
Proof.
  intros Hdry Hnd Hlimit Hfiles.
  set (P := λ st : State,
         dir st = mkdir d ∧ NoDup (ids (session (conn st))) ∧
         committed (conn st) = db ∧ ncalls st = 0%nat ∧
         skipped (counters st) = processed (counters st) ∧
         (∀ r, r ∈ session (conn st) → r ∈ db ∨ tts_ok r = true)).
  set (R := λ row : Row,
         exists_nonempty (mkdir d) (out_file (id row)) = true).
  assert (Hstep : ∀ row st s st' evs,
            R row → P st →
            process_row provider sleep cfg row st = (s, st', evs) →
            P st' ∧ s = Normal ∧
            pending_now cfg st ≤ pending_now cfg st' + 1).
  { intros row st s st' evs Hr (Hdir & Hnd1 & Hcom & Hcalls & Hskip & Hdb) Hrow.
    pose proof (process_row_pending _ _ _ _ _ _ _ _ Hnd1 Hrow) as Hpend.
    pose proof (process_row_ids _ _ _ _ _ _ _ _ Hrow) as Hids.
    unfold R in Hr. rewrite <- Hdir in Hr.
    rewrite process_row_reconcile in Hrow by done.
    injection Hrow as <- <- <-. split; [|done].
    unfold P. simpl in *. repeat split; try done; try congruence; try lia.
    intros r Hin.
    apply elem_of_update_where_id in Hin as [(r0 & _ & _ & ->)|[Hin _]];
      [by right | by apply Hdb]. }
  assert (Hpage : ∀ st rows,
            P st →
            select_page (max_attempts cfg) (batch_size cfg)
              (session (conn st)) = Some rows →
            Forall R rows).
  { intros st rows (_ & _ & _ & _ & _ & Hdb) Hsel.
    apply Forall_forall. intros r Hr.
    destruct (elem_of_select_page _ _ _ _ _ Hsel Hr) as [Hin Hp].
    apply where_pending_eligible in Hp. unfold R.
    destruct (Hdb r Hin) as [Hr0|Hok]; [by apply Hfiles|].
    destruct Hp as [Hp _]. congruence. }
  assert (HP0 : P {| conn := connect db; dir := mkdir d; ncalls := 0;
                     counters := zero |}).
  { unfold P. simpl. repeat split; try done. intros r Hin. by left. }
  destruct (main_reaches provider sleep cfg db d P R) as [Hreach Hexit];
    [by intros; eapply Hstep|done|done|done|].
  assert (Hfinal : P (final (main provider sleep cfg db d)) ∨
                   total_target cfg db ≠ 0 ∧
                   ∃ st, P st ∧ final (main provider sleep cfg db d)
                                = closed st).
  { destruct (decide (total_target cfg db = 0)) as [H0|Hne].
    - left. rewrite main_nothing by done. unfold P. simpl.
      repeat split; try done. intros r Hin. by left.
    - right. split; [done|].
      destruct (main_loop provider sleep cfg db d Hne)
        as (status & st & evs & Hloop & _ & ->). simpl.
      exists st. split; [|done].
      eapply (while_loop_keeps provider sleep cfg _ P (λ _, True) R)
        in Hloop as [HP _]; [done| | |done].
      + intros row st1 s1 st2 ev1 Hr HP1 _ Hrow.
        destruct (Hstep _ _ _ _ _ Hr HP1 Hrow) as (HP2 & _ & _).
        split; [done|]. by apply Forall_true.
      + intros st1 rows HP1 Hsel. split; [done|]. by eapply Hpage. }
  assert (Hskip : skipped (counters (final (main provider sleep cfg db d)))
                  = processed (counters (final (main provider sleep cfg db d)))
                  ∧ ncalls (final (main provider sleep cfg db d)) = 0%nat
                  ∧ committed (conn (final (main provider sleep cfg db d)))
                    = db).
  { destruct Hfinal as [(_ & _ & Hcom & Hcalls & Hskip & _)
                       |(_ & st & (_ & _ & Hcom & Hcalls & Hskip & _) & ->)];
      by repeat split. }
  destruct Hskip as (Hskip & Hcalls & Hcom).
  assert (Hcount : counted (final (main provider sleep cfg db d))
                     (log (main provider sleep cfg db d))).
  { destruct (decide (total_target cfg db = 0)) as [H0|Hne].
    { rewrite main_nothing by done. by repeat split. }
    destruct (main_loop provider sleep cfg db d Hne)
      as (status & st & evs & Hloop & _ & ->). simpl.
    change (counted st ([] ++ evs)).
    eapply while_loop_counted; [|exact Hloop]. by repeat split. }
  destruct Hcount as (_ & _ & _ & Hsk & Hn & Hc & _).
  repeat split; try done; lia.
Qed.

Lemma existing_artifact_update_discarded_witness :
  skipped (counters (final (main Sample.speaks Sample.clock Sample.defaults
                              [Sample.pending 1; Sample.pending 2]
                              Sample.dir_with_1_2))) = 2 ∧
  committed (conn (final (main Sample.speaks Sample.clock Sample.defaults
                            [Sample.pending 1; Sample.pending 2]
                            Sample.dir_with_1_2)))
  = [Sample.pending 1; Sample.pending 2].
Proof.
  destruct (existing_artifact_update_discarded Sample.speaks Sample.clock
              Sample.defaults [Sample.pending 1; Sample.pending 2]
              Sample.dir_with_1_2)
    as (Hskip & _ & _ & _ & _ & Hcom).
  - reflexivity.
  - apply (bool_decide_unpack _). vm_compute. exact I.
  - by vm_compute.
  - intros r Hr _. log_mem Hr; subst r; by vm_compute.
  - split; [exact Hskip | exact Hcom].
Defined.

(** *** C4 *)

(** C4, counterexample. With [--sleep-on-error 1e10], two pending
    records and a provider that cancels: the failure of record 1 is
    committed, then the [sleep] of line 282 raises and the run is
    over; record 2 is not handled. *)
Lemma failure_then_sleep_aborts :
  ¬ survives_failure
      (main Sample.refuses Sample.clock Sample.long_nap
         [Sample.pending 1; Sample.pending 2] Sample.empty_dir).
Proof.
  intros Hclaim. apply Hclaim; [|by vm_compute].
  exists 1, 1,
    (Some "TTS failed, reason=ResultReason.Canceled, cancel_reason=CancellationReason.Error, details=quota exceeded").
  vm_compute. do 2 right. left.
Qed.

Example failure_then_sleep_aborts_log :
  log (main Sample.refuses Sample.clock Sample.long_nap
         [Sample.pending 1; Sample.pending 2] Sample.empty_dir)
  = (let err := Some "TTS failed, reason=ResultReason.Canceled, cancel_reason=CancellationReason.Error, details=quota exceeded" in
     [ EvSelect [Sample.pending 1; Sample.pending 2];
       EvSpeak 1 "hola" "000001.mp3";
       EvUpdate 1 (Failure 1 err);
       EvCommit;
       EvPbar 1 {| processed := 1; done_ := 0; skipped := 0; failed := 1 |};
       EvSleep 10000000000 ]) ∧
  exit (main Sample.refuses Sample.clock Sample.long_nap
          [Sample.pending 1; Sample.pending 2] Sample.empty_dir) = Raised.
Proof. by vm_compute. Qed.

(** C4, amended. Outside dry-run, in a table with unique ids: when the
    loop comes to a fetched record that has a phrase and no audio file
    yet and the provider's result is not [SynthesizingAudioCompleted],
    the row of that id is committed with [tts_ok = false],
    [tts_attempts] one more than it was in the table, and a [tts_error]
    text in which the reason occurs and, for a cancellation, the
    cancellation reason and the details; [failed] and [processed] grow
    by one. When the sleep after the failure returns (or none is
    made), the loop body ends normally and the [for] loop goes on with
    the rest of the page; and every run with that command line, over
    any table with unique ids and no [NULL] phrase, whatever the
    provider answers, handles [total_target] records and ends with its
    summary. When the sleep raises, the [for] loop ends there, by the
    exception, with the failure committed. *)
Theorem failed_synthesis_recorded
    provider sleep cfg target st0 pre row text post st evs0 :
  dry_run cfg = false →
  NoDup (ids (session (conn st0))) →
  select_page (max_attempts cfg) (batch_size cfg) (session (conn st0))
    = Some (pre ++ row :: post) →
  for_rows provider sleep cfg target pre st0 = (Normal, st, evs0) →
  processed (counters st) < target →
  exists_nonempty (dir st) (out_file (id row)) = false →
  phrase row = Some text →
  reason (answer provider row text st) ≠ SynthesizingAudioCompleted →
  ∃ a msg s st' evs,
    process_row provider sleep cfg row st = (s, st', evs) ∧
    (∀ r0, r0 ∈ session (conn st) → id r0 = id row →
           tts_attempts r0 = Some a) ∧
    committed (conn st') = session (conn st') ∧
    {| id := id row; phrase := phrase row; tts_ok := false;
       tts_attempts := Some (a + 1); tts_error := Some msg |}
      ∈ committed (conn st') ∧
    (∀ r, r ∈ committed (conn st') → id r = id row →
          tts_ok r = false ∧ tts_attempts r = Some (a + 1) ∧
          tts_error r = Some msg) ∧
    occurs_in (str_reason (reason (answer provider row text st))) msg ∧
    (reason (answer provider row text st) = Canceled →
     occurs_in (str_cancel (cancel_reason
                  (cancellation_details (answer provider row text st)))) msg ∧
     occurs_in (error_details
                  (cancellation_details (answer provider row text st))) msg) ∧
    failed (counters st') = failed (counters st) + 1 ∧
    processed (counters st') = processed (counters st) + 1 ∧
    (¬ sleep_returns sleep cfg →
     for_rows provider sleep cfg target (pre ++ row :: post) st0
     = (Threw, st', evs0 ++ evs)) ∧
    (sleep_returns sleep cfg →
     s = Normal ∧
     for_rows provider sleep cfg target (pre ++ row :: post) st0 =
       (let '(s2, st2, ev2) := for_rows provider sleep cfg target post st' in
        (s2, st2, evs0 ++ evs ++ ev2)) ∧
     ∀ provider' db d,
       NoDup (ids db) → phrases_not_null db →
       processed (counters (final (main provider' sleep cfg db d)))
         = total_target cfg db ∧
       (total_target cfg db ≠ 0 →
        exit (main provider' sleep cfg db d)
        = Finished (summary (total_target cfg db)
                      (counters (final (main provider' sleep cfg db d)))))).
Proof.
  intros Hdry Hnd0 Hsel Hpre Hlt Hart Hphr Hres.
  destruct (fetched_row_is_current _ _ _ _ _ _ _ _ _ _ _ Hnd0 Hsel Hpre)
    as (Hnd & Hin & Hok & a & Ha & Hcap).
  destruct (synthesize_to_file_failure provider (ncalls st) text
              (out_file (id row)) Hres)
    as (msg & Hsyn & Hreason & Hcancel).
  pose proof (process_row_synth provider sleep cfg row text st false
                (Some msg) Hart Hdry Hphr Hsyn) as E.
  cbv zeta in E. rewrite Ha, or_0_Some in E.
  exists a, msg. eexists _, _, _. split; [exact E|]. simpl.
  split; [|split; [done|split; [|split]]].
  - intros r0 Hr0 Hid. by rewrite (ids_NoDup_inj _ r0 row Hnd Hr0 Hin Hid).
  - apply elem_of_update_where_id. left. by exists row.
  - intros r Hr Hid.
    apply elem_of_update_where_id in Hr as [(r0 & _ & _ & ->)|[_ Hne]];
      done.
  - split; [done|]. split; [done|]. split; [done|]. split; [done|].
    assert (Hrows : for_rows provider sleep cfg target (pre ++ row :: post) st0
              = match process_row provider sleep cfg row st with
                | (Normal, st1, ev1) =>
                    let '(s2, st2, ev2) :=
                      for_rows provider sleep cfg target post st1 in
                    (s2, st2, evs0 ++ ev1 ++ ev2)
                | (s1, st1, ev1) => (s1, st1, evs0 ++ ev1)
                end).
    { rewrite for_rows_app, Hpre. simpl.
      destruct (Z.leb_spec target (processed (counters st))); [lia|].
      destruct (process_row provider sleep cfg row st) as [[s1 st1] ev1].
      destruct s1; try done.
      by destruct (for_rows provider sleep cfg target post st1)
        as [[s2 st2] ev2]. }
    split.
    { intros Hsleep. rewrite Hrows, E.
      destruct (Qle_bool (sleep_on_error cfg) 0) eqn:Hle.
      - exfalso. apply Hsleep. intros Hle'. congruence.
      - destruct (sleep (sleep_on_error cfg)) eqn:Hs; [|done].
        exfalso. apply Hsleep. by intros _. }
    intros Hsleep.
    assert (Hnormal : (if negb (Qle_bool (sleep_on_error cfg) 0)
                          && negb (sleep (sleep_on_error cfg))
                       then Threw else Normal) = Normal).
    { destruct (Qle_bool (sleep_on_error cfg) 0) eqn:Hle; [done|].
      simpl. by rewrite Hsleep. }
    split; [done|]. split.
    + rewrite Hrows, E. simpl. by rewrite Hnormal.
    + intros provider' db d Hnddb Hnull.
      apply main_run_reaches; [done|done|done|].
      apply select_page_Some in Hsel as [Hb Hpage].
      split; [|lia].
      destruct (decide (0 < batch_size cfg)) as [|Hz]; [done|].
      exfalso. replace (Z.to_nat (batch_size cfg)) with 0%nat in Hpage by lia.
      rewrite take_0 in Hpage. by destruct pre.
Qed.

Lemma failed_synthesis_recorded_witness :
  ∃ msg st' evs,
    process_row Sample.refuses Sample.clock Sample.defaults (Sample.pending 2)
      (Sample.start [Sample.voiced 1; Sample.pending 2; Sample.pending 3]
         Sample.dir_with_1)
      = (Normal, st', evs) ∧
    {| id := 2; phrase := Some "hola"; tts_ok := false;
       tts_attempts := Some 1; tts_error := Some msg |}
      ∈ committed (conn st') ∧
    occurs_in "ResultReason.Canceled" msg ∧
    occurs_in "CancellationReason.Error" msg ∧
    occurs_in "quota exceeded" msg.
Proof.
  destruct (failed_synthesis_recorded Sample.refuses Sample.clock
              Sample.defaults 2
              (Sample.start [Sample.voiced 1; Sample.pending 2;
                             Sample.pending 3] Sample.dir_with_1)
              [] (Sample.pending 2) "hola" [Sample.pending 3]
              (Sample.start [Sample.voiced 1; Sample.pending 2;
                             Sample.pending 3] Sample.dir_with_1) [])
    as (a & msg & s & st' & evs & Hrow & Ha & _ & Hin & _ & Hreason & Hcancel
        & _ & _ & _ & Hgoes).
  - reflexivity.
  - apply (bool_decide_unpack _). vm_compute. exact I.
  - reflexivity.
  - reflexivity.
  - simpl. lia.
  - by vm_compute.
  - reflexivity.
  - simpl. discriminate.
  - specialize (Ha (Sample.pending 2) ltac:(right; left) eq_refl).
    injection Ha as <-. destruct (Hcancel eq_refl) as [Hc Hd].
    destruct Hgoes as [-> _]; [intros _; reflexivity|].
    exists msg, st', evs. by repeat split.
Defined.

(** *** C5 *)

(** C5, counterexample. A dry run with [--max-phrases 1] over two
    pending records fetches both in its one page and counts the first
    only: the guard of line 219 ends the loop before the second. And a
    pending record with [NULL] for a phrase is fetched and not
    counted: the preview of line 242 raises. *)
Lemma fetched_record_not_counted :
  (dry_run Sample.preview_one = true ∧
   ¬ counts_every_fetched
       (main Sample.speaks Sample.clock Sample.preview_one
          [Sample.pending 1; Sample.pending 2] Sample.empty_dir)) ∧
  (dry_run Sample.preview = true ∧
   ¬ counts_every_fetched
       (main Sample.speaks Sample.clock Sample.preview
          [Sample.unnamed 1] Sample.empty_dir)).
Proof.
  split; (split; [reflexivity|]); intros Hclaim.
  - destruct (Hclaim [Sample.pending 1; Sample.pending 2] (Sample.pending 2))
      as [c Hc].
    + vm_compute. left.
    + right. left.
    + vm_compute in Hc. log_mem Hc.
  - destruct (Hclaim [Sample.unnamed 1] (Sample.unnamed 1)) as [c Hc].
    + vm_compute. left.
    + left.
    + vm_compute in Hc. log_mem Hc.
Qed.

Example fetched_record_not_counted_log :
  log (main Sample.speaks Sample.clock Sample.preview_one
         [Sample.pending 1; Sample.pending 2] Sample.empty_dir)
  = [ EvSelect [Sample.pending 1; Sample.pending 2];
      EvPreview 1 0 "hola";
      EvPbar 1 {| processed := 1; done_ := 0; skipped := 1; failed := 0 |} ].
Proof. by vm_compute. Qed.

(** C5, amended. A run with [--dry-run] leaves the table as it was
    (committed and as the connection sees it) and the files as they
    were (the output directory itself exists afterwards, made by line
    156 when it was missing), makes no provider call, and its log holds
    page queries, previews and ticks only: no [UPDATE], no [commit], no
    synthesis.
    Every record it handles has a preview and a tick and adds one to
    [processed] and one to [skipped]: at each tick and at the end
    [skipped = processed] and [done = failed = 0], and both are the
    number of previews. With a [--batch-size] from 1 to [2^63 - 1] and
    no [NULL] phrase in an eligible row, it handles exactly
    [total_target] records and prints its summary; the records of a
    page beyond that are not counted. *)
Theorem dry_run_changes_nothing provider sleep cfg db d :
  dry_run cfg = true →
  committed (conn (final (main provider sleep cfg db d))) = db ∧
  session (conn (final (main provider sleep cfg db d))) = db ∧
  files (dir (final (main provider sleep cfg db d))) = files d ∧
  exists_ (dir (final (main provider sleep cfg db d))) = true ∧
  ncalls (final (main provider sleep cfg db d)) = 0%nat ∧
  Forall dry_event (log (main provider sleep cfg db d)) ∧
  only_skips (counters (final (main provider sleep cfg db d))) ∧
  count is_skip (log (main provider sleep cfg db d))
    = processed (counters (final (main provider sleep cfg db d))) ∧
  count is_tick (log (main provider sleep cfg db d))
    = processed (counters (final (main provider sleep cfg db d))) ∧
  (∀ row text st,
      phrase row = Some text →
      process_row provider sleep cfg row st =
        (Normal,
         {| conn := conn st; dir := dir st; ncalls := ncalls st;
            counters :=
              {| processed := processed (counters st) + 1;
                 done_ := done_ (counters st);
                 skipped := skipped (counters st) + 1;
                 failed := failed (counters st) |} |},
         [EvPreview (id row) (or_0 (tts_attempts row)) (slice_to 60 text);
          EvPbar (id row) (bump_skipped (counters st))])) ∧
  (0 < batch_size cfg < 2 ^ 63 →
   (∀ r, r ∈ db → eligible (max_attempts cfg) r → phrase r ≠ None) →
   processed (counters (final (main provider sleep cfg db d)))
     = total_target cfg db ∧
   skipped (counters (final (main provider sleep cfg db d)))
     = total_target cfg db ∧
   (total_target cfg db ≠ 0 →
    exit (main provider sleep cfg db d)
    = Finished (summary (total_target cfg db)
                  (counters (final (main provider sleep cfg db d)))))).
Proof.
  intros Hdry.
  assert (Hframe :
    committed (conn (final (main provider sleep cfg db d))) = db ∧
    session (conn (final (main provider sleep cfg db d))) = db ∧
    files (dir (final (main provider sleep cfg db d))) = files d ∧
    exists_ (dir (final (main provider sleep cfg db d))) = true ∧
    ncalls (final (main provider sleep cfg db d)) = 0%nat ∧
    Forall dry_event (log (main provider sleep cfg db d)) ∧
    only_skips (counters (final (main provider sleep cfg db d))) ∧
    counted (final (main provider sleep cfg db d))
      (log (main provider sleep cfg db d))).
  { destruct (decide (total_target cfg db = 0)) as [H0|Hne].
    - rewrite main_nothing by done. simpl. by repeat split.
    - destruct (main_loop provider sleep cfg db d Hne)
        as (status & st & evs & Hloop & _ & ->). simpl.
      pose proof Hloop as Hcount.
      eapply (while_loop_counted _ _ _ _ _ _ _ _ _ []) in Hcount;
        [|by repeat split].
      eapply while_loop_dry in Hloop
        as [(Hconn & Hdir & Hcalls & Hskips) Hevs];
        [|done|by repeat split].
      simpl in Hcount. unfold counted in *.
      rewrite Hconn, Hdir. simpl.
      destruct Hskips as (? & ? & ?). repeat split; try done; apply Hcount. }
  destruct Hframe
    as (Hcom & Hses & Hfiles & Hdir & Hcalls & Hlog & Hskips & Hcount).
  destruct Hcount as (Htick & _ & _ & Hskip & _).
  destruct Hskips as (Hsp & Hdone & Hfail).
  split; [done|]. split; [done|]. split; [done|]. split; [done|].
  split; [done|]. split; [done|]. split; [by repeat split|].
  split; [lia|]. split; [lia|]. split.
  - intros row text st Hphr. by rewrite (process_row_dry_run _ _ _ _ text).
  - intros Hlimit Hnull.
    destruct (main_dry_run_reaches provider sleep cfg db d Hdry Hnull Hlimit)
      as [Hreach Hexit].
    split; [done|]. split; [lia|done].
Qed.

Lemma dry_run_changes_nothing_witness :
  dry_run Sample.preview = true ∧
  committed (conn (final (main Sample.speaks Sample.clock Sample.preview
                            [Sample.pending 1; Sample.pending 2]
                            Sample.dir_with_1)))
    = [Sample.pending 1; Sample.pending 2] ∧
  Forall dry_event
    (log (main Sample.speaks Sample.clock Sample.preview
            [Sample.pending 1; Sample.pending 2] Sample.dir_with_1)) ∧
  skipped (counters (final (main Sample.speaks Sample.clock Sample.preview
                              [Sample.pending 1; Sample.pending 2]
                              Sample.dir_with_1))) = 2.
Proof.
  split; [reflexivity|].
  destruct (dry_run_changes_nothing Sample.speaks Sample.clock Sample.preview
              [Sample.pending 1; Sample.pending 2] Sample.dir_with_1
              eq_refl)
    as (Hcom & _ & _ & _ & _ & Hlog & _ & _ & _ & _ & Hreach).
  split; [exact Hcom|]. split; [exact Hlog|].
  destruct Hreach as (_ & Hskip & _).
  - by vm_compute.
  - intros r Hr _. log_mem Hr; by subst r.
  - exact Hskip.
Defined.

End RunClaims.
